(** * Dashboard "Qualité de Service" : normalisation, filters and views

    A shallow embedding of [app.py].  The program is a pandas script: a
    table is a [DataFrame] whose columns are [Series] carrying a dtype, and
    every statement of [nettoyer_donnees] and of [main] is translated to the
    corresponding operation on that model.

    Modelling conventions.
    - An int64 value is an integer of [Z], and int64 arithmetic wraps
      around at 2^63 ([wrap64]), as numpy's does.
    - A float64 value is an exact rational ([Q]); NaN is kept apart
      ([None] in a float64 column, [SNaN] in an object column).  Rounding
      and the infinities are outside the model: what is proved about the
      value of a float is stated for values that float64 holds exactly, or
      does not depend on the value.
    - The page of the model lists the elements that depend on the data;
      the fixed texts of [main] ([st.title], [st.markdown], [st.divider],
      [st.sidebar.header]) are not listed.
    - The dtypes are those [pd.read_csv] produces: int64, float64 and
      object, a text column being an object column (as in pandas before
      3.0, for which the test [dtype == object] of the script is written).
    - Strings are byte strings; the case and white-space functions of
      Python are modelled on the ASCII range.
    - The row index of a frame is positional: every Series the program
      combines comes from the same frame, so label alignment and positional
      alignment coincide.
    - Python exceptions are values of [exception]; code that may raise
      returns [exc]. *)

From Stdlib Require Import ZArith QArith Qround Lia Lqa Bool Ascii String List.
From stdpp Require Import base option list sorting gmap strings pretty.

Local Open Scope Z_scope.
Local Open Scope string_scope.

(* ===================================================================== *)
(** ** Python strings                                                     *)
(* ===================================================================== *)

Module PyStr.

(** [str.isspace] on the ASCII range: TAB..CR, FS..US and the space. *)
Definition isspace (a : ascii) : bool :=
  let n := nat_of_ascii a in
  ((9 <=? n)%nat && (n <=? 13)%nat) || ((28 <=? n)%nat && (n <=? 32)%nat).

Fixpoint lstrip (s : string) : string :=
  match s with
  | String a s' => if isspace a then lstrip s' else s
  | EmptyString => EmptyString
  end.

Definition rstrip (s : string) : string :=
  String.rev (lstrip (String.rev s)).

(** [s.strip()] *)
Definition strip (s : string) : string := rstrip (lstrip s).

Definition lower_char (a : ascii) : ascii :=
  let n := nat_of_ascii a in
  if ((65 <=? n)%nat && (n <=? 90)%nat) then ascii_of_nat (n + 32) else a.

(** [s.lower()] *)
Fixpoint lower (s : string) : string :=
  match s with
  | String a s' => String (lower_char a) (lower s')
  | EmptyString => EmptyString
  end.

(** [s.replace(old, new)] for one-character [old] and [new]. *)
Fixpoint replace (old new : ascii) (s : string) : string :=
  match s with
  | String a s' =>
      String (if Ascii.eqb a old then new else a) (replace old new s')
  | EmptyString => EmptyString
  end.

(** [s * n] : repetition. *)
Fixpoint repeat (s : string) (n : nat) : string :=
  match n with
  | O => EmptyString
  | S n' => s ++ repeat s n'
  end.

End PyStr.

(* ===================================================================== *)
(** ** Numbers as text                                                    *)
(* ===================================================================== *)

(** The Python objects a cell can hold. *)
Inductive scalar : Type :=
| SInt (z : Z)
| SFloat (q : Q)
| SStr (s : string)
| SNaN.

Module Num.

Definition digit_of (a : ascii) : option Z :=
  let n := nat_of_ascii a in
  if ((48 <=? n)%nat && (n <=? 57)%nat) then Some (Z.of_nat n - 48) else None.

(** Longest prefix of decimal digits, and what follows it. *)
Fixpoint span_digits (s : string) : list Z * string :=
  match s with
  | String a s' =>
      match digit_of a with
      | Some d => let '(ds, r) := span_digits s' in (d :: ds, r)
      | None => ([], s)
      end
  | EmptyString => ([], EmptyString)
  end.

Definition value_of (ds : list Z) : Z :=
  fold_left (fun acc d => 10 * acc + d) ds 0.

(** The white space the C number scanner skips: TAB..CR and the space. *)
Definition c_isspace (a : ascii) : bool :=
  let n := nat_of_ascii a in
  ((9 <=? n)%nat && (n <=? 13)%nat) || (n =? 32)%nat.

Fixpoint skip_space (s : string) : string :=
  match s with
  | String a s' => if c_isspace a then skip_space s' else s
  | EmptyString => EmptyString
  end.

(** An optional sign: [true] for '-'. *)
Definition take_sign (s : string) : bool * string :=
  match s with
  | String "-"%char s' => (true, s')
  | String "+"%char s' => (false, s')
  | _ => (false, s)
  end.

Definition signed (neg : bool) (z : Z) : Z := if neg then - z else z.

(** [10^e] as a rational, for any integer [e]. *)
Definition pow10 (e : Z) : Q :=
  match e with
  | Z0 => 1
  | Zpos p => inject_Z (10 ^ Zpos p)
  | Zneg p => 1 # (Z.to_pos (10 ^ Zpos p))
  end.

(** The exponent part ["e[+-]ddd"], if there is one.  [None] when an
    exponent marker is not followed by digits. *)
Definition take_exponent (s : string) : option (option Z * string) :=
  match s with
  | String a s' =>
      if (Ascii.eqb a "e" || Ascii.eqb a "E")%bool then
        let '(neg, s1) := take_sign s' in
        match span_digits s1 with
        | ([], _) => None
        | (ds, r) => Some (Some (signed neg (value_of ds)), r)
        end
      else Some (None, s)
  | EmptyString => Some (None, s)
  end.

(** What [pd.to_numeric(..., errors='coerce')] makes of one text cell:
    white space, sign, digits with an optional fractional part, an
    optional exponent, white space, end of text.  A literal with neither
    point nor exponent is an int; anything the scanner refuses is NaN
    (the text "nan" included).  The words pandas reads as infinities are
    outside the model, like the infinities themselves. *)
Definition parse (s : string) : scalar :=
  let '(neg, s1) := take_sign (skip_space s) in
  let '(ip, s2) := span_digits s1 in
  let '(point, (fp, s3)) :=
    match s2 with
    | String "."%char s' => (true, span_digits s')
    | _ => (false, ([], s2))
    end in
  match (ip ++ fp)%list with
  | [] => SNaN
  | _ =>
      match take_exponent s3 with
      | None => SNaN
      | Some (ex, s4) =>
          match skip_space s4 with
          | EmptyString =>
              match point, ex with
              | false, None => SInt (signed neg (value_of ip))
              | _, _ =>
                  let m := inject_Z (value_of (ip ++ fp)%list) in
                  let e := (default 0 ex - Z.of_nat (length fp))%Z in
                  SFloat (Qred (inject_Z (signed neg 1) * m * pow10 e))
              end
          | _ => SNaN
          end
      end
  end.

(** Digits of the fractional part of [n/d] ([0 <= n < d]), at most
    [fuel] of them. *)
Fixpoint frac_digits (fuel : nat) (n d : Z) : string :=
  match fuel with
  | O => EmptyString
  | S fuel' =>
      if (n =? 0)%Z then EmptyString
      else pretty ((10 * n) / d)%Z ++ frac_digits fuel' ((10 * n) mod d)%Z d
  end.

(** [repr] of a float in positional notation: an integer part, a point
    and at least one fractional digit ("2023.0", "98.5").  This is what
    Python prints for the decimal numbers of a CSV file (up to 15
    significant digits, magnitude between 1e-4 and 1e16); the exponent
    notation of other floats is outside the model. *)
Definition repr_float (q : Q) : string :=
  let n := Z.abs (Qnum q) in
  let d := Zpos (Qden q) in
  let f := frac_digits 17 (n mod d) d in
  (if (Qnum q <? 0)%Z then "-" else "") ++ pretty (n / d)%Z ++ "." ++
  (match f with EmptyString => "0" | _ => f end).

End Num.

(** [str(x)] *)
Definition py_str (x : scalar) : string :=
  match x with
  | SInt z => pretty z
  | SFloat q => Num.repr_float q
  | SStr s => s
  | SNaN => "nan"
  end.

(* ===================================================================== *)
(** ** Exceptions                                                         *)
(* ===================================================================== *)

Inductive exception : Type :=
| KeyError (label : string)
    (** the label names no column *)
| NotASeries (label : string)
    (** the label names several columns: [df[label]] is then a sub-frame,
        and the Series-only code applied to it raises (AttributeError or
        ValueError, depending on the call) *)
| TypeError
    (** an operator applied to operands it does not accept *)
| AttributeError
    (** [.str] on a Series that does not hold text *)
| UnboundReference
    (** a reference that designates no object; Python cannot produce it *)
| StopExecution.
    (** [st.stop()] *)

Inductive exc (A : Type) : Type :=
| Ok (a : A)
| Raise (e : exception).
Arguments Ok {A} a.
Arguments Raise {A} e.

Global Instance exc_ret : MRet exc := @Ok.
Global Instance exc_bind : MBind exc := fun A B f m =>
  match m with
  | Ok a => f a
  | Raise e => Raise e
  end.

Global Instance exc_fmap : FMap exc := fun A B f m =>
  match m with
  | Ok a => Ok (f a)
  | Raise e => Raise e
  end.

Definition is_ok {A} (m : exc A) : bool :=
  match m with Ok _ => true | Raise _ => false end.

(* ===================================================================== *)
(** ** Series and frames                                                  *)
(* ===================================================================== *)

(** A pandas Series with its dtype.  [None] is NaN in a float64 column. *)
Inductive Series : Type :=
| Int64 (xs : list Z)
| Float64 (xs : list (option Q))
| Object (xs : list scalar).

Record DataFrame : Type := mkFrame { cols : list (string * Series) }.

(** Equality of cell values as [unique] and [groupby] take it: numbers by
    value, texts by content, NaN equal to NaN, a text never equal to a
    number.  [isin] takes it too, but for NaN. *)
Definition scalar_eqb (x y : scalar) : bool :=
  match x, y with
  | SInt a, SInt b => (a =? b)%Z
  | SInt a, SFloat q | SFloat q, SInt a => Qeq_bool (inject_Z a) q
  | SFloat p, SFloat q => Qeq_bool p q
  | SStr s, SStr t => String.eqb s t
  | SNaN, SNaN => true
  | _, _ => false
  end.

Definition is_nan (x : scalar) : bool :=
  match x with SNaN => true | _ => false end.

Definition of_float (o : option Q) : scalar :=
  match o with Some q => SFloat q | None => SNaN end.

(** Keep the entries of [l] whose flag in [m] is set. *)
Fixpoint mask_filter {A} (m : list bool) (l : list A) : list A :=
  match m, l with
  | b :: m', x :: l' => if b then x :: mask_filter m' l' else mask_filter m' l'
  | _, _ => []
  end.

Module Pd.

(** *** Series *)

Definition values (s : Series) : list scalar :=
  match s with
  | Int64 xs => SInt <$> xs
  | Float64 xs => of_float <$> xs
  | Object xs => xs
  end.

Definition size (s : Series) : nat := length (values s).

(** [s.dtype == object] *)
Definition dtype_is_object (s : Series) : bool :=
  match s with Object _ => true | _ => false end.

(** [s.astype(str)] *)
Definition astype_str (s : Series) : Series :=
  Object ((fun x => SStr (py_str x)) <$> values s).

(** [s.str.replace(old, new, regex=False)]; a missing cell stays missing,
    a cell that is not text becomes missing. *)
Definition str_replace (old new : ascii) (s : Series) : exc Series :=
  match s with
  | Object xs =>
      Ok (Object ((fun x => match x with
                            | SStr t => SStr (PyStr.replace old new t)
                            | _ => SNaN
                            end) <$> xs))
  | _ => Raise AttributeError
  end.

Definition coerce_cell (x : scalar) : scalar :=
  match x with
  | SStr t => Num.parse t
  | _ => x
  end.

Definition as_int (x : scalar) : option Z :=
  match x with SInt z => Some z | _ => None end.

Definition as_float (x : scalar) : option Q :=
  match x with
  | SInt z => Some (inject_Z z)
  | SFloat q => Some q
  | _ => None
  end.

(** A numeric column out of scalars: int64 when every cell is an int,
    float64 otherwise (what is not a number becomes NaN). *)
Definition numeric_of (xs : list scalar) : Series :=
  match mapM as_int xs with
  | Some zs => Int64 zs
  | None => Float64 (as_float <$> xs)
  end.

(** [pd.to_numeric(s, errors='coerce')] *)
Definition to_numeric (s : Series) : Series :=
  match s with
  | Object xs => numeric_of (coerce_cell <$> xs)
  | _ => s
  end.

(** [s.map(d)] for a dict [d] with text keys and int values: a cell that
    is not a key gives NaN. *)
Definition map_dict (d : list (string * Z)) (s : Series) : Series :=
  numeric_of ((fun x => match x with
                        | SStr t =>
                            match List.find (fun kv => String.eqb (fst kv) t) d with
                            | Some kv => SInt (snd kv)
                            | None => SNaN
                            end
                        | _ => SNaN
                        end) <$> values s).

(** [s.fillna(z)] with an int [z]. *)
Definition fillna (z : Z) (s : Series) : Series :=
  match s with
  | Int64 xs => Int64 xs
  | Float64 xs => Float64 ((fun o => Some (default (inject_Z z) o)) <$> xs)
  | Object xs => Object ((fun x => if is_nan x then SInt z else x) <$> xs)
  end.

(** [s.notna()] *)
Definition notna (s : Series) : list bool :=
  (fun x => negb (is_nan x)) <$> values s.

(** int64 arithmetic: the result modulo 2^64, in [-2^63, 2^63). *)
Definition wrap64 (z : Z) : Z := (z + 2 ^ 63) mod 2 ^ 64 - 2 ^ 63.

(** [x * n] on Python objects. *)
Definition py_mul (n : Z) (x : scalar) : scalar :=
  match x with
  | SInt a => SInt (a * n)
  | SFloat q => SFloat (Qred (q * inject_Z n))
  | SStr t => SStr (PyStr.repeat t (Z.to_nat n))
  | SNaN => SNaN
  end.

(** [s * n] with an int [n]: the int64 product wraps around, the
    product of Python ints in an object column does not. *)
Definition mul (s : Series) (n : Z) : Series :=
  match s with
  | Int64 xs => Int64 ((fun a => wrap64 (a * n)) <$> xs)
  | Float64 xs => Float64 (fmap (M:=list) (fmap (fun q => Qred (q * inject_Z n))) xs)
  | Object xs => Object (py_mul n <$> xs)
  end.

(** [x + y] on Python objects, where neither is missing. *)
Definition py_add (x y : scalar) : exc scalar :=
  match x, y with
  | SInt a, SInt b => Ok (SInt (a + b))
  | SStr s, SStr t => Ok (SStr (s ++ t))
  | SStr _, _ | _, SStr _ => Raise TypeError
  | _, _ =>
      match as_float x, as_float y with
      | Some p, Some q => Ok (SFloat (Qred (p + q)))
      | _, _ => Ok SNaN
      end
  end.

Definition add_float (x y : option Q) : option Q :=
  p ← x; q ← y; Some (Qred (p + q)).

(** [s + t], cell by cell.  Two numeric columns give a numeric column
    (int64 only when both are, and the int64 sum wraps around); with an
    object column the sum is taken on the Python objects of the cells
    where both sides are present. *)
Definition add (s t : Series) : exc Series :=
  match s, t with
  | Int64 xs, Int64 ys => Ok (Int64 (zip_with (fun a b => wrap64 (a + b)) xs ys))
  | Object _, _ | _, Object _ =>
      Object <$> mapM (fun xy : scalar * scalar =>
                         if is_nan (fst xy) || is_nan (snd xy) then Ok SNaN
                         else py_add (fst xy) (snd xy))
                      (zip (values s) (values t))
  | _, _ =>
      Ok (Float64 (zip_with add_float (as_float <$> values s)
                                     (as_float <$> values t)))
  end.

(** [s + v] with a text [v]. *)
Definition add_str (s : Series) (v : string) : exc Series :=
  Object <$> mapM (fun x => if is_nan x then Ok SNaN else py_add x (SStr v))
                  (values s).

(** [s == v] for a text [v]. *)
Definition eq_str (s : Series) (v : string) : list bool :=
  (fun x => scalar_eqb x (SStr v)) <$> values s.

(** [s.isin(vs)] for a list [vs] of values of [s.unique()], as [main]
    calls it: a cell matches a value of the list equal to it, and a
    missing cell matches nothing (the NaN of the list is not the NaN of
    the cell).  What pandas makes of a NaN in the list depends on the path
    it takes; the theorems that characterise the rows kept are stated for
    lists without NaN. *)
Definition isin (s : Series) (vs : list scalar) : list bool :=
  (fun x => negb (is_nan x) && existsb (scalar_eqb x) vs) <$> values s.

(** [s[mask]] *)
Definition take (m : list bool) (s : Series) : Series :=
  match s with
  | Int64 xs => Int64 (mask_filter m xs)
  | Float64 xs => Float64 (mask_filter m xs)
  | Object xs => Object (mask_filter m xs)
  end.

(** *** Frames *)

(** [df.columns] *)
Definition columns (df : DataFrame) : list string := fst <$> cols df.

(** [col in df.columns] *)
Definition has (df : DataFrame) (col : string) : bool :=
  existsb (String.eqb col) (columns df).

(** [df.columns = labels] *)
Definition set_columns (labels : list string) (df : DataFrame) : DataFrame :=
  mkFrame (zip labels (snd <$> cols df)).

(** [df.rename(columns=d, inplace=True)] *)
Definition rename (d : list (string * string)) (df : DataFrame) : DataFrame :=
  mkFrame ((fun c : string * Series =>
              match List.find (fun kv => String.eqb (fst kv) (fst c)) d with
              | Some kv => (snd kv, snd c)
              | None => c
              end) <$> cols df).

(** [df[col]] used as a Series. *)
Definition getitem (df : DataFrame) (col : string) : exc Series :=
  match List.filter (fun c => String.eqb (fst c) col) (cols df) with
  | [] => Raise (KeyError col)
  | [c] => Ok (snd c)
  | _ => Raise (NotASeries col)
  end.

(** [df[col] = s] : every column carrying the label is replaced; a new
    column is appended when there is none. *)
Definition setitem (col : string) (s : Series) (df : DataFrame) : DataFrame :=
  if has df col then
    mkFrame ((fun c : string * Series =>
                if String.eqb (fst c) col then (fst c, s) else c) <$> cols df)
  else mkFrame (cols df ++ [(col, s)]).

(** [df[mask]] *)
Definition loc (m : list bool) (df : DataFrame) : DataFrame :=
  mkFrame ((fun c : string * Series => (fst c, take m (snd c))) <$> cols df).

(** [df.dropna(subset=[col], inplace=True)] *)
Definition dropna (col : string) (df : DataFrame) : exc DataFrame :=
  s ← getitem df col; Ok (loc (notna s) df).

(** Number of rows: the length of the columns. *)
Definition nrows (df : DataFrame) : nat :=
  match cols df with
  | [] => O
  | c :: _ => size (snd c)
  end.

(** [df.empty] *)
Definition empty (df : DataFrame) : bool :=
  match cols df with
  | [] => true
  | _ => (nrows df =? 0)%nat
  end.

(** Every column has the same number of cells. *)
Definition rectangular (df : DataFrame) : bool :=
  forallb (fun c => (size (snd c) =? nrows df)%nat) (cols df).

End Pd.

(* ===================================================================== *)
(** ** The interpreter state: objects and the page                        *)
(* ===================================================================== *)

(** Frames are Python objects: variables hold references, and in-place
    methods change the object every alias sees. *)
Definition ref : Type := positive.

(** One row of the long table behind the line chart. *)
Record TimeRow : Type := mkTime {
  periode_label : scalar;
  sort_key : scalar;
  Type_ : string;
  Score : option Q
}.

(** What the script puts on the page, in order: the elements that depend
    on the data.  The fixed texts ([st.title], [st.markdown], [st.divider],
    [st.sidebar.header]) are not listed. *)
Inductive element : Type :=
| StError (msg : string)
| StWarning (msg : string)
| StInfo (msg : string)
| StSubheader (title : string)
| StMetric (label : string) (value : option Q)
| StLineChart (title : string) (data : list TimeRow)
| StBarChart (title : string) (data : list (scalar * option Q))
| StDataframe (df : DataFrame).

(** The CSV file on disk: absent, or present with what each of the two
    [pd.read_csv] calls makes of it (decoding and field splitting are
    outside the model). *)
Inductive fichier : Type :=
| Introuvable
| Present (latin1 utf8 : option DataFrame).

Record world : Type := mkWorld {
  heap : gmap ref DataFrame;
  page : list element;
  disk : fichier
}.

Definition M (A : Type) : Type := world -> exc A * world.

Global Instance M_ret : MRet M := fun A a w => (Ok a, w).
Global Instance M_bind : MBind M := fun A B f m w =>
  match m w with
  | (Ok a, w') => f a w'
  | (Raise e, w') => (Raise e, w')
  end.

Definition raise {A} (e : exception) : M A := fun w => (Raise e, w).

Definition lift {A} (m : exc A) : M A := fun w => (m, w).

Definition when (b : bool) (m : M unit) : M unit :=
  if b then m else mret tt.

Fixpoint for_ {A} (l : list A) (body : A -> M unit) : M unit :=
  match l with
  | [] => mret tt
  | x :: l' => body x;; for_ l' body
  end.

(** The object a reference designates. *)
Definition read (r : ref) : M DataFrame := fun w =>
  match heap w !! r with
  | Some d => (Ok d, w)
  | None => (Raise UnboundReference, w)
  end.

(** An in-place method: the object behind [r] is replaced by [f] of it. *)
Definition modify (r : ref) (f : DataFrame -> DataFrame) : M unit := fun w =>
  match heap w !! r with
  | Some d => (Ok tt, mkWorld (<[r := f d]> (heap w)) (page w) (disk w))
  | None => (Raise UnboundReference, w)
  end.

(** A fresh object holding [d]. *)
Definition alloc (d : DataFrame) : M ref := fun w =>
  let r := fresh (dom (heap w)) in
  (Ok r, mkWorld (<[r := d]> (heap w)) (page w) (disk w)).

Definition show (e : element) : M unit := fun w =>
  (Ok tt, mkWorld (heap w) (page w ++ [e]) (disk w)).

(** [df[col]] and [df[col] = s] through a reference. *)
Definition getitem (df : ref) (col : string) : M Series :=
  d ← read df; lift (Pd.getitem d col).

Definition setitem (df : ref) (col : string) (s : Series) : M unit :=
  modify df (Pd.setitem col s).

(* ===================================================================== *)
(** ** [nettoyer_donnees]                                                 *)
(* ===================================================================== *)

Definition rename_map : list (string * string) :=
  [ ("resultat_indicateurs_en", "valeur_reelle");
    ("objectif_reference_contrat", "valeur_objectif");
    ("ligne", "ligne");
    ("mode", "mode");
    ("thematique", "thematique");
    ("indicateur", "indicateur");
    ("annee", "annee");
    ("trimestre", "trimestre") ].

Definition cols_numeriques : list string :=
  [ "valeur_reelle"; "valeur_objectif" ].

Definition mapping_trimestre : list (string * Z) :=
  [ ("T1", 1); ("T2", 2); ("T3", 3); ("T4", 4) ].

(** [df['annee'].astype(str) + " - " + df['trimestre'].astype(str)] *)
Definition concat_periode (annee trimestre : Series) : exc Series :=
  left ← Pd.add_str (Pd.astype_str annee) " - ";
  Pd.add left (Pd.astype_str trimestre).

Definition nettoyer_donnees (df : ref) : M ref :=
  (* 1. df.columns = df.columns.str.strip().str.lower() *)
  modify df (fun d =>
    Pd.set_columns ((fun c => PyStr.lower (PyStr.strip c)) <$> Pd.columns d) d);;
  (* 2. df.rename(columns={k: v ... if k in df.columns}, inplace=True) *)
  d ← read df;
  modify df (Pd.rename (List.filter (fun kv => Pd.has d (fst kv)) rename_map));;
  (* 3. numeric columns *)
  for_ cols_numeriques (fun col =>
    d ← read df;
    when (Pd.has d col) (
      s ← getitem df col;
      when (Pd.dtype_is_object s) (
        s' ← lift (Pd.str_replace "," "." (Pd.astype_str s));
        setitem df col s');;
      s ← getitem df col;
      setitem df col (Pd.to_numeric s)));;
  (* 4. derived columns *)
  d ← read df;
  when (Pd.has d "annee" && Pd.has d "trimestre") (
    annee ← getitem df "annee";
    trimestre ← getitem df "trimestre";
    label ← lift (concat_periode annee trimestre);
    setitem df "periode_label" label;;
    trimestre ← getitem df "trimestre";
    let trim_num := Pd.fillna 0 (Pd.map_dict mapping_trimestre trimestre) in
    annee ← getitem df "annee";
    key ← lift (Pd.add (Pd.mul annee 10) trim_num);
    setitem df "sort_key" key);;
  (* 5. rows without a result *)
  d ← read df;
  when (Pd.has d "valeur_reelle") (
    d ← read df;
    d' ← lift (Pd.dropna "valeur_reelle" d);
    modify df (fun _ => d'));;
  mret df.

(* ===================================================================== *)
(** ** What [nettoyer_donnees] computes                                   *)
(* ===================================================================== *)

(** The five steps as functions on the value of the frame; [nettoyer] is
    their composition.  [nettoyer_donnees_runs] below proves that running
    [nettoyer_donnees] on a reference leaves [nettoyer] of the object
    behind it (or raises what [nettoyer] raises). *)

Definition etape_entetes (d : DataFrame) : DataFrame :=
  Pd.set_columns ((fun c => PyStr.lower (PyStr.strip c)) <$> Pd.columns d) d.

Definition etape_renommage (d : DataFrame) : DataFrame :=
  Pd.rename (List.filter (fun kv => Pd.has d (fst kv)) rename_map) d.

Definition coercion (s : Series) : exc Series :=
  if Pd.dtype_is_object s
  then Pd.to_numeric <$> Pd.str_replace "," "." (Pd.astype_str s)
  else Ok (Pd.to_numeric s).

Definition etape_numerique (col : string) (d : DataFrame) : exc DataFrame :=
  if Pd.has d col then
    s ← Pd.getitem d col;
    s' ← coercion s;
    Ok (Pd.setitem col s' d)
  else Ok d.

Definition trim_num (trimestre : Series) : Series :=
  Pd.fillna 0 (Pd.map_dict mapping_trimestre trimestre).

Definition etape_periode (d : DataFrame) : exc DataFrame :=
  if Pd.has d "annee" && Pd.has d "trimestre" then
    annee ← Pd.getitem d "annee";
    trimestre ← Pd.getitem d "trimestre";
    label ← concat_periode annee trimestre;
    key ← Pd.add (Pd.mul annee 10) (trim_num trimestre);
    Ok (Pd.setitem "sort_key" key (Pd.setitem "periode_label" label d))
  else Ok d.

Definition etape_dropna (d : DataFrame) : exc DataFrame :=
  if Pd.has d "valeur_reelle" then Pd.dropna "valeur_reelle" d else Ok d.

Definition avant_dropna (d : DataFrame) : exc DataFrame :=
  d3 ← etape_numerique "valeur_reelle" (etape_renommage (etape_entetes d));
  d3' ← etape_numerique "valeur_objectif" d3;
  etape_periode d3'.

Definition nettoyer (d : DataFrame) : exc DataFrame :=
  avant_dropna d ≫= etape_dropna.

(** The world in which the object behind [r] is [d]. *)
Definition set_obj (r : ref) (d : DataFrame) (w : world) : world :=
  mkWorld (<[r := d]> (heap w)) (page w) (disk w).

(** [m], run where [r] designates [d], behaves as [f d] says: it returns
    the value and leaves the object [f d] gives, or raises what [f d]
    raises. *)
Definition runs {A} (r : ref) (m : M A) (f : DataFrame -> exc (A * DataFrame)) : Prop :=
  forall w d, heap w !! r = Some d ->
    match f d with
    | Ok (a, d') => m w = (Ok a, set_obj r d' w)
    | Raise e => fst (m w) = Raise e
    end.

(* ===================================================================== *)
(** ** Orders, distinct values and means                                  *)
(* ===================================================================== *)

(** A relation given by a boolean test. *)
Definition holds {A} (f : A -> A -> bool) : relation A :=
  fun x y => f x y = true.

Global Instance holds_dec {A} (f : A -> A -> bool) : RelDecision (holds f).
Proof. intros x y. unfold holds. apply _. Defined.

(** [sorted(l)] with the order [f]. *)
Definition sort_by {A} (f : A -> A -> bool) (l : list A) : list A :=
  merge_sort (holds f) l.

(** Distinct values in order of first appearance. *)
Fixpoint unique_from {A} (eqb : A -> A -> bool) (seen l : list A) : list A :=
  match l with
  | [] => []
  | x :: l' =>
      if existsb (eqb x) seen then unique_from eqb seen l'
      else x :: unique_from eqb (x :: seen) l'
  end.

Definition unique {A} (eqb : A -> A -> bool) (l : list A) : list A :=
  unique_from eqb [] l.

Definition is_str (x : scalar) : bool :=
  match x with SStr _ => true | _ => false end.

(** The order pandas sorts group keys by: numbers by value, then texts by
    code point.  (Missing keys are never compared.) *)
Definition scalar_leb (x y : scalar) : bool :=
  match x, y with
  | SStr s, SStr t => String.leb s t
  | SStr _, _ => false
  | _, SStr _ => true
  | _, _ =>
      match Pd.as_float x, Pd.as_float y with
      | Some p, Some q => Qle_bool p q
      | None, _ => false
      | Some _, None => true
      end
  end.

(** Python's [sorted] on cell values: comparing a text with a number
    raises.  Where NaN lands among numbers is not modelled (NaN is put
    last). *)
Definition py_sorted (l : list scalar) : exc (list scalar) :=
  if existsb is_str l && existsb (fun x => negb (is_str x)) l
  then Raise TypeError
  else Ok (sort_by (fun x y => scalar_leb x y || is_nan y) l).

Definition sum_Q (l : list Q) : Q := fold_right Qplus 0%Q l.

(** Arithmetic mean of the values present; NaN when there is none.  The
    quotient is the exact one: the float64 mean is the float64 next to
    it when the sum is exact. *)
Definition mean (vs : list (option Q)) : option Q :=
  match omap id vs with
  | [] => None
  | xs => Some (Qred (sum_Q xs / inject_Z (Z.of_nat (length xs))))
  end.

(** The numeric content of a column to average.  A column that holds
    text cannot be averaged. *)
Definition numeric_values (s : Series) : exc (list (option Q)) :=
  match s with
  | Object xs =>
      if existsb is_str xs then Raise TypeError else Ok (Pd.as_float <$> xs)
  | _ => Ok (Pd.as_float <$> Pd.values s)
  end.

(** [s.mean()] *)
Definition series_mean (s : Series) : exc (option Q) :=
  mean <$> numeric_values s.

Section GroupBy.
Context {K : Type} (eqb leb : K -> K -> bool) (missing : K -> bool).

(** The groups of [df.groupby(...)]: the distinct keys that are present,
    in sorted order. *)
Definition group_keys (ks : list K) : list K :=
  sort_by leb (unique eqb (List.filter (fun k => negb (missing k)) ks)).

(** The values of the rows that fall in the group of [k]. *)
Definition group_values {V} (ks : list K) (vs : list V) (k : K) : list V :=
  snd <$> List.filter (fun kv => eqb (fst kv) k) (zip ks vs).

(** [df.groupby(keys)[col].mean()] as (key, mean) pairs. *)
Definition groupby_mean (ks : list K) (vs : list (option Q)) : list (K * option Q) :=
  (fun k => (k, mean (group_values ks vs k))) <$> group_keys ks.
End GroupBy.

(** Ascending order on means, NaN last ([sort_values]).  pandas does not
    promise an order among equal values; the model keeps them in group
    order. *)
Definition mean_leb (x y : option Q) : bool :=
  match x, y with
  | Some p, Some q => Qle_bool p q
  | _, None => true
  | None, Some _ => false
  end.

(* ===================================================================== *)
(** ** The filters of [main]                                              *)
(* ===================================================================== *)

(** The user in front of the page: what is picked in each widget, given
    the options offered. *)
Record user : Type := mkUser {
  multiselect : string -> list scalar -> list scalar;
  selectbox : string -> list string -> string
}.

(** [sorted(df['annee'].unique())] *)
Definition annees_dispo (d : DataFrame) : exc (list scalar) :=
  s ← Pd.getitem d "annee";
  py_sorted (unique scalar_eqb (Pd.values s)).

(** [[tous] + sorted(df[col].dropna().astype(str).unique())] *)
Definition options_dispo (tous col : string) (d : DataFrame) : exc (list string) :=
  s ← Pd.getitem d col;
  Ok (tous :: sort_by String.leb
        (unique String.eqb
           (py_str <$> List.filter (fun x => negb (is_nan x)) (Pd.values s)))).

(** Filtre 1 : Année *)
Definition filtre_annee (choose : list scalar -> list scalar) (d : DataFrame)
  : exc DataFrame :=
  if Pd.has d "annee" then
    dispo ← annees_dispo d;
    let annees_sel := choose dispo in
    match annees_sel with
    | [] => Ok d
    | _ => s ← Pd.getitem d "annee"; Ok (Pd.loc (Pd.isin s annees_sel) d)
    end
  else Ok d.

(** Filtres 2 et 3 : one value of [col], or the sentinel [tous]. *)
Definition filtre_valeur (col tous : string) (choose : list string -> string)
  (d : DataFrame) : exc DataFrame :=
  if Pd.has d col then
    dispo ← options_dispo tous col d;
    let sel := choose dispo in
    if negb (String.eqb sel tous) then
      s ← Pd.getitem d col; Ok (Pd.loc (Pd.eq_str s sel) d)
    else Ok d
  else Ok d.

Definition filtre_mode := filtre_valeur "mode" "Tous".
Definition filtre_thematique := filtre_valeur "thematique" "Toutes".

(** The three filters in sequence, as the user [u] sets them. *)
Definition filtrer (u : user) (d : DataFrame) : exc DataFrame :=
  d ← filtre_annee (multiselect u "Année(s)") d;
  d ← filtre_mode (selectbox u "Mode de transport") d;
  filtre_thematique (selectbox u "Thématique") d.

(** The user who sets the widgets to given criteria. *)
Definition criteres (annees_sel : list scalar) (mode_sel theme_sel : string) : user :=
  mkUser (fun _ _ => annees_sel)
         (fun label _ =>
            if String.eqb label "Mode de transport" then mode_sel else theme_sel).

(* ===================================================================== *)
(** ** The views of [main]                                                *)
(* ===================================================================== *)

(** [df.groupby(col)['valeur_reelle'].mean().reset_index()] *)
Definition moyenne_par (col : string) (d : DataFrame) : exc (list (scalar * option Q)) :=
  key ← Pd.getitem d col;
  valeur ← Pd.getitem d "valeur_reelle";
  vs ← numeric_values valeur;
  Ok (groupby_mean scalar_eqb scalar_leb is_nan (Pd.values key) vs).

(** [.sort_values('valeur_reelle', ascending=True)] *)
Definition tri_croissant (l : list (scalar * option Q)) : list (scalar * option Q) :=
  sort_by (fun a b => mean_leb (snd a) (snd b)) l.

(** Graphique 2 : [df_bar], the 15 lowest mean scores by line. *)
Definition lignes_a_surveiller (d : DataFrame) : exc (list (scalar * option Q)) :=
  df_bar ← moyenne_par "ligne" d;
  Ok (take 15 (tri_croissant df_bar)).

(** Graphique 3 : [df_theme], the mean score by thematique. *)
Definition par_thematique (d : DataFrame) : exc (list (scalar * option Q)) :=
  df_theme ← moyenne_par "thematique" d;
  Ok (tri_croissant df_theme).

Definition pair_eqb (x y : scalar * scalar) : bool :=
  scalar_eqb (fst x) (fst y) && scalar_eqb (snd x) (snd y).

Definition pair_leb (x y : scalar * scalar) : bool :=
  if scalar_eqb (fst x) (fst y) then scalar_leb (snd x) (snd y)
  else scalar_leb (fst x) (fst y).

Definition pair_missing (x : scalar * scalar) : bool :=
  is_nan (fst x) || is_nan (snd x).

Definition labels_map : list (string * string) :=
  [ ("valeur_reelle", "Réel"); ("valeur_objectif", "Objectif") ].

(** Graphique 1 : [df_time_long], the mean score (and objective) by
    period, in long form. *)
Definition evolution (d : DataFrame) : exc (list TimeRow) :=
  let cols_to_agg :=
    "valeur_reelle" :: (if Pd.has d "valeur_objectif" then ["valeur_objectif"] else []) in
  key ← Pd.getitem d "sort_key";
  label ← Pd.getitem d "periode_label";
  let ks := zip (Pd.values key) (Pd.values label) in
  df_time ← mapM (fun col =>
      s ← Pd.getitem d col;
      vs ← numeric_values s;
      Ok (col, sort_by (fun a b => scalar_leb (fst (fst a)) (fst (fst b)))
                 (groupby_mean pair_eqb pair_leb pair_missing ks vs)))
    cols_to_agg;
  Ok (mjoin ((fun cv : string * list (scalar * scalar * option Q) =>
                (fun g : scalar * scalar * option Q =>
                   mkTime (snd (fst g)) (fst (fst g))
                          (default (fst cv)
                             (snd <$> List.find (fun kv => String.eqb (fst kv) (fst cv))
                                                labels_map))
                          (snd g)) <$> snd cv) <$> df_time)).

(* ===================================================================== *)
(** ** [charger_donnees] and [main]                                       *)
(* ===================================================================== *)

Definition charger_donnees : M (option ref) :=
  f ← (fun w => (Ok (disk w), w));
  match f with
  | Introuvable =>
      show (StError "❌ Le fichier 'indicateurs-qualite-service-parcours-voyageur.csv' est introuvable. Assurez-vous qu'il est bien téléversé.");;
      mret None
  | Present latin1 utf8 =>
      match latin1 with
      | Some d => r ← alloc d; mret (Some r)
      | None =>
          match utf8 with
          | Some d => r ← alloc d; mret (Some r)
          | None =>
              show (StError "Erreur critique lors de la lecture du fichier : ");;
              mret None
          end
      end
  end.

Definition sub_float (x y : option Q) : option Q :=
  p ← x; q ← y; Some (Qred (p - q)).

(** D. KPIs *)
Definition kpis (d : DataFrame) : M unit :=
  moyenne_reelle ←
    (if Pd.has d "valeur_reelle" then
       s ← lift (Pd.getitem d "valeur_reelle");
       m ← lift (series_mean s);
       show (StMetric "Taux de Réussite Moyen" m);; mret m
     else mret (Some 0%Q));
  moyenne_objectif ←
    (if Pd.has d "valeur_objectif" then
       s ← lift (Pd.getitem d "valeur_objectif");
       m ← lift (series_mean s);
       show (StMetric "Objectif Contractuel Moyen" m);; mret m
     else mret (Some 0%Q));
  when (Pd.has d "valeur_reelle" && Pd.has d "valeur_objectif")
    (show (StMetric "Écart à l'Objectif" (sub_float moyenne_reelle moyenne_objectif))).

(** E. Visualisations, graphique 1 *)
Definition graphique_temps (d : DataFrame) : M unit :=
  show (StSubheader "📅 Évolution dans le temps");;
  if Pd.has d "periode_label" && Pd.has d "sort_key" then
    df_time_long ← lift (evolution d);
    show (StLineChart "Évolution Moyenne" df_time_long)
  else show (StInfo "Données temporelles insuffisantes.").

(** E. Visualisations, graphique 2 *)
Definition graphique_lignes (d : DataFrame) : M unit :=
  show (StSubheader "⚠️ Lignes à surveiller (Top 15 Flop)");;
  if Pd.has d "ligne" && Pd.has d "valeur_reelle" then
    df_bar ← lift (lignes_a_surveiller d);
    show (StBarChart "Lignes avec les scores les plus bas" df_bar)
  else show (StInfo "Information sur les lignes manquante.").

(** E. Visualisations, graphique 3 *)
Definition graphique_thematique (d : DataFrame) : M unit :=
  when (Pd.has d "thematique" && Pd.has d "valeur_reelle") (
    show (StSubheader "🧩 Performance par Thématique");;
    df_theme ← lift (par_thematique d);
    show (StBarChart "Score moyen par catégorie de service" df_theme)).

Definition main (u : user) : M unit :=
  (* B. Chargement & Nettoyage *)
  df_raw ← charger_donnees;
  match df_raw with
  | None => raise StopExecution
  | Some df_raw =>
      df ← nettoyer_donnees df_raw;
      d ← read df;
      when (Pd.empty d) (
        show (StWarning "⚠️ Le fichier a été chargé mais ne contient aucune donnée exploitable après nettoyage.");;
        raise StopExecution);;
      (* C. Sidebar (Filtres) : each filter builds a new frame *)
      d ← lift (filtrer u d);
      (* D. KPIs *)
      show (StSubheader "📈 Performance Globale");;
      kpis d;;
      (* E. Visualisations *)
      graphique_temps d;;
      graphique_lignes d;;
      graphique_thematique d;;
      (* F. Données Brutes *)
      show (StDataframe d)
  end.

(* ===================================================================== *)
(** ** Cells and rows                                                     *)
(* ===================================================================== *)

(** The cell of column [col] at position [i], when [col] names one column
    and [i] is a row. *)
Definition cell (d : DataFrame) (col : string) (i : nat) : option scalar :=
  match Pd.getitem d col with
  | Ok s => Pd.values s !! i
  | Raise _ => None
  end.

(** Row [i] of [df[mask]] is row [origin mask i] of [df]. *)
Fixpoint origin (m : list bool) (i : nat) : option nat :=
  match m with
  | [] => None
  | true :: m' =>
      match i with
      | O => Some O
      | S i' => S <$> origin m' i'
      end
  | false :: m' => S <$> origin m' i
  end.

(** The index [trim_num] gives a quarter: its entry in
    [mapping_trimestre], 0 for anything else. *)
Definition quarter_index (x : scalar) : Z :=
  match x with
  | SStr t =>
      match List.find (fun kv => String.eqb (fst kv) t) mapping_trimestre with
      | Some kv => snd kv
      | None => 0
      end
  | _ => 0
  end.

(** A year that is known: an int, or a float with an integer value. *)
Definition year_of (x : scalar) : option Z :=
  match x with
  | SInt z => Some z
  | SFloat q => if Qeq_bool q (inject_Z (Qfloor q)) then Some (Qfloor q) else None
  | _ => None
  end.

(** What steps 3 to 5 do to one text cell of a numeric column. *)
Definition coerce_text (x : scalar) : scalar :=
  Num.parse (PyStr.replace "," "." (py_str x)).

(* ===================================================================== *)
(** ** Sample data                                                        *)
(* ===================================================================== *)

Definition table_exemple : DataFrame :=
  mkFrame
    [ (" Annee ", Int64 [2023; 2023; 2024; 2024]);
      ("Trimestre", Object [SStr "T1"; SNaN; SStr "T2"; SStr "T4"]);
      ("RESULTAT_INDICATEURS_EN",
        Object [SStr "98,5"; SStr "abc"; SStr "90"; SStr "91,5"]);
      ("OBJECTIF_REFERENCE_CONTRAT",
        Object [SStr "98"; SStr "98"; SNaN; SStr "98"]);
      ("Ligne", Object [SStr "A"; SStr "B"; SStr "A"; SNaN]);
      ("Mode", Object [SStr "Metro"; SStr "Bus"; SNaN; SStr "Metro"]);
      ("Thematique",
        Object [SStr "Regularite"; SStr "Proprete"; SStr "Regularite"; SNaN]) ].

Definition monde_exemple : world :=
  mkWorld {[ 1%positive := table_exemple ]} [] Introuvable.

(** The same table once normalised. *)
Definition table_nettoyee : DataFrame :=
  mkFrame
    [ ("annee", Int64 [2023; 2024; 2024]);
      ("trimestre", Object [SStr "T1"; SStr "T2"; SStr "T4"]);
      ("valeur_reelle", Float64 [Some (197 # 2); Some 90%Q; Some (183 # 2)]);
      ("valeur_objectif", Float64 [Some 98%Q; None; Some 98%Q]);
      ("ligne", Object [SStr "A"; SStr "A"; SNaN]);
      ("mode", Object [SStr "Metro"; SNaN; SStr "Metro"]);
      ("thematique", Object [SStr "Regularite"; SStr "Regularite"; SNaN]);
      ("periode_label",
        Object [SStr "2023 - T1"; SStr "2024 - T2"; SStr "2024 - T4"]);
      ("sort_key", Float64 [Some 20231%Q; Some 20242%Q; Some 20244%Q]) ].

(** The table behind the reference [nettoyer_donnees] returns, when it
    returns. *)
Definition table_rendue (df : ref) (w : world) : option DataFrame :=
  match nettoyer_donnees df w with
  | (Ok r, w') => heap w' !! r
  | (Raise _, _) => None
  end.

(** A table in which the year of the second row is missing. *)
Definition table_annee_manquante : DataFrame :=
  mkFrame
    [ ("annee", Float64 [Some 2023%Q; None]);
      ("trimestre", Object [SStr "T1"; SStr "T1"]);
      ("valeur_reelle", Float64 [Some 95%Q; Some 90%Q]) ].

Definition monde_annee_manquante : world :=
  mkWorld {[ 1%positive := table_annee_manquante ]} [] Introuvable.

(** The reading of [periode_label] under which a row that lacks its year
    or its quarter has no label. *)
Definition label_missing_when_incomplete (d : DataFrame) : Prop :=
  forall i x y l,
    cell d "annee" i = Some x -> cell d "trimestre" i = Some y ->
    cell d "periode_label" i = Some l ->
    is_nan x || is_nan y = true -> is_nan l = true.

(** The key [k] of a row of year [y] is held exactly by its dtype:
    [y*10 + 4] stays within int64 for an int key, below 2^53 in absolute
    value for a float key. *)
Definition cle_exacte (k : scalar) (y : Z) : Prop :=
  match k with
  | SInt _ => (- 2 ^ 63 <= y * 10 /\ y * 10 + 4 < 2 ^ 63)%Z
  | _ => (Z.abs y * 10 + 4 < 2 ^ 53)%Z
  end.

(** The reading of [sort_key] under which the keys of any two rows whose
    years are known compare as their (year, quarter index) pairs do,
    whatever the years. *)
Definition cles_chronologiques (d : DataFrame) : Prop :=
  forall i j xi xj ti tj ki kj yi yj vi vj,
    cell d "annee" i = Some xi -> cell d "trimestre" i = Some ti ->
    cell d "sort_key" i = Some ki ->
    cell d "annee" j = Some xj -> cell d "trimestre" j = Some tj ->
    cell d "sort_key" j = Some kj ->
    year_of xi = Some yi -> year_of xj = Some yj ->
    Pd.as_float ki = Some vi -> Pd.as_float kj = Some vj ->
    (yi < yj)%Z \/ (yi = yj /\ (quarter_index ti < quarter_index tj)%Z) ->
    (vi < vj)%Q.

(** A table with two years of eighteen digits, which int64 holds, while
    ten times the second year is more than int64 holds. *)
Definition table_annees_lointaines : DataFrame :=
  mkFrame
    [ ("annee", Int64 [922337203685477580; 922337203685477581]);
      ("trimestre", Object [SStr "T1"; SStr "T1"]);
      ("valeur_reelle", Float64 [Some 95%Q; Some 90%Q]) ].

Definition monde_annees_lointaines : world :=
  mkWorld {[ 1%positive := table_annees_lointaines ]} [] Introuvable.

(** Every cell of the column [col], when it is a column, passes [p]. *)
Definition column_all (p : scalar -> bool) (d : DataFrame) (col : string) : Prop :=
  forall s, Pd.getitem d col = Ok s -> Forall (fun x => p x = true) (Pd.values s).

(** [d'] is [d] or a selection of rows of [d]. *)
Definition selection (d d' : DataFrame) : Prop :=
  d' = d \/ exists m, d' = Pd.loc m d.

(** No two entries of [l] are equal under [eqb]. *)
Fixpoint distinct_by {A} (eqb : A -> A -> bool) (l : list A) : Prop :=
  match l with
  | [] => True
  | x :: l' => Forall (fun y => eqb x y = false) l' /\ distinct_by eqb l'
  end.

(** The widgets as the page first shows them: every year selected, the
    first option ("Tous", "Toutes") in each select box. *)
Definition utilisateur_defaut : user :=
  mkUser (fun _ options => options)
         (fun _ options => match options with o :: _ => o | [] => "" end).

(** A source file without the [thematique] column. *)
Definition table_sans_thematique : DataFrame :=
  mkFrame
    [ ("annee", Int64 [2023; 2023]);
      ("trimestre", Object [SStr "T1"; SStr "T2"]);
      ("resultat_indicateurs_en", Object [SStr "95,0"; SStr "90,0"]);
      ("ligne", Object [SStr "A"; SStr "A"]) ].

Definition monde_sans_thematique : world :=
  mkWorld ∅ [] (Present (Some table_sans_thematique) None).

(** A source file without the [ligne] column. *)
Definition table_sans_ligne : DataFrame :=
  mkFrame
    [ ("annee", Int64 [2023; 2023]);
      ("trimestre", Object [SStr "T1"; SStr "T2"]);
      ("resultat_indicateurs_en", Object [SStr "95,0"; SStr "90,0"]);
      ("thematique", Object [SStr "Regularite"; SStr "Regularite"]) ].

Definition monde_sans_ligne : world :=
  mkWorld ∅ [] (Present (Some table_sans_ligne) None).

(** A source file without the measured value. *)
Definition table_sans_valeur : DataFrame :=
  mkFrame
    [ ("annee", Int64 [2023; 2023]);
      ("trimestre", Object [SStr "T1"; SStr "T2"]);
      ("ligne", Object [SStr "A"; SStr "A"]);
      ("thematique", Object [SStr "Regularite"; SStr "Regularite"]) ].

Definition monde_sans_valeur : world :=
  mkWorld ∅ [] (Present (Some table_sans_valeur) None).

Definition is_info (e : element) : bool :=
  match e with StInfo _ => true | _ => false end.

Definition present (o : option Q) : bool :=
  match o with Some _ => true | None => false end.

(** A table as [nettoyer_donnees] leaves it: rectangular, and with a value
    in every cell of a numeric [valeur_reelle] column when there is one. *)
Definition normalisee (d : DataFrame) : bool :=
  Pd.rectangular d &&
  match Pd.getitem d "valeur_reelle" with
  | Ok v =>
      match numeric_values v with
      | Ok vs => forallb present vs
      | Raise _ => false
      end
  | Raise _ => true
  end.

(** Every column of [d] has [n] cells. *)
Definition all_size (n : nat) (d : DataFrame) : Prop :=
  Forall (fun c : string * Series => Pd.size (snd c) = n) (cols d).

(** A year column that holds text. *)
Definition table_annee_texte : DataFrame :=
  mkFrame
    [ ("annee", Object [SStr "2023"; SStr "20x3"]);
      ("trimestre", Object [SStr "T1"; SStr "T2"]);
      ("valeur_reelle", Float64 [Some 95%Q; Some 90%Q]) ].

(* ===================================================================== *)
(** ** Definitions for the further properties                            *)
(* ===================================================================== *)

Local Open Scope nat_scope.

(** What [main] does once the file is read and cleaned. *)
Definition suite (u : user) (d : DataFrame) : M unit :=
  when (Pd.empty d) (
    show (StWarning "⚠️ Le fichier a été chargé mais ne contient aucune donnée exploitable après nettoyage.");;
    raise StopExecution);;
  d ← lift (filtrer u d);
  show (StSubheader "📈 Performance Globale");;
  kpis d;;
  graphique_temps d;;
  graphique_lignes d;;
  graphique_thematique d;;
  show (StDataframe d).

(** What steps 1 and 2 make of one header. *)
Definition renommer (c : string) : string :=
  match List.find (fun kv => String.eqb (fst kv) c) rename_map with
  | Some kv => snd kv
  | None => c
  end.

Definition nom_final (c : string) : string :=
  renommer (PyStr.lower (PyStr.strip c)).

(** The labels step 4 appends to the frame [d]. *)
Definition colonnes_derivees (d : DataFrame) : list string :=
  if Pd.has d "annee" && Pd.has d "trimestre" then
    ((if Pd.has d "periode_label" then [] else ["periode_label"])
     ++ (if Pd.has d "sort_key" then [] else ["sort_key"]))%list
  else [].

(** A header in normal form: lower case, no white space around it. *)
Definition entete_normale (c : string) : Prop :=
  PyStr.lower c = c /\ PyStr.strip c = c.

(** [m] returns, and all it does is append elements to the page. *)
Definition ecrit {A} (m : M A) : Prop :=
  forall w, exists a els,
    m w = (Ok a, mkWorld (heap w) (page w ++ els) (disk w)).

(** The same, [e] being the last of the elements listed. *)
Definition ecrit_enfin {A} (e : element) (m : M A) : Prop :=
  forall w, exists a els,
    m w = (Ok a, mkWorld (heap w) (page w ++ els ++ [e]) (disk w)).

(** No label is carried by two columns, the measured value is there when
    the temporal view needs it, the numeric columns hold no text and the
    year column neither. *)
Definition exploitable (d : DataFrame) : Prop :=
  NoDup (Pd.columns d) /\
  (Pd.has d "periode_label" && Pd.has d "sort_key" = true ->
   Pd.has d "valeur_reelle" = true) /\
  (forall s, Pd.getitem d "valeur_reelle" = Ok s -> Pd.dtype_is_object s = false) /\
  (forall s, Pd.getitem d "valeur_objectif" = Ok s -> Pd.dtype_is_object s = false) /\
  (forall s, Pd.getitem d "annee" = Ok s -> existsb is_str (Pd.values s) = false).

(** [d'] holds rows of [d], in their order: row [i] of [d'] is row [f i]
    of [d]. *)
Definition extrait (f : nat -> option nat) (d d' : DataFrame) : Prop :=
  (forall c i, cell d' c i = f i ≫= cell d c) /\
  (forall i1 i2 j1 j2, i1 < i2 -> f i1 = Some j1 -> f i2 = Some j2 -> j1 < j2).

(** A user who picks in each widget among the options it offers. *)
Definition choisit_parmi (u : user) : Prop :=
  (forall label options x, x ∈ multiselect u label options -> x ∈ options) /\
  (forall label options, options <> [] -> selectbox u label options ∈ options).

(** The rows of [df_time] for one aggregated column, for the proofs. *)
Definition points (ks : list (scalar * scalar)) (vs : list (option Q))
  : list (scalar * scalar * option Q) :=
  sort_by (fun a b => scalar_leb (fst (fst a)) (fst (fst b)))
          (groupby_mean pair_eqb pair_leb pair_missing ks vs).

Definition ligne_temps (type : string) (g : scalar * scalar * option Q) : TimeRow :=
  mkTime (snd (fst g)) (fst (fst g)) type (snd g).

(** The points of one curve of the line chart. *)
Definition serie (type : string) (rows : list TimeRow) : list TimeRow :=
  List.filter (fun r => String.eqb (Type_ r) type) rows.

(** What steps 3 makes of a cell of the column [s]. *)
Definition valeur_lue (s : Series) (x : scalar) : scalar :=
  if Pd.dtype_is_object s then coerce_text x else x.

(** [df_theme['valeur_reelle'].min()] : the least of the means that are
    present, NaN when there is none. *)
Definition min_val (df_theme : list (scalar * option Q)) : option Q :=
  match omap snd df_theme with
  | [] => None
  | m :: ms => Some (fold_left (fun p q => if Qle_bool p q then p else q) ms m)
  end.

(** Python's [max(0, x)] : [x] when [x > 0] holds, 0 otherwise (so 0 for
    NaN). *)
Definition py_max0 (x : option Q) : Q :=
  match x with
  | Some q => if Qle_bool q 0 then 0%Q else q
  | None => 0%Q
  end.

(** [yaxis_range=[max(0, min_val - 5), 105]] *)
Definition yaxis_range (df_theme : list (scalar * option Q)) : Q * Q :=
  (py_max0 (sub_float (min_val df_theme) (Some 5%Q)), 105%Q).

Definition table_illisible : DataFrame :=
  mkFrame
    [ ("annee", Int64 [2023; 2023]%Z);
      ("trimestre", Object [SStr "T1"; SStr "T2"]);
      ("resultat_indicateurs_en", Object [SStr "n.d."; SNaN]) ].

Definition monde_illisible : world :=
  mkWorld ∅ [] (Present None (Some table_illisible)).

Definition table_mode_code : DataFrame :=
  mkFrame
    [ ("mode", Int64 [1; 2; 1]%Z);
      ("valeur_reelle", Float64 [Some 95%Q; Some 90%Q; Some 85%Q]) ].

Definition courbe_nettoyee : list TimeRow :=
  [ mkTime (SStr "2023 - T1") (SFloat 20231) "Réel" (Some (197 # 2));
    mkTime (SStr "2024 - T2") (SFloat 20242) "Réel" (Some 90%Q);
    mkTime (SStr "2024 - T4") (SFloat 20244) "Réel" (Some (183 # 2));
    mkTime (SStr "2023 - T1") (SFloat 20231) "Objectif" (Some 98%Q);
    mkTime (SStr "2024 - T2") (SFloat 20242) "Objectif" None;
    mkTime (SStr "2024 - T4") (SFloat 20244) "Objectif" (Some 98%Q) ].

(** The years selected are years of the table, NaN apart: what the user
    can pick in the widget, but for NaN. *)
Definition annees_de (sel : list scalar) (d : DataFrame) : Prop :=
  forall s x, Pd.getitem d "annee" = Ok s -> x ∈ sel ->
    x ∈ Pd.values s /\ is_nan x = false.

(** Row [j] of [d] passes the year filter set to [sel]: its year is
    present and is one of [sel]. *)
Definition critere_annee (sel : list scalar) (d : DataFrame) (j : nat) : Prop :=
  sel <> [] -> Pd.has d "annee" = true ->
  exists x, cell d "annee" j = Some x /\ is_nan x = false /\
            existsb (scalar_eqb x) sel = true.

(** Row [j] of [d] passes the filter on [col] set to [v]. *)
Definition critere_valeur (col tous v : string) (d : DataFrame) (j : nat) : Prop :=
  v <> tous -> Pd.has d col = true -> cell d col j = Some (SStr v).

(** [d'] is [d] restricted, through [f], to the rows that pass [crit]. *)
Definition garde (crit : DataFrame -> nat -> Prop) (f : nat -> option nat)
    (d d' : DataFrame) : Prop :=
  extrait f d d' /\
  Pd.columns d' = Pd.columns d /\
  Pd.rectangular d' = true /\
  (forall i, is_Some (f i) <-> i < Pd.nrows d') /\
  (forall i j, f i = Some j -> j < Pd.nrows d) /\
  (forall j, j < Pd.nrows d -> ((exists i, f i = Some j) <-> crit d j)).



(** A user who picks the last option of every widget. *)
Definition utilisateur_dernier : user :=
  mkUser (fun _ options => match last options with Some x => [x] | None => [] end)
         (fun _ options => default "" (last options)).

(** The cells of [s] that hold a number hold one between [-B] and [B], and
    [B] times the length of the column is at most 2^53: no cell is an
    infinity, and float64 holds exactly the bounds of every sum of
    cells. *)
Definition valeurs_finies (B : Z) (s : Series) : Prop :=
  (forall x q, x ∈ Pd.values s -> Pd.as_float x = Some q ->
     (inject_Z (- B) <= q /\ q <= inject_Z B)%Q) /\
  (Z.of_nat (Pd.size s) * B <= 2 ^ 53)%Z.

(** The cells of [s] that hold a number hold a whole number between [a]
    and [b], and the column is short enough for float64 to add them
    exactly (every partial sum stays below 2^53 in absolute value). *)
Definition entiers_entre (a b : Z) (s : Series) : Prop :=
  (forall x q, x ∈ Pd.values s -> Pd.as_float x = Some q ->
     exists z, (q == inject_Z z)%Q /\ (a <= z <= b)%Z) /\
  (Z.of_nat (Pd.size s) * Z.max (Z.abs a) (Z.abs b) <= 2 ^ 53)%Z.

(** A cleaned table whose measured values are whole numbers. *)
Definition table_entiere : DataFrame :=
  mkFrame
    [ ("ligne", Object [SStr "A"; SStr "B"; SStr "A"]);
      ("thematique", Object [SStr "Regularite"; SStr "Proprete"; SStr "Regularite"]);
      ("valeur_reelle", Float64 [Some 95%Q; Some 90%Q; Some 85%Q]);
      ("valeur_objectif", Float64 [Some 98%Q; None; Some 98%Q]) ].

(* ===================================================================== *)
(** * Properties                                                          *)
(* ===================================================================== *)

Local Open Scope nat_scope.

(** ** Text and numbers: sample evaluations *)

Example parse_comma_free : Num.parse "98.5" = SFloat (197 # 2).
Proof. reflexivity. Qed.
Example parse_int : Num.parse " -42 " = SInt (-42)%Z.
Proof. reflexivity. Qed.
Example parse_exp : Num.parse "1.5e2" = SFloat 150.
Proof. reflexivity. Qed.
Example parse_bad : Num.parse "98,5" = SNaN.
Proof. reflexivity. Qed.
Example parse_bad_exp : Num.parse "1e" = SNaN.
Proof. reflexivity. Qed.
Example str_float_year : py_str (SFloat 2023) = "2023.0".
Proof. reflexivity. Qed.
Example str_float_frac : py_str (SFloat (197 # 2)) = "98.5".
Proof. reflexivity. Qed.
Example str_int_neg : py_str (SInt (-7)) = "-7".
Proof. reflexivity. Qed.


(** ** Running in-place code on one object *)

Section Runs.
Variable r : ref.

Lemma heap_set_obj d w : heap (set_obj r d w) !! r = Some d.
Proof. apply lookup_insert_eq. Qed.

Lemma set_obj_twice d1 d2 w : set_obj r d2 (set_obj r d1 w) = set_obj r d2 w.
Proof. unfold set_obj; simpl. by rewrite insert_insert_eq. Qed.

Lemma set_obj_same d w : heap w !! r = Some d -> set_obj r d w = w.
Proof.
  intros H. destruct w as [h p f]; unfold set_obj; simpl in *.
  by rewrite insert_id.
Qed.

Lemma runs_ret {A} (a : A) : runs r (mret a) (fun d => Ok (a, d)).
Proof. intros w d H; simpl. unfold mret, M_ret. by rewrite set_obj_same. Qed.

Lemma runs_bind {A B} (m : M A) (k : A -> M B) f g :
  runs r m f -> (forall a, runs r (k a) (g a)) ->
  runs r (m ≫= k) (fun d => f d ≫= fun ad => g (fst ad) (snd ad)).
Proof.
  intros Hm Hk w d Hd. specialize (Hm w d Hd).
  unfold mbind at 2, M_bind. unfold mbind, exc_bind.
  destruct (f d) as [[a d1]|e]; simpl.
  - rewrite Hm. specialize (Hk a (set_obj r d1 w) d1 (heap_set_obj _ _)).
    destruct (g a d1) as [[b d2]|e]; [|done].
    by rewrite Hk, set_obj_twice.
  - destruct (m w) as [[a|e'] w']; simpl in *; congruence.
Qed.

Lemma runs_read : runs r (read r) (fun d => Ok (d, d)).
Proof. intros w d H; simpl. unfold read. by rewrite H, set_obj_same. Qed.

Lemma runs_modify h : runs r (modify r h) (fun d => Ok (tt, h d)).
Proof. intros w d H; simpl. unfold modify. by rewrite H. Qed.

Lemma runs_lift {A} (m : exc A) : runs r (lift m) (fun d => m ≫= fun a => Ok (a, d)).
Proof.
  intros w d H. unfold lift, mbind, exc_bind.
  destruct m; [|done]. by rewrite set_obj_same.
Qed.

Lemma runs_getitem col :
  runs r (getitem r col) (fun d => Pd.getitem d col ≫= fun s => Ok (s, d)).
Proof.
  intros w d H. unfold getitem.
  pose proof (runs_bind _ _ _ _ runs_read (fun d0 => runs_lift (Pd.getitem d0 col)) w d H) as R.
  simpl in R. exact R.
Qed.

Lemma runs_setitem col s :
  runs r (setitem r col s) (fun d => Ok (tt, Pd.setitem col s d)).
Proof. apply runs_modify. Qed.

Lemma runs_when b m f :
  runs r m f -> runs r (when b m) (fun d => if b then f d else Ok (tt, d)).
Proof. intros Hm. destruct b; [exact Hm | apply (runs_ret tt)]. Qed.

Lemma runs_ext {A} (m : M A) f g :
  (forall d, f d = g d) -> runs r m f -> runs r m g.
Proof. intros E Hm w d H. rewrite <- E. by apply Hm. Qed.

End Runs.

(** ** Reading a column after an assignment *)

Section GetSet.
Variables (col : string) (s : Series).

Let put (c : string * Series) : string * Series :=
  if String.eqb (fst c) col then (fst c, s) else c.

Lemma put_label c : fst (put c) = fst c.
Proof. unfold put. by destruct (String.eqb (fst c) col). Qed.

Lemma filter_put col' (l : list (string * Series)) :
  List.filter (fun c => String.eqb (fst c) col') (put <$> l) =
  put <$> List.filter (fun c => String.eqb (fst c) col') l.
Proof.
  induction l as [|c l IH]; [done|]. cbn [fmap list_fmap List.filter].
  rewrite put_label. destruct (String.eqb (fst c) col'); cbn [fmap list_fmap];
    by rewrite IH.
Qed.

Lemma has_getitem d s0 : Pd.getitem d col = Ok s0 -> Pd.has d col = true.
Proof.
  unfold Pd.getitem, Pd.has, Pd.columns. destruct d as [l]; cbn [cols].
  induction l as [|c l IH]; [done|]. cbn [List.filter fmap list_fmap existsb].
  rewrite (String.eqb_sym col). destruct (String.eqb (fst c) col); [done|].
  intros H. by rewrite IH.
Qed.

Lemma getitem_setitem_eq d s0 :
  Pd.getitem d col = Ok s0 -> Pd.getitem (Pd.setitem col s d) col = Ok s.
Proof.
  intros H. unfold Pd.setitem. rewrite (has_getitem _ _ H).
  revert H. unfold Pd.getitem. cbn [cols]. fold put. rewrite filter_put.
  destruct (List.filter _ (cols d)) as [|c [|c' l]] eqn:E; try done.
  intros _. cbn [fmap list_fmap]. unfold put.
  assert (String.eqb (fst c) col = true) as ->; [|done].
  assert (In c (List.filter (fun c => String.eqb (fst c) col) (cols d))) as Hin
    by (rewrite E; by left).
  by apply filter_In in Hin as [_ ?].
Qed.

Lemma getitem_setitem_ne d col' :
  col' <> col -> Pd.getitem (Pd.setitem col s d) col' = Pd.getitem d col'.
Proof.
  intros Hne. unfold Pd.setitem, Pd.getitem.
  destruct (Pd.has d col); cbn [cols].
  - fold put. rewrite filter_put.
    destruct (List.filter _ (cols d)) as [|c [|c' l]] eqn:E; try done.
    cbn [fmap list_fmap]. unfold put.
    assert (String.eqb (fst c) col = false) as ->; [|done].
    assert (In c (List.filter (fun c => String.eqb (fst c) col') (cols d))) as Hin
      by (rewrite E; by left).
    apply filter_In in Hin as [_ Hc]. apply String.eqb_eq in Hc.
    apply String.eqb_neq. congruence.
  - rewrite List.filter_app. cbn [List.filter fst].
    apply String.eqb_neq in Hne. rewrite (String.eqb_sym col), Hne.
    by rewrite app_nil_r.
Qed.

Lemma has_setitem d col' :
  Pd.has (Pd.setitem col s d) col' = Pd.has d col' || String.eqb col' col.
Proof.
  unfold Pd.setitem. destruct (Pd.has d col) eqn:Hh.
  - unfold Pd.has, Pd.columns in *. cbn [cols]. fold put.
    rewrite <- list_fmap_compose.
    rewrite (list_fmap_ext (fst ∘ put) fst (cols d)).
    + destruct (String.eqb col' col) eqn:E; [|by rewrite orb_false_r].
      apply String.eqb_eq in E as ->. by rewrite Hh.
    + intros i x _. apply put_label.
  - unfold Pd.has, Pd.columns. cbn [cols]. rewrite fmap_app, existsb_app.
    cbn [fmap list_fmap existsb fst]. by rewrite orb_false_r.
Qed.

End GetSet.

Lemma setitem_setitem col s1 s2 d :
  Pd.has d col = true ->
  Pd.setitem col s2 (Pd.setitem col s1 d) = Pd.setitem col s2 d.
Proof.
  intros H. unfold Pd.setitem at 1. rewrite has_setitem, H. cbn [orb].
  unfold Pd.setitem. rewrite H. cbn [cols]. f_equal.
  rewrite <- list_fmap_compose. apply list_fmap_ext. intros _ [l s] _; simpl.
  destruct (String.eqb l col) eqn:E; simpl; by rewrite E.
Qed.

(** ** [nettoyer_donnees] leaves [nettoyer] of its argument *)

Ltac run_step :=
  lazymatch goal with
  | |- runs _ (mbind _ _) _ => eapply runs_bind; [|intros ?]
  | |- runs _ (mret _) _ => apply runs_ret
  | |- runs _ (read _) _ => apply runs_read
  | |- runs _ (modify _ _) _ => apply runs_modify
  | |- runs _ (lift _) _ => apply runs_lift
  | |- runs _ (getitem _ _) _ => apply runs_getitem
  | |- runs _ (setitem _ _ _) _ => apply runs_setitem
  | |- runs _ (when _ _) _ => eapply runs_when
  end.

Ltac is_call m :=
  lazymatch m with
  | Ok _ => fail
  | Raise _ => fail
  | mbind _ _ => fail
  | fmap _ _ => fail
  | (if _ then _ else _) => fail
  | _ => idtac
  end.

Ltac exc_case :=
  match goal with
  | |- context [Pd.getitem (Pd.setitem ?c _ _) ?c] =>
      erewrite getitem_setitem_eq by eassumption
  | |- context [Pd.getitem (Pd.setitem _ _ _) _] =>
      rewrite getitem_setitem_ne by discriminate
  | H : ?m = _ |- context [mbind _ ?m] => rewrite H
  | H : ?m = _ |- context [fmap _ ?m] => rewrite H
  | |- context [if ?b then _ else _] => destruct b eqn:?
  | |- context [mbind _ ?m] => is_call m; destruct m eqn:?
  | |- context [fmap _ ?m] => is_call m; destruct m eqn:?
  end.

Ltac exc_cases :=
  repeat (cbn [mbind exc_bind fmap exc_fmap fst snd]; exc_case);
  cbn [mbind exc_bind fmap exc_fmap fst snd]; try reflexivity.

(** A block of statements that behaves as the step [g]. *)
Ltac block g :=
  eapply (runs_ext _ _ _ (fun d => g d ≫= fun d' => Ok (tt, d')));
  [ intros ? | repeat run_step ].

Lemma nettoyer_donnees_runs r :
  runs r (nettoyer_donnees r) (fun d => nettoyer d ≫= fun d' => Ok (r, d')).
Proof.
  eapply runs_ext; cycle 1.
  { unfold nettoyer_donnees, cols_numeriques, for_.
    eapply runs_bind; [apply runs_modify | intros ?].
    eapply runs_bind; [apply runs_read | intros d1].
    eapply runs_bind; [apply runs_modify | intros ?].
    eapply runs_bind; [|intros ?].
    { eapply runs_bind; [|intros ?].
      { block (etape_numerique "valeur_reelle").
        unfold etape_numerique, coercion. exc_cases.
        by rewrite setitem_setitem. }
      eapply runs_bind; [|intros ?; apply runs_ret].
      block (etape_numerique "valeur_objectif").
      unfold etape_numerique, coercion. exc_cases.
      by rewrite setitem_setitem. }
    eapply runs_bind; [apply runs_read | intros d4].
    eapply runs_bind; [eapply runs_when|intros ?].
    { block (fun d =>
        annee ← Pd.getitem d "annee";
        trimestre ← Pd.getitem d "trimestre";
        label ← concat_periode annee trimestre;
        key ← Pd.add (Pd.mul annee 10) (trim_num trimestre);
        Ok (Pd.setitem "sort_key" key (Pd.setitem "periode_label" label d))).
      unfold trim_num. exc_cases. }
    eapply runs_bind; [apply runs_read | intros d5].
    eapply runs_bind; [eapply runs_when|intros ?; apply runs_ret].
    block (Pd.dropna "valeur_reelle"). exc_cases. }
  intros d. unfold nettoyer, avant_dropna, etape_renommage, etape_entetes.
  unfold etape_periode, etape_dropna. exc_cases.
Qed.

Theorem nettoyer_donnees_ok r w d d' :
  heap w !! r = Some d -> nettoyer d = Ok d' ->
  nettoyer_donnees r w = (Ok r, set_obj r d' w).
Proof.
  intros Hd Hn. pose proof (nettoyer_donnees_runs r w d Hd) as R.
  cbv beta in R. by rewrite Hn in R.
Qed.

Theorem nettoyer_donnees_inv r w d r' w' :
  heap w !! r = Some d -> nettoyer_donnees r w = (Ok r', w') ->
  exists d', nettoyer d = Ok d' /\ r' = r /\ w' = set_obj r d' w.
Proof.
  intros Hd Hn. pose proof (nettoyer_donnees_runs r w d Hd) as R.
  cbv beta in R. destruct (nettoyer d) as [d'|e]; simpl in R.
  - exists d'. rewrite Hn in R. by inversion R.
  - by rewrite Hn in R.
Qed.

(** ** Row selection *)

Lemma mask_filter_fmap {A B} (f : A -> B) m (l : list A) :
  mask_filter m (f <$> l) = f <$> mask_filter m l.
Proof.
  revert l; induction m as [|b m IH]; intros [|x l]; simpl; try done.
  destruct b; simpl; by rewrite IH.
Qed.

Lemma mask_filter_self {A} (p : A -> bool) (l : list A) :
  Forall (fun x => p x = true) (mask_filter (p <$> l) l).
Proof.
  induction l as [|x l IH]; simpl; [constructor|].
  destruct (p x) eqn:E; [by constructor | done].
Qed.

Lemma mask_filter_all {A} m (l : list A) :
  Forall (fun b => b = true) m -> length l <= length m ->
  mask_filter m l = l.
Proof.
  intros H; revert l; induction H as [|b m -> _ IH]; intros [|x l] Hl;
    simpl in *; try done; try lia.
  f_equal. apply IH. lia.
Qed.

Lemma values_take m s : Pd.values (Pd.take m s) = mask_filter m (Pd.values s).
Proof. destruct s; simpl; by rewrite ?mask_filter_fmap. Qed.

Lemma filter_label_fmap (f : Series -> Series) col (l : list (string * Series)) :
  List.filter (fun c => String.eqb (fst c) col)
              ((fun c : string * Series => (fst c, f (snd c))) <$> l) =
  (fun c : string * Series => (fst c, f (snd c))) <$>
    List.filter (fun c => String.eqb (fst c) col) l.
Proof.
  induction l as [|c l IH]; [done|]. cbn [fmap list_fmap List.filter fst].
  destruct (String.eqb (fst c) col); cbn [fmap list_fmap]; by rewrite IH.
Qed.

Lemma getitem_loc m d col :
  Pd.getitem (Pd.loc m d) col = Pd.take m <$> Pd.getitem d col.
Proof.
  unfold Pd.getitem, Pd.loc. cbn [cols]. rewrite filter_label_fmap.
  by destruct (List.filter _ (cols d)) as [|c [|c' l]].
Qed.

Lemma columns_loc m d : Pd.columns (Pd.loc m d) = Pd.columns d.
Proof.
  unfold Pd.columns, Pd.loc. cbn [cols]. rewrite <- list_fmap_compose.
  by apply list_fmap_ext.
Qed.

Lemma has_loc m d col : Pd.has (Pd.loc m d) col = Pd.has d col.
Proof. unfold Pd.has. by rewrite columns_loc. Qed.

Lemma notna_take s :
  Forall (fun x => is_nan x = false) (Pd.values (Pd.take (Pd.notna s) s)).
Proof.
  rewrite values_take. unfold Pd.notna.
  eapply Forall_impl; [apply (mask_filter_self (fun x => negb (is_nan x)))|].
  intros x; simpl. by destruct (is_nan x).
Qed.

(** What step 5 leaves, in terms of the table before it. *)
Lemma nettoyer_dropna d d' :
  nettoyer d = Ok d' ->
  exists d0, avant_dropna d = Ok d0 /\
    if Pd.has d0 "valeur_reelle"
    then exists s0, Pd.getitem d0 "valeur_reelle" = Ok s0 /\
                    d' = Pd.loc (Pd.notna s0) d0
    else d' = d0.
Proof.
  unfold nettoyer. destruct (avant_dropna d) as [d0|e]; [|done].
  cbn [mbind exc_bind]. intros H. exists d0. split; [done|].
  unfold etape_dropna, Pd.dropna in H.
  destruct (Pd.has d0 "valeur_reelle"); [|congruence].
  destruct (Pd.getitem d0 "valeur_reelle") as [s0|e]; [|done].
  exists s0. cbn [mbind exc_bind] in H. split; congruence.
Qed.

(** ** C1 *)

(** C1. In the table [nettoyer_donnees] returns, when there is a
    [valeur_reelle] column, every cell of it holds a value: the table is
    the coerced table from which exactly the rows whose [valeur_reelle] is
    missing have been taken out. *)
Theorem C1_valeur_reelle_presente r w d r' w' :
  heap w !! r = Some d ->
  nettoyer_donnees r w = (Ok r', w') ->
  exists d', heap w' !! r' = Some d' /\
    (Pd.has d' "valeur_reelle" = true ->
     exists s d0 s0,
       Pd.getitem d' "valeur_reelle" = Ok s /\
       Forall (fun x => is_nan x = false) (Pd.values s) /\
       avant_dropna d = Ok d0 /\
       Pd.getitem d0 "valeur_reelle" = Ok s0 /\
       d' = Pd.loc (Pd.notna s0) d0).
Proof.
  intros Hd Hrun.
  destruct (nettoyer_donnees_inv _ _ _ _ _ Hd Hrun) as (d' & Hn & -> & ->).
  exists d'. split; [apply heap_set_obj|]. intros Hhas.
  destruct (nettoyer_dropna _ _ Hn) as (d0 & H0 & Hcase).
  destruct (Pd.has d0 "valeur_reelle") eqn:Hh0.
  - destruct Hcase as (s0 & Hs0 & ->).
    exists (Pd.take (Pd.notna s0) s0), d0, s0. repeat split; try done.
    + by rewrite getitem_loc, Hs0.
    + apply notna_take.
  - subst d'. congruence.
Qed.

Example nettoyer_exemple : nettoyer table_exemple = Ok table_nettoyee.
Proof. reflexivity. Qed.

Example nettoyer_donnees_exemple :
  nettoyer_donnees 1%positive monde_exemple
  = (Ok 1%positive, set_obj 1%positive table_nettoyee monde_exemple).
Proof. vm_compute. reflexivity. Qed.

Lemma C1_witness :
  exists d', heap (snd (nettoyer_donnees 1%positive monde_exemple)) !! 1%positive = Some d' /\
    (Pd.has d' "valeur_reelle" = true ->
     exists s d0 s0,
       Pd.getitem d' "valeur_reelle" = Ok s /\
       Forall (fun x => is_nan x = false) (Pd.values s) /\
       avant_dropna table_exemple = Ok d0 /\
       Pd.getitem d0 "valeur_reelle" = Ok s0 /\
       d' = Pd.loc (Pd.notna s0) d0).
Proof.
  apply (C1_valeur_reelle_presente 1%positive monde_exemple table_exemple 1%positive).
  - reflexivity.
  - vm_compute. reflexivity.
Defined.

(** ** Cell-wise operations *)

Lemma mapM_exc_ok {A B} (f : A -> exc B) (g : A -> B) (l : list A) :
  (forall x, x ∈ l -> f x = Ok (g x)) -> mapM f l = Ok (g <$> l).
Proof.
  induction l as [|x l IH]; intros H; [done|].
  cbn [mapM fmap list_fmap]. rewrite (H x) by left.
  cbn [mbind exc_bind]. rewrite IH; [done|].
  intros y Hy. apply H. by right.
Qed.

Lemma mapM_exc_lookup {A B} (f : A -> exc B) (l : list A) l' i x :
  mapM f l = Ok l' -> l !! i = Some x ->
  exists y, l' !! i = Some y /\ f x = Ok y.
Proof.
  revert l' i; induction l as [|a l IH]; intros l' i; [done|].
  cbn [mapM]. destruct (f a) as [b|e] eqn:Ea; [|done].
  cbn [mbind exc_bind]. destruct (mapM f l) as [k|e]; [|done].
  cbn [mbind exc_bind mret exc_ret]. intros [= <-].
  destruct i as [|i]; simpl.
  - intros [= <-]. eauto.
  - intros Hi. by apply IH.
Qed.

Lemma mapM_exc_length {A B} (f : A -> exc B) (l : list A) l' :
  mapM f l = Ok l' -> length l' = length l.
Proof.
  revert l'; induction l as [|a l IH]; intros l'; cbn [mapM].
  - by intros [= <-].
  - destruct (f a) as [b|e]; [|done]. cbn [mbind exc_bind].
    destruct (mapM f l) as [k|e]; [|done].
    cbn [mbind exc_bind mret exc_ret]. intros [= <-]. simpl. by rewrite (IH k).
Qed.

Lemma as_float_of_float o : Pd.as_float (of_float o) = o.
Proof. by destruct o. Qed.

Lemma mapM_as_int xs zs : mapM Pd.as_int xs = Some zs -> xs = SInt <$> zs.
Proof.
  revert zs; induction xs as [|x xs IH]; intros zs; cbn [mapM].
  - by intros [= <-].
  - destruct x; try done. cbn. destruct (mapM Pd.as_int xs) as [k|]; [|done].
    cbn. intros [= <-]. cbn. by rewrite (IH k).
Qed.

(** The cells of [numeric_of xs] are the numbers of [xs]; what is not a
    number is missing. *)
Lemma numeric_of_values xs :
  Pd.as_float <$> Pd.values (Pd.numeric_of xs) = Pd.as_float <$> xs.
Proof.
  unfold Pd.numeric_of. destruct (mapM Pd.as_int xs) as [zs|] eqn:E.
  - apply mapM_as_int in E as ->. done.
  - cbn [Pd.values]. rewrite <- !list_fmap_compose.
    apply list_fmap_ext. intros i x _. apply as_float_of_float.
Qed.

Lemma numeric_of_size xs : Pd.size (Pd.numeric_of xs) = length xs.
Proof.
  unfold Pd.size.
  rewrite <- (length_fmap Pd.as_float), numeric_of_values. apply length_fmap.
Qed.

Lemma coercion_object xs :
  coercion (Object xs) = Ok (Pd.numeric_of (coerce_text <$> xs)).
Proof.
  unfold coercion, Pd.astype_str, Pd.str_replace, Pd.to_numeric.
  cbn [Pd.dtype_is_object Pd.values fmap exc_fmap]. do 2 f_equal.
  rewrite <- !list_fmap_compose. by apply list_fmap_ext.
Qed.

Lemma coercion_total s : exists s', coercion s = Ok s'.
Proof.
  destruct s; [by eexists | by eexists |]. rewrite coercion_object. by eexists.
Qed.

(** ** Rows before and after a selection *)

Lemma lookup_mask_filter {A} m (l : list A) i :
  mask_filter m l !! i = origin m i ≫= (l !!.).
Proof.
  revert l i; induction m as [|b m IH]; intros l i; [by destruct l|].
  destruct l as [|x l].
  - simpl. destruct b; [destruct i|]; simpl; try done;
      by destruct (origin m _).
  - destruct b; simpl.
    + destruct i as [|i]; simpl; [done|]. rewrite IH.
      by destruct (origin m i).
    + rewrite IH. by destruct (origin m i).
Qed.

Lemma origin_true m i j : origin m i = Some j -> m !! j = Some true.
Proof.
  revert i j; induction m as [|b m IH]; intros i j; [done|].
  destruct b; simpl.
  - destruct i as [|i]; [by intros [= <-]|].
    destruct (origin m i) as [k|] eqn:E; [|done]. intros [= <-]. by eapply IH.
  - destruct (origin m i) as [k|] eqn:E; [|done]. intros [= <-]. by eapply IH.
Qed.

Lemma origin_onto m j : m !! j = Some true -> exists i, origin m i = Some j.
Proof.
  revert j; induction m as [|b m IH]; intros j; [done|].
  destruct j as [|j]; simpl.
  - intros [= ->]. by exists 0.
  - intros H. destruct (IH j H) as [i Hi].
    destruct b; [exists (S i) | exists i]; simpl; by rewrite Hi.
Qed.

Lemma cell_loc m d col i : cell (Pd.loc m d) col i = origin m i ≫= cell d col.
Proof.
  unfold cell. rewrite getitem_loc.
  destruct (Pd.getitem d col) as [s|e]; cbn [fmap exc_fmap].
  - by rewrite values_take, lookup_mask_filter.
  - by destruct (origin m i).
Qed.

(** The rows of the table returned are rows of the table before step 5,
    in the same order; those whose [valeur_reelle] holds a value are all
    there. *)
Lemma nettoyer_rows d d' :
  nettoyer d = Ok d' ->
  exists d0 f,
    avant_dropna d = Ok d0 /\
    (forall col i, cell d' col i = f i ≫= cell d0 col) /\
    (forall col, is_ok (Pd.getitem d' col) = is_ok (Pd.getitem d0 col)) /\
    (forall j x, cell d0 "valeur_reelle" j = Some x -> is_nan x = false ->
                 exists i, f i = Some j).
Proof.
  intros Hn. destruct (nettoyer_dropna _ _ Hn) as (d0 & H0 & Hcase).
  exists d0. destruct (Pd.has d0 "valeur_reelle") eqn:Hh.
  - destruct Hcase as (s0 & Hs0 & ->). exists (origin (Pd.notna s0)).
    split; [done|]. split; [intros; apply cell_loc|]. split.
    { intros col. rewrite getitem_loc. by destruct (Pd.getitem d0 col). }
    intros j x Hx Hnan. apply origin_onto. unfold cell in Hx. rewrite Hs0 in Hx.
    unfold Pd.notna. by rewrite list_lookup_fmap, Hx; simpl; rewrite Hnan.
  - subst d'. exists Some. split; [done|]. split; [done|]. split; [done|]. eauto.
Qed.

(** ** The derived columns, cell by cell *)

Lemma mapM_exc_zip {A B C D E} (F : C * D -> exc E) (g1 : A -> C) (g2 : B -> D)
    (G : A -> B -> E) (la : list A) (lb : list B) :
  (forall x y, F (g1 x, g2 y) = Ok (G x y)) ->
  mapM F (zip (g1 <$> la) (g2 <$> lb)) = Ok (zip_with G la lb).
Proof.
  intros H. revert lb; induction la as [|x la IH]; intros [|y lb]; try done.
  cbn [fmap list_fmap zip zip_with mapM]. rewrite H. cbn [mbind exc_bind].
  fold (zip (g1 <$> la) (g2 <$> lb)). by rewrite IH.
Qed.

Lemma concat_periode_ok a t :
  concat_periode a t =
  Ok (Object (zip_with (fun x y => SStr ((py_str x ++ " - ") ++ py_str y))
                       (Pd.values a) (Pd.values t))).
Proof.
  unfold concat_periode, Pd.add_str, Pd.astype_str. cbn [Pd.values].
  rewrite (mapM_exc_ok _ (fun x => SStr (py_str x ++ " - "))
             ((fun x => SStr (py_str x)) <$> Pd.values a)).
  2:{ intros x Hx. apply list_elem_of_fmap in Hx as (y & -> & _). done. }
  cbn [fmap exc_fmap mbind exc_bind]. unfold Pd.add. cbn [Pd.values].
  rewrite <- list_fmap_compose.
  by rewrite (mapM_exc_zip _ _ _
                (fun x y => SStr ((py_str x ++ " - ") ++ py_str y))).
Qed.

Lemma wrap64_exact z : (- 2 ^ 63 <= z < 2 ^ 63)%Z -> Pd.wrap64 z = z.
Proof. intros H. unfold Pd.wrap64. rewrite Z.mod_small; lia. Qed.

Lemma as_float_py_mul n x p :
  Pd.as_float x = Some p ->
  exists v, Pd.as_float (Pd.py_mul n x) = Some v /\ (v == p * inject_Z n)%Q.
Proof.
  destruct x; simpl; try done; intros [= <-]; eexists; (split; [done|]).
  - by rewrite inject_Z_mult.
  - apply Qred_correct.
Qed.

Lemma is_nan_py_mul n x : is_nan (Pd.py_mul n x) = is_nan x.
Proof. by destruct x. Qed.

(** A cell of [s * n]: its value is the product when the int64 product
    does not wrap around. *)
Lemma mul_cell s n i x :
  Pd.values s !! i = Some x ->
  exists y, Pd.values (Pd.mul s n) !! i = Some y /\
    is_nan y = is_nan x /\ is_str y = is_str x /\
    (forall p, Pd.as_float x = Some p ->
       (forall a, x = SInt a -> (- 2 ^ 63 <= a * n < 2 ^ 63)%Z) ->
       exists v, Pd.as_float y = Some v /\ (v == p * inject_Z n)%Q).
Proof.
  destruct s as [xs|xs|xs]; cbn [Pd.mul Pd.values]; rewrite !list_lookup_fmap.
  - destruct (xs !! i) as [a|]; [|done]. cbn. intros [= <-].
    eexists; split; [done|]. split; [done|]. split; [done|].
    intros p [= <-] Hb. rewrite (wrap64_exact _ (Hb a eq_refl)).
    eexists; split; [done|]. by rewrite inject_Z_mult.
  - destruct (xs !! i) as [[q|]|]; cbn; try done; intros [= <-];
      (eexists; split; [done|]); (split; [done|]); (split; [done|]); [|done].
    intros p [= <-] _. eexists; split; [done|]. apply Qred_correct.
  - intros Hx. rewrite Hx. cbn. eexists; split; [done|].
    split; [apply is_nan_py_mul|]. split; [by destruct x|].
    intros p Hp _. by apply as_float_py_mul.
Qed.

(** A cell of [s + t]: its value is the sum when the int64 sum does not
    wrap around. *)
Lemma add_cell s t k i x y :
  Pd.add s t = Ok k ->
  Pd.values s !! i = Some x -> Pd.values t !! i = Some y ->
  exists kv, Pd.values k !! i = Some kv /\
    (forall p q, Pd.as_float x = Some p -> Pd.as_float y = Some q ->
       (forall a b, x = SInt a -> y = SInt b -> (- 2 ^ 63 <= a + b < 2 ^ 63)%Z) ->
       exists v, Pd.as_float kv = Some v /\ (v == p + q)%Q) /\
    (is_nan x = true -> is_nan kv = true).
Proof.
  assert (Hfloat : forall s t,
    Pd.values s !! i = Some x -> Pd.values t !! i = Some y ->
    exists kv,
      Pd.values (Float64 (zip_with Pd.add_float (Pd.as_float <$> Pd.values s)
                                                (Pd.as_float <$> Pd.values t))) !! i
        = Some kv /\
      (forall p q, Pd.as_float x = Some p -> Pd.as_float y = Some q ->
         (forall a b, x = SInt a -> y = SInt b -> (- 2 ^ 63 <= a + b < 2 ^ 63)%Z) ->
         exists v, Pd.as_float kv = Some v /\ (v == p + q)%Q) /\
      (is_nan x = true -> is_nan kv = true)).
  { intros s0 t0 Hx Hy. cbn [Pd.values].
    rewrite list_lookup_fmap, lookup_zip_with, !list_lookup_fmap, Hx, Hy.
    cbn. eexists; split; [done|]. split.
    - intros p q -> -> _. cbn. eexists; split; [done|]. apply Qred_correct.
    - by destruct x. }
  assert (Hobj : forall s t l,
    mapM (fun xy : scalar * scalar =>
            if is_nan (fst xy) || is_nan (snd xy) then Ok SNaN
            else Pd.py_add (fst xy) (snd xy))
         (zip (Pd.values s) (Pd.values t)) = Ok l ->
    Pd.values s !! i = Some x -> Pd.values t !! i = Some y ->
    exists kv, l !! i = Some kv /\
      (forall p q, Pd.as_float x = Some p -> Pd.as_float y = Some q ->
         (forall a b, x = SInt a -> y = SInt b -> (- 2 ^ 63 <= a + b < 2 ^ 63)%Z) ->
         exists v, Pd.as_float kv = Some v /\ (v == p + q)%Q) /\
      (is_nan x = true -> is_nan kv = true)).
  { intros s0 t0 l Hl Hx Hy.
    destruct (mapM_exc_lookup _ _ _ i (x, y) Hl) as (kv & Hkv & Hf).
    { by rewrite lookup_zip_with, Hx, Hy. }
    exists kv. split; [done|]. cbn [fst snd] in Hf. split.
    - intros p q Hp Hq _.
      destruct x, y; simpl in *; try done; injection Hf as <-;
        injection Hp as <-; injection Hq as <-; eexists; (split; [done|]);
        first [apply Qred_correct | rewrite inject_Z_plus; reflexivity].
    - intros Hn. rewrite Hn in Hf. simpl in Hf. by injection Hf as <-. }
  intros Hadd Hx Hy. unfold Pd.add in Hadd.
  destruct s as [xs|xs|xs], t as [ys|ys|ys]; cbn [fmap exc_fmap] in Hadd;
    try (injection Hadd as <-; exact (Hfloat _ _ Hx Hy));
    try (lazymatch type of Hadd with
         | context [mapM ?F ?L] =>
             destruct (mapM F L) as [l|e] eqn:Hl; [|done]
         end; cbn [fmap exc_fmap] in Hadd; injection Hadd as <-;
         by eapply Hobj).
  injection Hadd as <-. cbn [Pd.values] in *.
  rewrite list_lookup_fmap in Hx, Hy. rewrite list_lookup_fmap, lookup_zip_with.
  destruct (xs !! i) as [a|]; [|done]. destruct (ys !! i) as [b|]; [|done].
  cbn in *. injection Hx as <-. injection Hy as <-.
  eexists; split; [done|]. split; [|done].
  intros p q [= <-] [= <-] Hb. rewrite (wrap64_exact _ (Hb a b eq_refl eq_refl)).
  eexists; split; [done|]. rewrite inject_Z_plus; reflexivity.
Qed.

Lemma fillna_numeric_of z xs :
  Pd.as_float <$> Pd.values (Pd.fillna z (Pd.numeric_of xs)) =
  (fun x => Some (default (inject_Z z) (Pd.as_float x))) <$> xs.
Proof.
  unfold Pd.numeric_of. destruct (mapM Pd.as_int xs) as [zs|] eqn:E.
  - apply mapM_as_int in E as ->. cbn [Pd.fillna Pd.values].
    rewrite <- !list_fmap_compose. by apply list_fmap_ext.
  - cbn [Pd.fillna Pd.values]. rewrite <- !list_fmap_compose.
    by apply list_fmap_ext.
Qed.

Lemma trim_num_values t :
  Pd.as_float <$> Pd.values (trim_num t) =
  (fun y => Some (inject_Z (quarter_index y))) <$> Pd.values t.
Proof.
  unfold trim_num, Pd.map_dict. rewrite fillna_numeric_of, <- list_fmap_compose.
  apply list_fmap_ext. intros i [| |s|] _; try done.
  unfold compose, quarter_index. cbv beta iota.
  by destruct (List.find (fun kv => String.eqb (fst kv) s) mapping_trimestre).
Qed.

Lemma table_rendue_nettoyer r w d' :
  table_rendue r w = Some d' ->
  exists d, heap w !! r = Some d /\ nettoyer d = Ok d'.
Proof.
  unfold table_rendue. destruct (heap w !! r) as [d|] eqn:Hd.
  - destruct (nettoyer_donnees r w) as [[r'|e] w'] eqn:Hrun; [|done].
    destruct (nettoyer_donnees_inv _ _ _ _ _ Hd Hrun) as (d1 & Hn & -> & ->).
    rewrite heap_set_obj. intros [= <-]. eauto.
  - unfold nettoyer_donnees, mbind, M_bind, modify. by rewrite Hd.
Qed.

Lemma has_false_filter d col :
  Pd.has d col = false ->
  List.filter (fun c => String.eqb (fst c) col) (cols d) = [].
Proof.
  unfold Pd.has, Pd.columns. destruct d as [l]; cbn [cols].
  induction l as [|c l IH]; [done|]. cbn [fmap list_fmap existsb List.filter].
  rewrite (String.eqb_sym col). destruct (String.eqb (fst c) col); [done|].
  exact IH.
Qed.

Lemma getitem_setitem_inv col s d s' :
  Pd.getitem (Pd.setitem col s d) col = Ok s' -> s' = s.
Proof.
  unfold Pd.setitem. destruct (Pd.has d col) eqn:Hh; unfold Pd.getitem; cbn [cols].
  - rewrite (filter_put col s col).
    destruct (List.filter _ (cols d)) as [|c [|c' l]] eqn:E; try done.
    cbn [fmap list_fmap].
    assert (String.eqb (fst c) col = true) as ->; [|by intros [= <-]].
    assert (In c (List.filter (fun c => String.eqb (fst c) col) (cols d))) as Hin
      by (rewrite E; by left).
    by apply filter_In in Hin as [_ ?].
  - rewrite List.filter_app, (has_false_filter _ _ Hh). cbn [List.filter fst].
    rewrite String.eqb_refl. by intros [= <-].
Qed.

Lemma cell_getitem d col i x :
  cell d col i = Some x ->
  exists s, Pd.getitem d col = Ok s /\ Pd.values s !! i = Some x.
Proof. unfold cell. destruct (Pd.getitem d col); [eauto|done]. Qed.

(** The two derived columns of the table before step 5. *)
Lemma avant_dropna_periode d d0 a t :
  avant_dropna d = Ok d0 ->
  Pd.getitem d0 "annee" = Ok a -> Pd.getitem d0 "trimestre" = Ok t ->
  exists l k,
    concat_periode a t = Ok l /\
    Pd.add (Pd.mul a 10) (trim_num t) = Ok k /\
    (forall s, Pd.getitem d0 "periode_label" = Ok s -> s = l) /\
    (forall s, Pd.getitem d0 "sort_key" = Ok s -> s = k).
Proof.
  unfold avant_dropna.
  destruct (etape_numerique "valeur_reelle" _) as [d3|e]; [|done].
  cbn [mbind exc_bind].
  destruct (etape_numerique "valeur_objectif" d3) as [d3'|e]; [|done].
  cbn [mbind exc_bind]. unfold etape_periode.
  destruct (Pd.has d3' "annee" && Pd.has d3' "trimestre") eqn:Hh.
  - destruct (Pd.getitem d3' "annee") as [a0|e] eqn:Ha; [|done].
    destruct (Pd.getitem d3' "trimestre") as [t0|e] eqn:Ht; [|done].
    cbn [mbind exc_bind].
    destruct (concat_periode a0 t0) as [l|e] eqn:Hl; [|done].
    destruct (Pd.add _ _) as [k|e] eqn:Hk; [|done].
    cbn [mbind exc_bind]. intros [= <-] Ha' Ht'.
    rewrite !getitem_setitem_ne in Ha' by discriminate.
    rewrite !getitem_setitem_ne in Ht' by discriminate.
    assert (a0 = a) as -> by congruence. assert (t0 = t) as -> by congruence.
    exists l, k. repeat split; try done.
    + intros s. rewrite getitem_setitem_ne by discriminate.
      apply getitem_setitem_inv.
    + intros s. apply getitem_setitem_inv.
  - intros [= <-] Ha Ht.
    by rewrite (has_getitem _ _ _ Ha), (has_getitem _ _ _ Ht) in Hh.
Qed.

Lemma year_of_as_float x y :
  year_of x = Some y ->
  exists p, Pd.as_float x = Some p /\ (p == inject_Z y)%Q.
Proof.
  destruct x as [z|q|s|]; simpl; try done.
  - intros [= <-]. by eexists.
  - destruct (Qeq_bool q (inject_Z (Qfloor q))) eqn:E; [|done].
    intros [= <-]. exists q. split; [done|]. by apply Qeq_bool_eq.
Qed.

Lemma quarter_index_range x : (0 <= quarter_index x <= 4)%Z.
Proof.
  destruct x as [| |s|]; unfold quarter_index, mapping_trimestre; try lia.
  cbn [List.find fst snd].
  repeat (match goal with
          | |- context [if String.eqb ?a ?b then _ else _] =>
              destruct (String.eqb a b)
          end; cbn [fst snd]; try lia).
Qed.

(** What the derived cells of a row are, before step 5.  The key is
    [annee*10 + quarter_index] when its dtype holds it exactly
    ([cle_exacte]); beyond, the int64 product wraps around. *)
Lemma avant_dropna_cells d d0 j x y :
  avant_dropna d = Ok d0 ->
  cell d0 "annee" j = Some x -> cell d0 "trimestre" j = Some y ->
  (is_ok (Pd.getitem d0 "periode_label") = true ->
   cell d0 "periode_label" j = Some (SStr ((py_str x ++ " - ") ++ py_str y))) /\
  (forall kv, cell d0 "sort_key" j = Some kv ->
     (forall a, year_of x = Some a -> cle_exacte kv a ->
        exists v, Pd.as_float kv = Some v /\
                  (v == inject_Z (a * 10 + quarter_index y))%Q) /\
     (is_nan x = true -> is_nan kv = true)).
Proof.
  intros H0 Hx Hy.
  apply cell_getitem in Hx as (a & Ha & Hx).
  apply cell_getitem in Hy as (t & Ht & Hy).
  destruct (avant_dropna_periode _ _ _ _ H0 Ha Ht) as (l & k & Hl & Hk & Hpl & Hsk).
  split.
  - unfold cell. destruct (Pd.getitem d0 "periode_label") as [s|e] eqn:Hs; [|done].
    intros _. rewrite (Hpl s eq_refl). rewrite concat_periode_ok in Hl.
    injection Hl as <-. cbn [Pd.values]. by rewrite lookup_zip_with, Hx, Hy.
  - intros kv Hkv. apply cell_getitem in Hkv as (s & Hs & Hkv).
    rewrite (Hsk s Hs) in Hkv.
    assert (exists c, Pd.values (trim_num t) !! j = Some c /\
                      Pd.as_float c = Some (inject_Z (quarter_index y)))
      as (c & Hc & Hcv).
    { pose proof (trim_num_values t) as E.
      apply (f_equal (fun l => l !! j)) in E.
      rewrite !list_lookup_fmap, Hy in E. cbn in E.
      destruct (Pd.values (trim_num t) !! j) as [c|]; [|done].
      exists c. split; [done|]. by injection E. }
    destruct (mul_cell a 10 j x Hx) as (mx & Hmx & Hmnan & _ & Hmnum).
    destruct (add_cell _ _ _ j mx c Hk Hmx Hc) as (kv' & Hkv' & Hnum & Hnan).
    rewrite Hkv in Hkv'. injection Hkv' as <-. split.
    + intros yz Hyz Hb. destruct (year_of_as_float _ _ Hyz) as (p & Hp & Ep).
      pose proof (quarter_index_range y) as Hq.
      assert (- 2 ^ 63 <= yz * 10 /\ yz * 10 + 4 < 2 ^ 63)%Z as Hb'.
      { unfold cle_exacte in Hb. destruct kv; lia. }
      clear Hb. destruct (Hmnum p Hp) as (v0 & Hv0 & E0).
      { intros z ->. cbn in Hyz. injection Hyz as ->. lia. }
      destruct (Hnum _ _ Hv0 Hcv) as (v & Hv & E).
      { intros a' b -> ->. cbn in Hv0, Hcv. injection Hv0 as <-.
        injection Hcv as Hc'.
        assert (a' = (yz * 10)%Z) as ->.
        { apply inject_Z_injective. rewrite E0, Ep, inject_Z_mult. reflexivity. }
        lia. }
      exists v. split; [done|].
      rewrite E, E0, Ep, inject_Z_plus, inject_Z_mult. reflexivity.
    + intros Hn. apply Hnan. by rewrite Hmnan.
Qed.

(** The derived cells of a row of the table returned. *)
Lemma nettoyer_cells d d' i x y :
  nettoyer d = Ok d' ->
  cell d' "annee" i = Some x -> cell d' "trimestre" i = Some y ->
  (is_ok (Pd.getitem d' "periode_label") = true ->
   cell d' "periode_label" i = Some (SStr ((py_str x ++ " - ") ++ py_str y))) /\
  (forall kv, cell d' "sort_key" i = Some kv ->
     (forall a, year_of x = Some a -> cle_exacte kv a ->
        exists v, Pd.as_float kv = Some v /\
                  (v == inject_Z (a * 10 + quarter_index y))%Q) /\
     (is_nan x = true -> is_nan kv = true)).
Proof.
  intros Hn Hx Hy.
  destruct (nettoyer_rows _ _ Hn) as (d0 & f & H0 & Hf & Hok & _).
  rewrite Hf in Hx, Hy. destruct (f i) as [j|] eqn:Hj; [|done].
  cbn [mbind option_bind] in Hx, Hy.
  destruct (avant_dropna_cells _ _ _ _ _ H0 Hx Hy) as [Hpl Hsk]. split.
  - rewrite Hok, Hf, Hj. exact Hpl.
  - intros kv. rewrite Hf, Hj. apply Hsk.
Qed.

Lemma quarter_index_unknown x :
  x ∉ [SStr "T1"; SStr "T2"; SStr "T3"; SStr "T4"] -> quarter_index x = 0%Z.
Proof.
  intros H. destruct x as [| |s|]; unfold quarter_index, mapping_trimestre; try done.
  cbn [List.find fst snd].
  repeat (match goal with
          | |- context [if String.eqb ?a ?b then _ else _] =>
              destruct (String.eqb_spec a b) as [<-|?];
              [exfalso; apply H; set_solver|]; cbv iota
          end); done.
Qed.

(** ** C2 *)

Lemma C2_counterexample :
  exists d', table_rendue 1%positive monde_annees_lointaines = Some d' /\
             ~ cles_chronologiques d'.
Proof.
  eexists. split; [reflexivity|].
  intros H.
  specialize (H 0 1 (SInt 922337203685477580) (SInt 922337203685477581)
                (SStr "T1") (SStr "T1")
                (SInt 9223372036854775801) (SInt (-9223372036854775805))
                922337203685477580%Z 922337203685477581%Z
                (inject_Z 9223372036854775801) (inject_Z (-9223372036854775805))
                eq_refl eq_refl eq_refl eq_refl eq_refl eq_refl
                eq_refl eq_refl eq_refl eq_refl).
  assert (Hy : (922337203685477580 < 922337203685477581)%Z) by reflexivity.
  specialize (H (or_introl Hy)). by discriminate H.
Qed.

(** C2 (amended). In the table returned, the [sort_key] of a row whose
    year is known and whose key is held exactly by its dtype
    ([cle_exacte]: [annee*10 + 4] within int64 for an int key, below 2^53
    in absolute value for a float key) is [annee*10 + quarter_index], with
    quarter_index 1..4 for T1..T4 and 0 for anything else; between two
    such rows the keys compare as the (year, quarter_index) pairs do: an
    earlier year gives a strictly smaller key, and within a year the keys
    follow the quarter index, an unknown quarter (0) coming first. *)
Theorem C2_sort_key_chronologique r w d' i j xi xj ti tj ki kj yi yj :
  table_rendue r w = Some d' ->
  cell d' "annee" i = Some xi -> cell d' "trimestre" i = Some ti ->
  cell d' "sort_key" i = Some ki ->
  cell d' "annee" j = Some xj -> cell d' "trimestre" j = Some tj ->
  cell d' "sort_key" j = Some kj ->
  year_of xi = Some yi -> year_of xj = Some yj ->
  cle_exacte ki yi -> cle_exacte kj yj ->
  (exists vi vj,
     Pd.as_float ki = Some vi /\ Pd.as_float kj = Some vj /\
     (vi == inject_Z (yi * 10 + quarter_index ti))%Q /\
     (vj == inject_Z (yj * 10 + quarter_index tj))%Q /\
     ((yi < yj)%Z -> (vi < vj)%Q) /\
     ((yi = yj)%Z -> (quarter_index ti < quarter_index tj)%Z -> (vi < vj)%Q) /\
     ((vi < vj)%Q <->
      (yi < yj)%Z \/ (yi = yj /\ (quarter_index ti < quarter_index tj)%Z))) /\
  quarter_index (SStr "T1") = 1%Z /\ quarter_index (SStr "T2") = 2%Z /\
  quarter_index (SStr "T3") = 3%Z /\ quarter_index (SStr "T4") = 4%Z /\
  (forall x, x ∉ [SStr "T1"; SStr "T2"; SStr "T3"; SStr "T4"] ->
             quarter_index x = 0%Z).
Proof.
  intros Hr Hxi Hti Hki Hxj Htj Hkj Hyi Hyj Hbi Hbj.
  split; [|repeat split; try reflexivity; apply quarter_index_unknown].
  destruct (table_rendue_nettoyer _ _ _ Hr) as (d & _ & Hn).
  destruct (nettoyer_cells _ _ _ _ _ Hn Hxi Hti) as [_ Hi].
  destruct (nettoyer_cells _ _ _ _ _ Hn Hxj Htj) as [_ Hj].
  destruct (Hi ki Hki) as [Hi' _]. destruct (Hi' yi Hyi Hbi) as (vi & Hvi & Ei').
  destruct (Hj kj Hkj) as [Hj' _]. destruct (Hj' yj Hyj Hbj) as (vj & Hvj & Ej').
  pose proof (quarter_index_range ti). pose proof (quarter_index_range tj).
  assert (Hlt : (vi < vj)%Q <->
                (yi * 10 + quarter_index ti < yj * 10 + quarter_index tj)%Z).
  { rewrite Ei', Ej', <- Zlt_Qlt. reflexivity. }
  exists vi, vj. repeat split; try done.
  - intros. apply Hlt. lia.
  - intros. apply Hlt. lia.
  - intros Hv. apply Hlt in Hv. lia.
  - intros Hy. apply Hlt. lia.
Qed.

Lemma C2_witness :
  (exists vi vj,
     Pd.as_float (SFloat 20231) = Some vi /\ Pd.as_float (SFloat 20242) = Some vj /\
     (vi == inject_Z (2023 * 10 + quarter_index (SStr "T1")))%Q /\
     (vj == inject_Z (2024 * 10 + quarter_index (SStr "T2")))%Q /\
     ((2023 < 2024)%Z -> (vi < vj)%Q) /\
     ((2023 = 2024)%Z ->
      (quarter_index (SStr "T1") < quarter_index (SStr "T2"))%Z -> (vi < vj)%Q) /\
     ((vi < vj)%Q <->
      (2023 < 2024)%Z \/
      (2023%Z = 2024%Z /\ (quarter_index (SStr "T1") < quarter_index (SStr "T2"))%Z))) /\
  quarter_index (SStr "T1") = 1%Z /\ quarter_index (SStr "T2") = 2%Z /\
  quarter_index (SStr "T3") = 3%Z /\ quarter_index (SStr "T4") = 4%Z /\
  (forall x, x ∉ [SStr "T1"; SStr "T2"; SStr "T3"; SStr "T4"] ->
             quarter_index x = 0%Z).
Proof.
  apply (C2_sort_key_chronologique 1%positive monde_exemple table_nettoyee 0 1
           (SInt 2023) (SInt 2024)); reflexivity.
Defined.

(** ** C7 *)

Lemma C7_counterexample :
  exists d', table_rendue 1%positive monde_annee_manquante = Some d' /\
             ~ label_missing_when_incomplete d'.
Proof.
  eexists. split; [reflexivity|].
  intros H. specialize (H 1 SNaN (SStr "T1") (SStr "nan - T1")).
  by discriminate H.
Qed.

(** C7 (amended). In the table returned, when [annee] and [trimestre] are
    columns, the [periode_label] of every row is the text
    [str(annee) + " - " + str(trimestre)], a missing year or quarter being
    written "nan": the label is never missing.  The [sort_key] of a row
    whose year is missing is missing.  The rows of the table are those of
    the coerced table, in order, and every row whose [valeur_reelle] holds
    a value is kept. *)
Theorem C7_periode_label_texte r w d' i x y :
  table_rendue r w = Some d' ->
  cell d' "annee" i = Some x -> cell d' "trimestre" i = Some y ->
  is_ok (Pd.getitem d' "periode_label") = true ->
  cell d' "periode_label" i = Some (SStr ((py_str x ++ " - ") ++ py_str y)) /\
  py_str SNaN = "nan" /\
  (is_nan x = true ->
   forall kv, cell d' "sort_key" i = Some kv -> is_nan kv = true) /\
  (exists d d0 f,
     heap w !! r = Some d /\ avant_dropna d = Ok d0 /\
     (forall col i, cell d' col i = f i ≫= cell d0 col) /\
     (forall j v, cell d0 "valeur_reelle" j = Some v -> is_nan v = false ->
                  exists i, f i = Some j)).
Proof.
  intros Hr Hx Hy Hok.
  destruct (table_rendue_nettoyer _ _ _ Hr) as (d & Hd & Hn).
  destruct (nettoyer_cells _ _ _ _ _ Hn Hx Hy) as [Hpl Hsk].
  split; [by apply Hpl|]. split; [done|]. split.
  - intros Hnan kv Hkv. by apply (Hsk kv Hkv).
  - destruct (nettoyer_rows _ _ Hn) as (d0 & f & H0 & Hf & _ & Hkeep).
    exists d, d0, f. by repeat split.
Qed.

Lemma C7_witness :
  cell table_nettoyee "periode_label" 1
    = Some (SStr ((py_str (SInt 2024) ++ " - ") ++ py_str (SStr "T2"))) /\
  py_str SNaN = "nan" /\
  (is_nan (SInt 2024) = true ->
   forall kv, cell table_nettoyee "sort_key" 1 = Some kv -> is_nan kv = true) /\
  (exists d d0 f,
     heap monde_exemple !! 1%positive = Some d /\ avant_dropna d = Ok d0 /\
     (forall col i, cell table_nettoyee col i = f i ≫= cell d0 col) /\
     (forall j v, cell d0 "valeur_reelle" j = Some v -> is_nan v = false ->
                  exists i, f i = Some j)).
Proof.
  apply (C7_periode_label_texte 1%positive monde_exemple table_nettoyee 1
           (SInt 2024) (SStr "T2")); reflexivity.
Defined.

(** ** C3 *)

Lemma C3_counterexample :
  exists w', nettoyer_donnees 1%positive monde_exemple = (Ok 1%positive, w') /\
             heap w' !! 1%positive <> heap monde_exemple !! 1%positive.
Proof.
  eexists. split; [apply nettoyer_donnees_exemple|].
  rewrite heap_set_obj. vm_compute. discriminate.
Qed.

(** C3 (amended). [nettoyer_donnees] works in place: it returns the
    reference it was given, and the object behind it has become the
    normalised table, so the caller's table is the table returned and no
    longer its value before the call.  No other object, and nothing on the
    page, is changed. *)
Theorem C3_nettoyage_en_place r w d r' w' :
  heap w !! r = Some d ->
  nettoyer_donnees r w = (Ok r', w') ->
  r' = r /\
  exists d', nettoyer d = Ok d' /\
    heap w' !! r = Some d' /\
    heap w' = <[r := d']> (heap w) /\
    (forall r0, r0 <> r -> heap w' !! r0 = heap w !! r0) /\
    page w' = page w /\ disk w' = disk w.
Proof.
  intros Hd Hrun.
  destruct (nettoyer_donnees_inv _ _ _ _ _ Hd Hrun) as (d' & Hn & -> & ->).
  split; [done|]. exists d'. repeat split; try done.
  - apply heap_set_obj.
  - intros r0 Hr0. unfold set_obj; simpl. by rewrite lookup_insert_ne.
Qed.

Lemma C3_witness :
  1%positive = 1%positive /\
  exists d', nettoyer table_exemple = Ok d' /\
    heap (snd (nettoyer_donnees 1%positive monde_exemple)) !! 1%positive = Some d' /\
    heap (snd (nettoyer_donnees 1%positive monde_exemple))
      = <[1%positive := d']> (heap monde_exemple) /\
    (forall r0, r0 <> 1%positive ->
       heap (snd (nettoyer_donnees 1%positive monde_exemple)) !! r0
       = heap monde_exemple !! r0) /\
    page (snd (nettoyer_donnees 1%positive monde_exemple)) = page monde_exemple /\
    disk (snd (nettoyer_donnees 1%positive monde_exemple)) = disk monde_exemple.
Proof.
  apply (C3_nettoyage_en_place 1%positive monde_exemple table_exemple).
  - reflexivity.
  - vm_compute. reflexivity.
Defined.

(** ** Rectangular frames and row selection *)

Lemma length_mask_filter_le {A} m (l : list A) :
  length (mask_filter m l) <= length l.
Proof.
  revert l; induction m as [|b m IH]; intros [|x l]; simpl; try lia.
  destruct b; simpl; specialize (IH l); lia.
Qed.

Lemma length_mask_filter_same {A B} m (l : list A) (k : list B) :
  length l = length k -> length (mask_filter m l) = length (mask_filter m k).
Proof.
  revert l k; induction m as [|b m IH]; intros [|x l] [|y k] H; simpl in *;
    try done.
  destruct b; simpl; rewrite (IH l k); lia.
Qed.

Lemma Forall_mask_filter {A} (P : A -> Prop) m (l : list A) :
  Forall P l -> Forall P (mask_filter m l).
Proof.
  intros H; revert m; induction H as [|x l Hx _ IH]; intros [|b m]; simpl;
    try constructor.
  destruct b; [constructor|]; auto.
Qed.

Lemma size_take_same m s t :
  Pd.size s = Pd.size t -> Pd.size (Pd.take m s) = Pd.size (Pd.take m t).
Proof. unfold Pd.size. rewrite !values_take. apply length_mask_filter_same. Qed.

Lemma take_all m s :
  Forall (fun b => b = true) m -> Pd.size s <= length m -> Pd.take m s = s.
Proof.
  intros Hm. unfold Pd.size.
  destruct s as [xs|xs|xs]; cbn [Pd.values Pd.take]; rewrite ?length_fmap;
    intros Hl; f_equal; by apply mask_filter_all.
Qed.

Lemma rectangular_sizes d :
  Pd.rectangular d = true <->
  forall c, c ∈ cols d -> Pd.size (snd c) = Pd.nrows d.
Proof.
  unfold Pd.rectangular. rewrite forallb_forall. split.
  - intros H c Hc. apply Nat.eqb_eq, H. by apply list_elem_of_In.
  - intros H c Hc. apply Nat.eqb_eq, H. by apply list_elem_of_In.
Qed.

Lemma getitem_elem d col s : Pd.getitem d col = Ok s -> (col, s) ∈ cols d.
Proof.
  unfold Pd.getitem.
  destruct (List.filter _ (cols d)) as [|c [|c' l]] eqn:E; try done.
  intros [= <-].
  assert (In c (List.filter (fun c => String.eqb (fst c) col) (cols d))) as Hin
    by (rewrite E; by left).
  apply filter_In in Hin as [Hin Hc]. apply String.eqb_eq in Hc.
  apply list_elem_of_In. by destruct c; simpl in *; subst.
Qed.

Lemma rectangular_getitem d col s :
  Pd.rectangular d = true -> Pd.getitem d col = Ok s -> Pd.size s = Pd.nrows d.
Proof.
  intros Hr Hs. apply rectangular_sizes with (c := (col, s)) in Hr; [done|].
  by apply getitem_elem.
Qed.

Lemma rectangular_loc m d :
  Pd.rectangular d = true -> Pd.rectangular (Pd.loc m d) = true.
Proof.
  rewrite !rectangular_sizes. intros H c Hc.
  unfold Pd.loc in Hc; cbn [cols] in Hc.
  apply list_elem_of_fmap in Hc as (c0 & -> & Hc0). cbn [snd].
  unfold Pd.nrows, Pd.loc. cbn [cols].
  destruct (cols d) as [|c1 l] eqn:E; [by apply elem_of_nil in Hc0|].
  cbn [fmap list_fmap snd]. apply size_take_same.
  rewrite (H c0 Hc0), (H c1); [|left]. unfold Pd.nrows. by rewrite E.
Qed.

Lemma loc_all m d :
  Pd.rectangular d = true ->
  Forall (fun b => b = true) m -> Pd.nrows d <= length m ->
  Pd.loc m d = d.
Proof.
  intros Hr Hm Hl. destruct d as [l]. unfold Pd.loc; cbn [cols]. f_equal.
  rewrite <- (list_fmap_id l) at 2. apply list_fmap_ext.
  intros i [c s] Hi; cbn [fst snd id]. f_equal. apply take_all; [done|].
  apply rectangular_sizes with (c := (c, s)) in Hr.
  - cbn [snd] in Hr. lia.
  - cbn [cols]. by eapply list_elem_of_lookup_2.
Qed.

(** ** The filters *)

Lemma column_all_loc p m d col : column_all p d col -> column_all p (Pd.loc m d) col.
Proof.
  intros H s. rewrite getitem_loc.
  destruct (Pd.getitem d col) as [s0|e] eqn:E; [|done].
  cbn [fmap exc_fmap]. intros [= <-]. rewrite values_take.
  apply Forall_mask_filter. by apply H.
Qed.

Lemma column_all_loc_self p d col s :
  Pd.getitem d col = Ok s -> column_all p (Pd.loc (p <$> Pd.values s) d) col.
Proof.
  intros Hs s'. rewrite getitem_loc, Hs. cbn [fmap exc_fmap]. intros [= <-].
  rewrite values_take. apply mask_filter_self.
Qed.

Lemma column_all_selection p d d' col :
  selection d d' -> column_all p d col -> column_all p d' col.
Proof. intros [->|[m ->]]; [done|apply column_all_loc]. Qed.

Lemma rectangular_selection d d' :
  selection d d' -> Pd.rectangular d = true -> Pd.rectangular d' = true.
Proof. intros [->|[m ->]]; [done|apply rectangular_loc]. Qed.

Lemma has_selection d d' col : selection d d' -> Pd.has d' col = Pd.has d col.
Proof. intros [->|[m ->]]; [done|apply has_loc]. Qed.

Lemma getitem_ok_selection d d' col :
  selection d d' -> is_ok (Pd.getitem d' col) = is_ok (Pd.getitem d col).
Proof.
  intros [->|[m ->]]; [done|]. rewrite getitem_loc.
  by destruct (Pd.getitem d col).
Qed.

Lemma existsb_mask_filter {A} (p : A -> bool) m l :
  existsb p (mask_filter m l) = true -> existsb p l = true.
Proof.
  revert l; induction m as [|b m IH]; intros [|x l]; simpl; try done.
  destruct b; simpl; intros H.
  - apply orb_true_iff in H as [->|H]; [done|]. rewrite (IH l H). apply orb_true_r.
  - rewrite (IH l H). apply orb_true_r.
Qed.

Lemma existsb_unique_from {A} (eqb : A -> A -> bool) (p : A -> bool) seen l :
  (forall x y, eqb x y = true -> p x = p y) ->
  existsb p (unique_from eqb seen l) || existsb p seen
  = existsb p l || existsb p seen.
Proof.
  intros Hp. revert seen; induction l as [|x l IH]; intros seen; [done|].
  cbn [unique_from]. destruct (existsb (eqb x) seen) eqn:E.
  - rewrite IH. cbn [existsb]. destruct (p x) eqn:Px; [|done].
    apply existsb_exists in E as (y & Hy & Exy).
    assert (existsb p seen = true) as ->.
    { apply existsb_exists. exists y. split; [done|]. by rewrite <- (Hp x y). }
    by rewrite !orb_true_r.
  - cbn [existsb]. specialize (IH (x :: seen)). cbn [existsb] in IH.
    destruct (p x); [by rewrite ?orb_true_r|]. by rewrite !orb_false_l in *.
Qed.

Lemma existsb_unique {A} (eqb : A -> A -> bool) (p : A -> bool) l :
  (forall x y, eqb x y = true -> p x = p y) ->
  existsb p (unique eqb l) = existsb p l.
Proof.
  intros Hp. pose proof (existsb_unique_from eqb p [] l Hp) as H.
  by rewrite !orb_false_r in H.
Qed.

Lemma scalar_eqb_is_str x y : scalar_eqb x y = true -> is_str x = is_str y.
Proof. by destruct x, y. Qed.

Lemma py_sorted_ok l :
  is_ok (py_sorted l) = negb (existsb is_str l && existsb (fun x => negb (is_str x)) l).
Proof. unfold py_sorted. by destruct (_ && _). Qed.

Lemma annees_dispo_loc m d :
  is_ok (annees_dispo d) = true -> is_ok (annees_dispo (Pd.loc m d)) = true.
Proof.
  unfold annees_dispo. rewrite getitem_loc.
  destruct (Pd.getitem d "annee") as [s|e]; [|done].
  cbn [fmap exc_fmap mbind exc_bind]. rewrite !py_sorted_ok, values_take.
  rewrite !existsb_unique
    by (intros x y E; by rewrite (scalar_eqb_is_str x y E)).
  intros H. apply negb_true_iff in H. apply negb_true_iff.
  apply andb_false_iff in H. apply andb_false_iff.
  destruct H as [H|H]; [left|right]; apply not_true_is_false; intros H';
    apply existsb_mask_filter in H'; congruence.
Qed.

Lemma annees_dispo_selection d d' :
  selection d d' ->
  is_ok (annees_dispo d) = true -> is_ok (annees_dispo d') = true.
Proof. intros [->|[m ->]]; [done|apply annees_dispo_loc]. Qed.

Lemma annees_dispo_getitem d :
  is_ok (annees_dispo d) = true -> is_ok (Pd.getitem d "annee") = true.
Proof. unfold annees_dispo. by destruct (Pd.getitem d "annee"). Qed.

Lemma filtre_annee_cases sel d d' :
  filtre_annee (fun _ => sel) d = Ok d' ->
  selection d d' /\
  (Pd.has d "annee" = true -> is_ok (annees_dispo d) = true) /\
  (sel <> [] -> column_all (fun x => negb (is_nan x) && existsb (scalar_eqb x) sel) d' "annee").
Proof.
  unfold filtre_annee. destruct (Pd.has d "annee") eqn:Hh.
  - destruct (annees_dispo d) as [dispo|e]; [|done]. cbn [mbind exc_bind].
    destruct sel as [|v sel].
    + intros [= <-]. repeat split; try done. by left.
    + destruct (Pd.getitem d "annee") as [s|e] eqn:Hs; [|done].
      cbn [mbind exc_bind]. intros [= <-]. repeat split; try done.
      * right. by eexists.
      * intros _. by apply (column_all_loc_self (fun x => negb (is_nan x) && existsb (scalar_eqb x) (v :: sel))).
  - intros [= <-]. repeat split; try done; [by left|].
    intros _ s Hs. by rewrite (has_getitem _ _ _ Hs) in Hh.
Qed.

Lemma filtre_annee_fix sel d :
  Pd.rectangular d = true ->
  (Pd.has d "annee" = true -> is_ok (annees_dispo d) = true) ->
  (sel <> [] -> column_all (fun x => negb (is_nan x) && existsb (scalar_eqb x) sel) d "annee") ->
  filtre_annee (fun _ => sel) d = Ok d.
Proof.
  intros Hr Hok Hall. unfold filtre_annee.
  destruct (Pd.has d "annee"); [|done]. specialize (Hok eq_refl).
  pose proof (annees_dispo_getitem _ Hok) as Hg.
  destruct (annees_dispo d) as [dispo|e]; [|done]. cbn [mbind exc_bind].
  destruct sel as [|v sel]; [done|].
  destruct (Pd.getitem d "annee") as [s|e] eqn:Hs; [|done].
  cbn [mbind exc_bind]. f_equal. apply loc_all; [done| |].
  - unfold Pd.isin. rewrite Forall_fmap. by apply Hall.
  - unfold Pd.isin. rewrite length_fmap.
    by rewrite <- (rectangular_getitem _ _ _ Hr Hs).
Qed.

Lemma filtre_valeur_cases col tous sel d d' :
  filtre_valeur col tous (fun _ => sel) d = Ok d' ->
  (Pd.has d col = true -> is_ok (Pd.getitem d col) = true) /\
  (d' = d /\ (Pd.has d col = false \/ sel = tous) \/
   exists s, Pd.getitem d col = Ok s /\ sel <> tous /\
             d' = Pd.loc (Pd.eq_str s sel) d).
Proof.
  unfold filtre_valeur, options_dispo. destruct (Pd.has d col) eqn:Hh.
  - destruct (Pd.getitem d col) as [s|e] eqn:Hs; [|done].
    cbn [mbind exc_bind]. destruct (String.eqb_spec sel tous) as [->|Hne];
      cbn [negb]; intros [= <-]; (split; [done|]).
    + left. split; [done|by right].
    + right. by exists s.
  - intros [= <-]. split; [done|]. left. split; [done|by left].
Qed.

Lemma filtre_valeur_selection col tous sel d d' :
  filtre_valeur col tous (fun _ => sel) d = Ok d' ->
  selection d d' /\
  (sel <> tous -> column_all (fun x => scalar_eqb x (SStr sel)) d' col).
Proof.
  intros H. destruct (filtre_valeur_cases _ _ _ _ _ H) as [_ [[-> Hc]|(s & Hs & Hne & ->)]].
  - split; [by left|]. intros Hne s Hs. destruct Hc as [Hc|Hc]; [|done].
    by rewrite (has_getitem _ _ _ Hs) in Hc.
  - split; [right; by eexists|]. intros _.
    by apply (column_all_loc_self (fun x => scalar_eqb x (SStr sel))).
Qed.

Lemma filtre_valeur_fix col tous sel d :
  Pd.rectangular d = true ->
  (Pd.has d col = true -> is_ok (Pd.getitem d col) = true) ->
  (sel <> tous -> column_all (fun x => scalar_eqb x (SStr sel)) d col) ->
  filtre_valeur col tous (fun _ => sel) d = Ok d.
Proof.
  intros Hr Hok Hall. unfold filtre_valeur, options_dispo.
  destruct (Pd.has d col); [|done]. specialize (Hok eq_refl).
  destruct (Pd.getitem d col) as [s|e] eqn:Hs; [|done]. cbn [mbind exc_bind].
  destruct (String.eqb_spec sel tous) as [->|Hne]; cbn [negb]; [done|].
  f_equal. apply loc_all; [done| |].
  - unfold Pd.eq_str. rewrite Forall_fmap. by apply Hall.
  - unfold Pd.eq_str. rewrite length_fmap.
    by rewrite <- (rectangular_getitem _ _ _ Hr Hs).
Qed.

Lemma origin_mono m i1 i2 j1 j2 :
  i1 < i2 -> origin m i1 = Some j1 -> origin m i2 = Some j2 -> j1 < j2.
Proof.
  revert i1 i2 j1 j2; induction m as [|b m IH]; intros i1 i2 j1 j2 Hlt; [done|].
  destruct b; simpl.
  - destruct i2 as [|i2]; [lia|]. destruct i1 as [|i1].
    + intros [= <-]. destruct (origin m i2); [|done]. intros [= <-]. lia.
    + destruct (origin m i1) as [k1|] eqn:E1; [|done].
      destruct (origin m i2) as [k2|] eqn:E2; [|done].
      intros [= <-] [= <-]. apply -> Nat.succ_lt_mono.
      eapply (IH i1 i2); [lia|done|done].
  - destruct (origin m i1) as [k1|] eqn:E1; [|done].
    destruct (origin m i2) as [k2|] eqn:E2; [|done].
    intros [= <-] [= <-]. apply -> Nat.succ_lt_mono.
    eapply (IH i1 i2); [lia|done|done].
Qed.

Lemma scalar_eqb_str x v : scalar_eqb x (SStr v) = true <-> x = SStr v.
Proof.
  destruct x; simpl; try (split; [done|by intros [=]]; fail).
  rewrite String.eqb_eq. split; [by intros ->|by intros [= ->]].
Qed.

(** ** C9 *)

(** C9. With a value [v] other than the sentinel picked in the mode
    (respectively thematique) filter, the filtered table consists of exactly
    the rows whose mode (thematique) is the text [v], in their order, each
    once; a row in which the field is missing is not among them.  With the
    sentinel picked, the table is returned as it is. *)
Theorem C9_filtre_valeur_exact col tous v d d' :
  (col, tous) ∈ [("mode", "Tous"); ("thematique", "Toutes")] ->
  v <> tous ->
  Pd.has d col = true ->
  filtre_valeur col tous (fun _ => v) d = Ok d' ->
  (exists f,
     (forall c i, cell d' c i = f i ≫= cell d c) /\
     (forall i j, f i = Some j -> cell d col j = Some (SStr v)) /\
     (forall j, cell d col j = Some (SStr v) -> exists i, f i = Some j) /\
     (forall j, cell d col j = Some SNaN -> forall i, f i <> Some j) /\
     (forall i1 i2 j1 j2,
        i1 < i2 -> f i1 = Some j1 -> f i2 = Some j2 -> j1 < j2)) /\
  (forall d'', filtre_valeur col tous (fun _ => tous) d = Ok d'' -> d'' = d) /\
  filtre_mode = filtre_valeur "mode" "Tous" /\
  filtre_thematique = filtre_valeur "thematique" "Toutes".
Proof.
  intros _ Hne Hh Hf. split; [|split; [|done]].
  - destruct (filtre_valeur_cases _ _ _ _ _ Hf) as [_ [[_ [Hc|Hc]]|(s & Hs & _ & ->)]];
      [congruence | done |].
    assert (Hm : forall j, Pd.eq_str s v !! j = Some true <->
                           cell d col j = Some (SStr v)).
    { intros j. unfold Pd.eq_str, cell. rewrite Hs, list_lookup_fmap.
      destruct (Pd.values s !! j) as [x|]; cbn; [|split; done].
      split.
      - intros [= E]. f_equal. by apply scalar_eqb_str.
      - intros [= ->]. f_equal. by apply scalar_eqb_str. }
    exists (origin (Pd.eq_str s v)). repeat split.
    + intros c i. apply cell_loc.
    + intros i j Hij. by apply Hm, (origin_true _ i).
    + intros j Hj. by apply origin_onto, Hm.
    + intros j Hj i Hij. apply origin_true, Hm in Hij. congruence.
    + intros i1 i2 j1 j2. apply origin_mono.
  - intros d'' H.
    destruct (filtre_valeur_cases _ _ _ _ _ H) as [_ [[-> _]|(s & _ & Hc & _)]]; done.
Qed.

Lemma C9_witness :
  (exists f,
     (forall c i, cell (Pd.loc [true; false; true] table_nettoyee) c i
                  = f i ≫= cell table_nettoyee c) /\
     (forall i j, f i = Some j -> cell table_nettoyee "mode" j = Some (SStr "Metro")) /\
     (forall j, cell table_nettoyee "mode" j = Some (SStr "Metro") ->
                exists i, f i = Some j) /\
     (forall j, cell table_nettoyee "mode" j = Some SNaN -> forall i, f i <> Some j) /\
     (forall i1 i2 j1 j2,
        i1 < i2 -> f i1 = Some j1 -> f i2 = Some j2 -> j1 < j2)) /\
  (forall d'', filtre_valeur "mode" "Tous" (fun _ => "Tous") table_nettoyee = Ok d'' ->
               d'' = table_nettoyee) /\
  filtre_mode = filtre_valeur "mode" "Tous" /\
  filtre_thematique = filtre_valeur "thematique" "Toutes".
Proof.
  apply (C9_filtre_valeur_exact "mode" "Tous" "Metro" table_nettoyee).
  - set_solver.
  - discriminate.
  - reflexivity.
  - reflexivity.
Defined.

(** ** Distinct values and groups *)

Lemma scalar_eqb_refl x : scalar_eqb x x = true.
Proof.
  destruct x; simpl; try done.
  - apply Z.eqb_refl.
  - apply Qeq_bool_refl.
  - apply String.eqb_refl.
Qed.

Lemma scalar_eqb_sym x y : scalar_eqb x y = scalar_eqb y x.
Proof.
  destruct x, y; simpl; try done;
    first [apply Z.eqb_sym | apply Qeq_bool_comm | apply String.eqb_sym].
Qed.

Lemma scalar_eqb_nan x y : scalar_eqb x y = true -> is_nan x = is_nan y.
Proof. by destruct x, y. Qed.

Section Unique.
Context {A : Type} (eqb : A -> A -> bool).

Lemma elem_of_unique_from seen l x : x ∈ unique_from eqb seen l -> x ∈ l.
Proof.
  revert seen; induction l as [|a l IH]; intros seen; cbn [unique_from]; [done|].
  destruct (existsb (eqb a) seen).
  - intros H. right. by eapply IH.
  - intros H. apply elem_of_cons in H as [->|H]; [left|right; by eapply IH].
Qed.

Lemma elem_of_unique l x : x ∈ unique eqb l -> x ∈ l.
Proof. apply elem_of_unique_from. Qed.

Lemma unique_from_fresh seen l :
  Forall (fun y => existsb (eqb y) seen = false) (unique_from eqb seen l).
Proof.
  revert seen; induction l as [|a l IH]; intros seen; cbn [unique_from];
    [constructor|].
  destruct (existsb (eqb a) seen) eqn:E; [apply IH|].
  constructor; [done|]. eapply Forall_impl; [apply (IH (a :: seen))|].
  intros y; cbn [existsb]. by intros [_ ?]%orb_false_iff.
Qed.

Lemma unique_from_distinct seen l :
  (forall x y, eqb x y = eqb y x) ->
  distinct_by eqb (unique_from eqb seen l).
Proof.
  intros Hsym. revert seen; induction l as [|a l IH]; intros seen;
    cbn [unique_from]; [done|].
  destruct (existsb (eqb a) seen); [apply IH|].
  split; [|apply IH].
  eapply Forall_impl; [apply (unique_from_fresh (a :: seen))|].
  intros y; cbn [existsb]. intros [H _]%orb_false_iff. by rewrite Hsym.
Qed.

Lemma unique_from_complete seen l x :
  (forall x, eqb x x = true) ->
  x ∈ l ->
  existsb (eqb x) seen || existsb (eqb x) (unique_from eqb seen l) = true.
Proof.
  intros Hrefl. revert seen; induction l as [|a l IH]; intros seen Hx;
    [by apply elem_of_nil in Hx|].
  cbn [unique_from]. apply elem_of_cons in Hx as [->|Hx].
  - destruct (existsb (eqb a) seen) eqn:E; [done|].
    cbn [existsb]. by rewrite Hrefl, orb_true_r.
  - destruct (existsb (eqb a) seen) eqn:E; [by apply IH|].
    specialize (IH (a :: seen) Hx). cbn [existsb] in *.
    destruct (eqb x a), (existsb (eqb x) seen); simpl in *; done.
Qed.

Lemma distinct_by_Permutation l k :
  (forall x y, eqb x y = eqb y x) ->
  l ≡ₚ k -> distinct_by eqb l -> distinct_by eqb k.
Proof.
  intros Hsym Hp. induction Hp as [|x l k Hp IH|x y l|l k m _ IH1 _ IH2];
    cbn [distinct_by]; try done.
  - intros [H1 H2]. split; [by rewrite <- Hp|by apply IH].
  - intros [H1 [H2 H3]]. apply Forall_cons in H1 as [Hyx H1].
    repeat split; try done. constructor; [by rewrite Hsym|done].
  - auto.
Qed.

Lemma distinct_by_take n l : distinct_by eqb l -> distinct_by eqb (take n l).
Proof.
  revert n; induction l as [|x l IH]; intros [|n]; cbn; try done.
  intros [H1 H2]. split; [by apply Forall_take|by apply IH].
Qed.
End Unique.

Lemma sort_by_Permutation {A} (f : A -> A -> bool) l : sort_by f l ≡ₚ l.
Proof. apply merge_sort_Permutation. Qed.

Lemma elem_of_sort_by {A} (f : A -> A -> bool) l x : x ∈ sort_by f l <-> x ∈ l.
Proof. by rewrite sort_by_Permutation. Qed.

Section Groups.
Abbreviation keys := (group_keys scalar_eqb scalar_leb is_nan).

Lemma elem_of_group_keys ks k :
  k ∈ keys ks -> k ∈ ks /\ is_nan k = false.
Proof.
  unfold group_keys. rewrite elem_of_sort_by. intros H%elem_of_unique.
  apply list_elem_of_In, filter_In in H as [H1 H2].
  split; [by apply list_elem_of_In|]. by destruct (is_nan k).
Qed.

Lemma group_keys_distinct ks : distinct_by scalar_eqb (keys ks).
Proof.
  unfold group_keys.
  eapply (distinct_by_Permutation _ _ _ scalar_eqb_sym);
    [symmetry; apply sort_by_Permutation|].
  apply unique_from_distinct, scalar_eqb_sym.
Qed.

Lemma group_keys_complete ks x :
  x ∈ ks -> is_nan x = false ->
  exists k, k ∈ keys ks /\ scalar_eqb x k = true.
Proof.
  intros Hx Hn.
  assert (Hf : x ∈ List.filter (fun k => negb (is_nan k)) ks).
  { apply list_elem_of_In, filter_In. split; [by apply list_elem_of_In|].
    by rewrite Hn. }
  pose proof (unique_from_complete scalar_eqb [] _ x scalar_eqb_refl Hf) as H.
  cbn [existsb orb] in H. apply existsb_exists in H as (k & Hk & E).
  exists k. split; [|done]. unfold group_keys. rewrite elem_of_sort_by.
  by apply list_elem_of_In.
Qed.

Lemma groupby_mean_keys ks vs :
  fst <$> groupby_mean scalar_eqb scalar_leb is_nan ks vs = keys ks.
Proof.
  unfold groupby_mean. rewrite <- list_fmap_compose.
  rewrite <- (list_fmap_id (keys ks)) at 2. by apply list_fmap_ext.
Qed.

Lemma elem_of_groupby_mean ks vs r :
  r ∈ groupby_mean scalar_eqb scalar_leb is_nan ks vs ->
  fst r ∈ keys ks /\ snd r = mean (group_values scalar_eqb ks vs (fst r)).
Proof.
  unfold groupby_mean. intros (k & -> & Hk)%list_elem_of_fmap. done.
Qed.
End Groups.

(** ** Ascending means *)

Lemma mean_leb_total x y : mean_leb x y = true \/ mean_leb y x = true.
Proof.
  destruct x as [p|], y as [q|]; simpl; auto.
  destruct (Qlt_le_dec p q) as [H|H].
  - left. apply Qle_bool_iff. by apply Qlt_le_weak.
  - right. by apply Qle_bool_iff.
Qed.

Lemma mean_leb_trans x y z :
  mean_leb x y = true -> mean_leb y z = true -> mean_leb x z = true.
Proof.
  destruct x as [p|], y as [q|], z as [r|]; simpl; try done.
  rewrite !Qle_bool_iff. apply Qle_trans.
Qed.

Global Instance by_mean_total :
  Total (holds (fun a b : scalar * option Q => mean_leb (snd a) (snd b))).
Proof. intros a b. apply mean_leb_total. Qed.

Global Instance by_mean_trans :
  Transitive (holds (fun a b : scalar * option Q => mean_leb (snd a) (snd b))).
Proof. intros a b c. apply mean_leb_trans. Qed.

Lemma tri_croissant_sorted l :
  StronglySorted (holds (fun a b => mean_leb (snd a) (snd b))) (tri_croissant l).
Proof. apply StronglySorted_merge_sort; apply _. Qed.

Lemma StronglySorted_take {A} (R : relation A) n l :
  StronglySorted R l -> StronglySorted R (take n l).
Proof.
  intros H. rewrite <- (take_drop n l) in H. by apply StronglySorted_app_1_l in H.
Qed.

Lemma StronglySorted_lookup {A} (R : relation A) l i j a b :
  StronglySorted R l -> i < j -> l !! i = Some a -> l !! j = Some b -> R a b.
Proof.
  intros H; revert i j; induction H as [|x l _ IH Hx]; intros i j Hlt; [done|].
  destruct j as [|j]; [lia|]. destruct i as [|i]; simpl.
  - intros [= <-] Hb. rewrite Forall_forall in Hx. apply Hx.
    by eapply list_elem_of_lookup_2.
  - apply IH. lia.
Qed.

(** ** Means of groups *)

Lemma mean_is_Some vs :
  vs <> [] -> Forall is_Some vs -> is_Some (mean vs).
Proof.
  intros Hne Hall. unfold mean. destruct vs as [|v vs]; [done|].
  apply Forall_cons in Hall as [[q ->] _]. cbn [omap list_omap id].
  by eexists.
Qed.

Lemma group_values_Forall {V} (P : V -> Prop) ks vs k :
  Forall P vs -> Forall P (group_values scalar_eqb ks vs k).
Proof.
  intros H. unfold group_values. rewrite Forall_fmap.
  rewrite Forall_forall. intros [k' v] Hin.
  apply list_elem_of_In, filter_In in Hin as [Hin _].
  apply list_elem_of_In, elem_of_zip_r in Hin. cbn.
  rewrite Forall_forall in H. by apply H.
Qed.

Lemma group_values_nonempty {V} ks (vs : list V) k :
  length ks = length vs -> k ∈ ks -> group_values scalar_eqb ks vs k <> [].
Proof.
  intros Hl Hk. apply list_elem_of_lookup in Hk as [i Hi].
  destruct (vs !! i) as [v|] eqn:Hv.
  2:{ apply lookup_ge_None in Hv. apply lookup_lt_Some in Hi. lia. }
  assert (Hin : In (k, v) (List.filter (fun kv => scalar_eqb (fst kv) k) (zip ks vs))).
  { apply filter_In. split; [|apply scalar_eqb_refl].
    apply list_elem_of_In, list_elem_of_lookup. exists i.
    by rewrite lookup_zip_with, Hi, Hv. }
  unfold group_values. destruct (List.filter _ _); [done|]. done.
Qed.

Lemma numeric_values_length s vs :
  numeric_values s = Ok vs -> length vs = Pd.size s.
Proof.
  unfold numeric_values, Pd.size.
  destruct s as [xs|xs|xs]; cbn [Pd.values].
  - intros [= <-]. by rewrite !length_fmap.
  - intros [= <-]. by rewrite !length_fmap.
  - destruct (existsb is_str xs); [done|]. intros [= <-]. by rewrite length_fmap.
Qed.

Lemma numeric_values_take m s vs :
  numeric_values s = Ok vs ->
  numeric_values (Pd.take m s) = Ok (mask_filter m vs).
Proof.
  destruct s as [xs|xs|xs]; cbn [numeric_values Pd.take Pd.values].
  - intros [= <-]. by rewrite !mask_filter_fmap.
  - intros [= <-]. by rewrite !mask_filter_fmap.
  - destruct (existsb is_str xs) eqn:E; [done|]. intros [= <-].
    destruct (existsb is_str (mask_filter m xs)) eqn:E'.
    + apply existsb_mask_filter in E'. congruence.
    + by rewrite mask_filter_fmap.
Qed.

Lemma elem_of_take_l {A} n (l : list A) x : x ∈ take n l -> x ∈ l.
Proof.
  intros H. rewrite <- (take_drop n l). apply elem_of_app. by left.
Qed.

(** What [moyenne_par] gives on a table whose [valeur_reelle] column is
    numeric: one row per distinct key that is present, with the mean of the
    values of the rows carrying the key. *)
Lemma moyenne_par_ok col d k v vs :
  Pd.getitem d col = Ok k -> Pd.getitem d "valeur_reelle" = Ok v ->
  numeric_values v = Ok vs ->
  moyenne_par col d
  = Ok (groupby_mean scalar_eqb scalar_leb is_nan (Pd.values k) vs).
Proof.
  intros Hk Hv Hvs. unfold moyenne_par.
  rewrite Hk; cbn [mbind exc_bind]. rewrite Hv; cbn [mbind exc_bind].
  by rewrite Hvs.
Qed.

Lemma groupby_mean_Some ks vs r :
  length ks = length vs -> Forall is_Some vs ->
  r ∈ groupby_mean scalar_eqb scalar_leb is_nan ks vs -> is_Some (snd r).
Proof.
  intros Hl Hall Hr. apply elem_of_groupby_mean in Hr as [Hk ->].
  apply elem_of_group_keys in Hk as [Hk _].
  apply mean_is_Some; [by apply group_values_nonempty|by apply group_values_Forall].
Qed.

(** ** Normalised tables *)

Lemma all_size_rectangular n d : all_size n d -> Pd.rectangular d = true.
Proof.
  unfold all_size. intros H. apply rectangular_sizes. intros c Hc.
  rewrite Forall_forall in H. rewrite (H c Hc). unfold Pd.nrows.
  destruct (cols d) as [|c0 l]; [by apply elem_of_nil in Hc|].
  symmetry. apply H. left.
Qed.

Lemma rectangular_all_size d : Pd.rectangular d = true -> all_size (Pd.nrows d) d.
Proof.
  intros H. apply Forall_forall. by apply rectangular_sizes.
Qed.

Lemma all_size_getitem n d col s :
  all_size n d -> Pd.getitem d col = Ok s -> Pd.size s = n.
Proof.
  intros H Hs. apply getitem_elem in Hs.
  unfold all_size in H. rewrite Forall_forall in H. exact (H _ Hs).
Qed.

Lemma all_size_fmap n (F : string * Series -> string * Series) d :
  (forall c, Pd.size (snd (F c)) = Pd.size (snd c)) ->
  all_size n d -> all_size n (mkFrame (F <$> cols d)).
Proof.
  intros HF H. unfold all_size in *. cbn [cols]. rewrite Forall_fmap.
  eapply Forall_impl; [exact H|]. intros c Hc. cbn. by rewrite HF.
Qed.

Lemma zip_fst_fmap {A B C} (g : A -> C) (l : list (A * B)) :
  zip (g <$> (fst <$> l)) (snd <$> l) = (fun c => (g (fst c), snd c)) <$> l.
Proof. induction l as [|c l IH]; [done|]. cbn. by rewrite IH. Qed.

Lemma all_size_entetes n d : all_size n d -> all_size n (etape_entetes d).
Proof.
  intros H. unfold etape_entetes, Pd.set_columns, Pd.columns.
  rewrite zip_fst_fmap. by apply (all_size_fmap n (fun c => (_, snd c))).
Qed.

Lemma all_size_renommage n d : all_size n d -> all_size n (etape_renommage d).
Proof.
  intros H. unfold etape_renommage, Pd.rename. apply all_size_fmap; [|done].
  intros c. by destruct (List.find _ _).
Qed.

Lemma all_size_setitem n col s d :
  all_size n d -> Pd.size s = n -> all_size n (Pd.setitem col s d).
Proof.
  intros H Hs. unfold Pd.setitem. destruct (Pd.has d col).
  - unfold all_size in *. cbn [cols]. rewrite Forall_fmap.
    eapply Forall_impl; [exact H|]. intros c Hc. cbn.
    by destruct (String.eqb (fst c) col).
  - unfold all_size in *. cbn [cols]. apply Forall_app. split; [done|].
    by constructor.
Qed.

Lemma coercion_size s s' : coercion s = Ok s' -> Pd.size s' = Pd.size s.
Proof.
  destruct s as [xs|xs|xs].
  - by intros [= <-].
  - by intros [= <-].
  - rewrite coercion_object. intros [= <-].
    rewrite numeric_of_size. unfold Pd.size. cbn [Pd.values].
    by rewrite length_fmap.
Qed.

Lemma coercion_numeric s s' : coercion s = Ok s' -> Pd.dtype_is_object s' = false.
Proof.
  destruct s as [xs|xs|xs].
  - by intros [= <-].
  - by intros [= <-].
  - rewrite coercion_object. intros [= <-]. unfold Pd.numeric_of.
    by destruct (mapM Pd.as_int _).
Qed.

Lemma add_size s t k :
  Pd.add s t = Ok k -> Pd.size k = Nat.min (Pd.size s) (Pd.size t).
Proof.
  unfold Pd.add, Pd.size.
  destruct s as [xs|xs|xs], t as [ys|ys|ys]; cbn [fmap exc_fmap];
    try (intros [= <-]; cbn [Pd.values];
         by rewrite ?length_fmap, length_zip_with, ?length_fmap);
    (lazymatch goal with
     | |- context [mapM ?F ?L] => destruct (mapM F L) as [l|e] eqn:Hl; [|done]
     end; cbn [fmap exc_fmap]; intros [= <-]; cbn [Pd.values];
     apply mapM_exc_length in Hl; rewrite Hl; apply length_zip_with).
Qed.

Lemma trim_num_size t : Pd.size (trim_num t) = Pd.size t.
Proof.
  unfold Pd.size. rewrite <- (length_fmap Pd.as_float), trim_num_values.
  apply length_fmap.
Qed.

Lemma mul_size s n : Pd.size (Pd.mul s n) = Pd.size s.
Proof.
  unfold Pd.size. destruct s; cbn [Pd.mul Pd.values]; by rewrite !length_fmap.
Qed.

Lemma concat_periode_size a t l :
  concat_periode a t = Ok l -> Pd.size l = Nat.min (Pd.size a) (Pd.size t).
Proof.
  rewrite concat_periode_ok. intros [= <-]. unfold Pd.size. cbn [Pd.values].
  apply length_zip_with.
Qed.

Lemma all_size_numerique n col d d' :
  all_size n d -> etape_numerique col d = Ok d' -> all_size n d'.
Proof.
  intros H. unfold etape_numerique. destruct (Pd.has d col); [|by intros [= <-]].
  destruct (Pd.getitem d col) as [s|e] eqn:Hs; cbn [mbind exc_bind]; [|done].
  destruct (coercion s) as [s'|e] eqn:Hc; cbn [mbind exc_bind]; [|done].
  intros [= <-]. apply all_size_setitem; [done|].
  by rewrite (coercion_size _ _ Hc), (all_size_getitem _ _ _ _ H Hs).
Qed.

Lemma all_size_periode n d d' :
  all_size n d -> etape_periode d = Ok d' -> all_size n d'.
Proof.
  intros H. unfold etape_periode.
  destruct (Pd.has d "annee" && Pd.has d "trimestre"); [|by intros [= <-]].
  destruct (Pd.getitem d "annee") as [a|e] eqn:Ha; cbn [mbind exc_bind]; [|done].
  destruct (Pd.getitem d "trimestre") as [t|e] eqn:Ht; cbn [mbind exc_bind]; [|done].
  destruct (concat_periode a t) as [l|e] eqn:Hl; cbn [mbind exc_bind]; [|done].
  destruct (Pd.add _ _) as [k|e] eqn:Hk; cbn [mbind exc_bind]; [|done].
  intros [= <-].
  pose proof (all_size_getitem _ _ _ _ H Ha) as Sa.
  pose proof (all_size_getitem _ _ _ _ H Ht) as St.
  apply all_size_setitem; [apply all_size_setitem; [done|]|].
  - rewrite (concat_periode_size _ _ _ Hl). lia.
  - rewrite (add_size _ _ _ Hk), mul_size, trim_num_size. lia.
Qed.

Lemma avant_dropna_all_size n d d0 :
  all_size n d -> avant_dropna d = Ok d0 -> all_size n d0.
Proof.
  intros H. unfold avant_dropna.
  destruct (etape_numerique "valeur_reelle" _) as [d3|e] eqn:H3;
    cbn [mbind exc_bind]; [|done].
  destruct (etape_numerique "valeur_objectif" d3) as [d3'|e] eqn:H3';
    cbn [mbind exc_bind]; [|done].
  intros H4.
  eapply all_size_periode; [|exact H4].
  eapply all_size_numerique; [|exact H3'].
  eapply all_size_numerique; [|exact H3].
  by apply all_size_renommage, all_size_entetes.
Qed.

Lemma etape_numerique_other col d d' c :
  c <> col -> etape_numerique col d = Ok d' ->
  Pd.getitem d' c = Pd.getitem d c.
Proof.
  intros Hc. unfold etape_numerique. destruct (Pd.has d col); [|by intros [= <-]].
  destruct (Pd.getitem d col) as [s|e]; cbn [mbind exc_bind]; [|done].
  destruct (coercion s) as [s'|e]; cbn [mbind exc_bind]; [|done].
  intros [= <-]. by apply getitem_setitem_ne.
Qed.

Lemma etape_numerique_self col d d' s' :
  etape_numerique col d = Ok d' -> Pd.getitem d' col = Ok s' ->
  Pd.dtype_is_object s' = false.
Proof.
  unfold etape_numerique. destruct (Pd.has d col) eqn:Hh.
  - destruct (Pd.getitem d col) as [s|e] eqn:Hs; cbn [mbind exc_bind]; [|done].
    destruct (coercion s) as [s1|e] eqn:Hc; cbn [mbind exc_bind]; [|done].
    intros [= <-]. rewrite (getitem_setitem_eq _ _ _ _ Hs). intros [= <-].
    by eapply coercion_numeric.
  - intros [= <-] Hs. by rewrite (has_getitem _ _ _ Hs) in Hh.
Qed.

Lemma etape_periode_other d d' c :
  c <> "periode_label" -> c <> "sort_key" -> etape_periode d = Ok d' ->
  Pd.getitem d' c = Pd.getitem d c.
Proof.
  intros H1 H2. unfold etape_periode.
  destruct (Pd.has d "annee" && Pd.has d "trimestre"); [|by intros [= <-]].
  destruct (Pd.getitem d "annee") as [a|e]; cbn [mbind exc_bind]; [|done].
  destruct (Pd.getitem d "trimestre") as [t|e]; cbn [mbind exc_bind]; [|done].
  destruct (concat_periode a t) as [l|e]; cbn [mbind exc_bind]; [|done].
  destruct (Pd.add _ _) as [k|e]; cbn [mbind exc_bind]; [|done].
  intros [= <-]. by rewrite !getitem_setitem_ne.
Qed.

(** Before step 5 the [valeur_reelle] column, when there is one, is
    numeric. *)
Lemma avant_dropna_numeric d d0 s0 :
  avant_dropna d = Ok d0 -> Pd.getitem d0 "valeur_reelle" = Ok s0 ->
  Pd.dtype_is_object s0 = false.
Proof.
  unfold avant_dropna.
  destruct (etape_numerique "valeur_reelle" _) as [d3|e] eqn:H3;
    cbn [mbind exc_bind]; [|done].
  destruct (etape_numerique "valeur_objectif" d3) as [d3'|e] eqn:H3';
    cbn [mbind exc_bind]; [|done].
  intros H4 Hs0.
  rewrite (etape_periode_other _ _ "valeur_reelle"
             ltac:(discriminate) ltac:(discriminate) H4),
          (etape_numerique_other "valeur_objectif" _ _ "valeur_reelle"
             ltac:(discriminate) H3') in Hs0.
  exact (etape_numerique_self _ _ _ _ H3 Hs0).
Qed.

Lemma numeric_values_numeric s :
  Pd.dtype_is_object s = false ->
  numeric_values s = Ok (Pd.as_float <$> Pd.values s).
Proof. by destruct s. Qed.

Lemma as_float_present s :
  Pd.dtype_is_object s = false ->
  Forall (fun x => is_nan x = false) (Pd.values s) ->
  Forall is_Some (Pd.as_float <$> Pd.values s).
Proof.
  intros Hs H. rewrite Forall_fmap.
  destruct s as [xs|xs|xs]; [| |done]; cbn [Pd.values] in *;
    rewrite Forall_fmap in *; eapply Forall_impl; try exact H.
  - intros z _. by eexists.
  - intros [q|] Hq; [by eexists|done].
Qed.

Lemma take_numeric m s :
  Pd.dtype_is_object (Pd.take m s) = Pd.dtype_is_object s.
Proof. by destruct s. Qed.

Lemma normalisee_iff d :
  normalisee d = true <->
  Pd.rectangular d = true /\
  forall v, Pd.getitem d "valeur_reelle" = Ok v ->
    exists vs, numeric_values v = Ok vs /\ Forall is_Some vs.
Proof.
  unfold normalisee. rewrite andb_true_iff.
  assert (Hp : forall vs, forallb present vs = true <-> Forall is_Some vs).
  { intros vs. rewrite forallb_forall, Forall_forall. split.
    - intros H o Ho. apply list_elem_of_In, H in Ho. by destruct o.
    - intros H o Ho. apply list_elem_of_In, H in Ho as [q ->]. done. }
  split; intros [Hr Hv]; (split; [done|]).
  - intros v Ev. rewrite Ev in Hv.
    destruct (numeric_values v) as [vs|e]; [|done]. exists vs. by rewrite <- Hp.
  - destruct (Pd.getitem d "valeur_reelle") as [v|e]; [|done].
    destruct (Hv v eq_refl) as (vs & -> & Hall). by apply Hp.
Qed.

(** The table [nettoyer] returns is normalised. *)
Theorem nettoyer_normalisee d d' :
  Pd.rectangular d = true -> nettoyer d = Ok d' -> normalisee d' = true.
Proof.
  intros Hr Hn. apply normalisee_iff.
  destruct (nettoyer_dropna _ _ Hn) as (d0 & H0 & Hcase).
  pose proof (avant_dropna_all_size _ _ _ (rectangular_all_size _ Hr) H0) as Hs0.
  destruct (Pd.has d0 "valeur_reelle") eqn:Hh.
  - destruct Hcase as (s0 & Hg0 & ->). split.
    + by apply rectangular_loc, (all_size_rectangular (Pd.nrows d)).
    + intros v. rewrite getitem_loc, Hg0. cbn [fmap exc_fmap]. intros [= <-].
      pose proof (avant_dropna_numeric _ _ _ H0 Hg0) as Hnum.
      eexists. split.
      * apply numeric_values_numeric. by rewrite take_numeric.
      * apply as_float_present; [by rewrite take_numeric|apply notna_take].
  - subst d'. split; [by apply (all_size_rectangular (Pd.nrows d))|].
    intros v Hv. by rewrite (has_getitem _ _ _ Hv) in Hh.
Qed.

Lemma normalisee_selection d d' :
  selection d d' -> normalisee d = true -> normalisee d' = true.
Proof.
  intros [->|[m ->]]; [done|]. rewrite !normalisee_iff.
  intros [Hr Hv]. split; [by apply rectangular_loc|].
  intros v. rewrite getitem_loc.
  destruct (Pd.getitem d "valeur_reelle") as [v0|e]; [|done].
  cbn [fmap exc_fmap]. intros [= <-].
  destruct (Hv v0 eq_refl) as (vs & Hvs & Hall).
  exists (mask_filter m vs). split; [by apply numeric_values_take|].
  by apply Forall_mask_filter.
Qed.

Lemma filtre_annee_selection choose d d' :
  filtre_annee choose d = Ok d' -> selection d d'.
Proof.
  unfold filtre_annee. destruct (Pd.has d "annee"); [|intros [= <-]; by left].
  destruct (annees_dispo d) as [dispo|e]; cbn [mbind exc_bind]; [|done].
  destruct (choose dispo) as [|x sel]; [intros [= <-]; by left|].
  destruct (Pd.getitem d "annee") as [s|e]; cbn [mbind exc_bind]; [|done].
  intros [= <-]. right. by eexists.
Qed.

Lemma filtre_valeur_selection_any col tous choose d d' :
  filtre_valeur col tous choose d = Ok d' -> selection d d'.
Proof.
  unfold filtre_valeur. destruct (Pd.has d col); [|intros [= <-]; by left].
  destruct (options_dispo tous col d) as [dispo|e]; cbn [mbind exc_bind]; [|done].
  destruct (negb _); [|intros [= <-]; by left].
  destruct (Pd.getitem d col) as [s|e]; cbn [mbind exc_bind]; [|done].
  intros [= <-]. right. by eexists.
Qed.

(** The filters keep a table normalised. *)
Theorem filtrer_normalisee u d d' :
  normalisee d = true -> filtrer u d = Ok d' -> normalisee d' = true.
Proof.
  intros Hn. unfold filtrer, filtre_mode, filtre_thematique.
  destruct (filtre_annee _ d) as [da|e] eqn:Ha; cbn [mbind exc_bind]; [|done].
  destruct (filtre_valeur "mode" _ _ da) as [dm|e] eqn:Hm;
    cbn [mbind exc_bind]; [|done].
  intros Ht.
  apply (normalisee_selection dm); [by eapply filtre_valeur_selection_any|].
  apply (normalisee_selection da); [by eapply filtre_valeur_selection_any|].
  apply (normalisee_selection d); [by eapply filtre_annee_selection|done].
Qed.

Lemma table_rendue_normalisee r w d d' :
  heap w !! r = Some d -> Pd.rectangular d = true ->
  table_rendue r w = Some d' -> normalisee d' = true.
Proof.
  intros Hd Hr Ht. destruct (table_rendue_nettoyer _ _ _ Ht) as (d0 & Hd0 & Hn).
  rewrite Hd in Hd0. injection Hd0 as <-. by eapply nettoyer_normalisee.
Qed.

(** ** C8 *)

(** C8. Filtering is idempotent: on a normalised table, with the widgets
    set to given years, mode and thematique, filtering the filtered table
    again gives the same table. *)
Theorem C8_filtrage_idempotent annees_sel mode_sel theme_sel d d1 :
  normalisee d = true ->
  filtrer (criteres annees_sel mode_sel theme_sel) d = Ok d1 ->
  filtrer (criteres annees_sel mode_sel theme_sel) d1 = Ok d1.
Proof.
  intros [Hr _]%normalisee_iff.
  unfold filtrer, criteres, filtre_mode, filtre_thematique.
  cbn [multiselect selectbox].
  change (String.eqb "Mode de transport" "Mode de transport") with true.
  change (String.eqb "Thématique" "Mode de transport") with false.
  cbv iota.
  destruct (filtre_annee _ d) as [da|e] eqn:Ha; [|done]. cbn [mbind exc_bind].
  destruct (filtre_valeur "mode" _ _ da) as [dm|e] eqn:Hm; [|done].
  cbn [mbind exc_bind]. intros Ht.
  destruct (filtre_annee_cases _ _ _ Ha) as (Sa & Oa & Ca).
  destruct (filtre_valeur_selection _ _ _ _ _ Hm) as (Sm & Cm).
  destruct (filtre_valeur_cases _ _ _ _ _ Hm) as [Om _].
  destruct (filtre_valeur_selection _ _ _ _ _ Ht) as (St & Ct).
  destruct (filtre_valeur_cases _ _ _ _ _ Ht) as [Ot _].
  assert (Hr1 : Pd.rectangular d1 = true).
  { by apply (rectangular_selection dm), (rectangular_selection da),
             (rectangular_selection d). }
  rewrite filtre_annee_fix; [cbn [mbind exc_bind]|done| |].
  - rewrite filtre_valeur_fix; [cbn [mbind exc_bind]|done| |].
    + apply filtre_valeur_fix; [done| |done].
      rewrite (has_selection _ _ _ St), (getitem_ok_selection _ _ _ St). exact Ot.
    + rewrite (has_selection _ _ _ St), (getitem_ok_selection _ _ _ St),
        (has_selection _ _ _ Sm), (getitem_ok_selection _ _ _ Sm). exact Om.
    + intros Hne. by apply (column_all_selection _ dm), Cm.
  - rewrite (has_selection _ _ _ St), (has_selection _ _ _ Sm),
      (has_selection _ _ _ Sa). intros Hh.
    by apply (annees_dispo_selection dm), (annees_dispo_selection da),
             (annees_dispo_selection d), Oa.
  - intros Hne. by apply (column_all_selection _ dm), (column_all_selection _ da), Ca.
Qed.

Lemma C8_witness :
  filtrer (criteres [SInt 2024] "Metro" "Toutes")
          (Pd.loc [false; false; true] table_nettoyee)
  = Ok (Pd.loc [false; false; true] table_nettoyee).
Proof.
  apply (C8_filtrage_idempotent [SInt 2024] "Metro" "Toutes" table_nettoyee);
    reflexivity.
Defined.

(** ** When [nettoyer_donnees] returns *)

Lemma getitem_NoDup d col :
  NoDup (Pd.columns d) -> Pd.has d col = true -> is_ok (Pd.getitem d col) = true.
Proof.
  unfold Pd.has, Pd.getitem, Pd.columns. destruct d as [l]; cbn [cols].
  induction l as [|c l IH]; [done|]. cbn [fmap list_fmap existsb List.filter].
  intros [Hc Hl]%NoDup_cons. rewrite (String.eqb_sym col).
  destruct (String.eqb_spec (fst c) col) as [E|E]; cbn [orb].
  - intros _. assert (Pd.has (mkFrame l) col = false) as Hno.
    { apply not_true_is_false. intros Hh. apply Hc.
      apply existsb_exists in Hh as (x & Hx & Ex). apply String.eqb_eq in Ex.
      subst. by apply list_elem_of_In. }
    pose proof (has_false_filter (mkFrame l) col Hno) as Hf.
    cbn [cols] in Hf. by rewrite Hf.
  - intros Hh. by apply IH.
Qed.

Lemma columns_setitem col s d :
  Pd.columns (Pd.setitem col s d)
  = if Pd.has d col then Pd.columns d else (Pd.columns d ++ [col])%list.
Proof.
  unfold Pd.setitem. destruct (Pd.has d col); unfold Pd.columns; cbn [cols].
  - rewrite <- list_fmap_compose. apply list_fmap_ext.
    intros i c _. cbn. by destruct (String.eqb (fst c) col).
  - by rewrite fmap_app.
Qed.

Lemma NoDup_setitem col s d :
  NoDup (Pd.columns d) -> NoDup (Pd.columns (Pd.setitem col s d)).
Proof.
  intros H. rewrite columns_setitem. destruct (Pd.has d col) eqn:Hh; [done|].
  apply NoDup_app. repeat split; [done| |apply NoDup_singleton].
  intros x Hx ->%list_elem_of_singleton.
  assert (Pd.has d col = true); [|congruence].
  apply existsb_exists. exists col. split; [by apply list_elem_of_In|].
  apply String.eqb_refl.
Qed.

Lemma mapM_exc_is_ok {A B} (f : A -> exc B) (l : list A) :
  (forall x, x ∈ l -> is_ok (f x) = true) -> is_ok (mapM f l) = true.
Proof.
  induction l as [|x l IH]; intros H; [done|]. cbn [mapM].
  specialize (H x) as Hx. destruct (f x); [|by discriminate Hx; left].
  cbn [mbind exc_bind].
  destruct (mapM f l); [done|]. discriminate IH. intros y Hy. apply H. by right.
Qed.

Lemma py_add_ok x y :
  is_str x = false -> is_str y = false -> is_ok (Pd.py_add x y) = true.
Proof.
  destruct x, y; simpl; try done;
    by repeat match goal with |- context [match ?o with _ => _ end] => destruct o end.
Qed.

Lemma values_numeric s x :
  Pd.dtype_is_object s = false -> x ∈ Pd.values s -> is_str x = false.
Proof.
  destruct s as [xs|xs|xs]; [| |done]; intros _; cbn [Pd.values];
    intros (y & -> & _)%list_elem_of_fmap; [done|by destruct y].
Qed.

Lemma add_is_ok s t :
  existsb is_str (Pd.values s) = false ->
  existsb is_str (Pd.values t) = false ->
  is_ok (Pd.add s t) = true.
Proof.
  intros Hs Ht.
  assert (Hobj : is_ok (Object <$>
            mapM (fun xy : scalar * scalar =>
                    if is_nan (fst xy) || is_nan (snd xy) then Ok SNaN
                    else Pd.py_add (fst xy) (snd xy))
                 (zip (Pd.values s) (Pd.values t))) = true).
  { match goal with |- is_ok (_ <$> ?m) = true =>
      assert (is_ok m = true) as Hm; [|by destruct m] end.
    apply mapM_exc_is_ok. intros [x y] Hxy. cbn [fst snd].
    destruct (is_nan x || is_nan y); [done|].
    pose proof (elem_of_zip_l _ _ _ _ Hxy) as Hx.
    pose proof (elem_of_zip_r _ _ _ _ Hxy) as Hy.
    apply py_add_ok; apply not_true_is_false; intros E.
    - assert (existsb is_str (Pd.values s) = true); [|congruence].
      apply existsb_exists. exists x. split; [by apply list_elem_of_In|done].
    - assert (existsb is_str (Pd.values t) = true); [|congruence].
      apply existsb_exists. exists y. split; [by apply list_elem_of_In|done]. }
  unfold Pd.add. destruct s, t; try done; exact Hobj.
Qed.

Lemma trim_num_numeric t : Pd.dtype_is_object (trim_num t) = false.
Proof.
  unfold trim_num, Pd.map_dict, Pd.numeric_of.
  by destruct (mapM Pd.as_int _).
Qed.

Lemma existsb_is_str_numeric s :
  Pd.dtype_is_object s = false -> existsb is_str (Pd.values s) = false.
Proof.
  intros Hs. apply not_true_is_false. intros (x & Hx & E)%existsb_exists.
  apply list_elem_of_In in Hx. by rewrite (values_numeric s x Hs Hx) in E.
Qed.

Lemma existsb_is_str_mul s n :
  existsb is_str (Pd.values (Pd.mul s n)) = existsb is_str (Pd.values s).
Proof.
  destruct s as [xs|xs|xs]; cbn [Pd.mul Pd.values].
  - induction xs as [|x l IH]; [done|]. cbn [fmap list_fmap existsb]. by rewrite IH.
  - induction xs as [|[q|] l IH]; [done| |]; cbn [fmap list_fmap existsb];
      by rewrite IH.
  - induction xs as [|x l IH]; [done|].
    cbn [fmap list_fmap existsb]. rewrite IH. by destruct x.
Qed.

Lemma etape_numerique_ok col d :
  NoDup (Pd.columns d) ->
  exists d', etape_numerique col d = Ok d' /\
             Pd.columns d' = Pd.columns d /\
             (forall c, c <> col -> Pd.getitem d' c = Pd.getitem d c).
Proof.
  intros Hnd. unfold etape_numerique. destruct (Pd.has d col) eqn:Hh; [|by eexists].
  pose proof (getitem_NoDup _ _ Hnd Hh) as Hg.
  destruct (Pd.getitem d col) as [s|e]; [|done]. cbn [mbind exc_bind].
  destruct (coercion_total s) as [s' ->]. cbn [mbind exc_bind].
  eexists. split; [done|]. split.
  - by rewrite columns_setitem, Hh.
  - intros c Hc. by apply getitem_setitem_ne.
Qed.

(** [nettoyer] returns a table whenever, once the headers are normalised
    and renamed, no label is carried by two columns and, when the derived
    columns are computed, the year column holds no text. *)
Theorem nettoyer_total d :
  NoDup (Pd.columns (etape_renommage (etape_entetes d))) ->
  (Pd.has (etape_renommage (etape_entetes d)) "trimestre" = true ->
   forall a, Pd.getitem (etape_renommage (etape_entetes d)) "annee" = Ok a ->
             existsb is_str (Pd.values a) = false) ->
  exists d', nettoyer d = Ok d'.
Proof.
  set (d2 := etape_renommage (etape_entetes d)). intros Hnd Hannee.
  unfold nettoyer, avant_dropna. fold d2.
  destruct (etape_numerique_ok "valeur_reelle" d2 Hnd) as (d3 & -> & Hc3 & Hg3).
  cbn [mbind exc_bind].
  assert (Hnd3 : NoDup (Pd.columns d3)) by by rewrite Hc3.
  destruct (etape_numerique_ok "valeur_objectif" d3 Hnd3) as (d3' & -> & Hc3' & Hg3').
  cbn [mbind exc_bind].
  assert (Hnd3' : NoDup (Pd.columns d3')) by by rewrite Hc3'.
  assert (Hhas : forall c, Pd.has d3' c = Pd.has d2 c).
  { intros c. unfold Pd.has. by rewrite Hc3', Hc3. }
  assert (exists d0, etape_periode d3' = Ok d0 /\ NoDup (Pd.columns d0))
    as (d0 & -> & Hnd0).
  { unfold etape_periode.
    destruct (Pd.has d3' "annee" && Pd.has d3' "trimestre") eqn:Hh; [|by eexists].
    apply andb_true_iff in Hh as [Ha Ht].
    pose proof (getitem_NoDup _ _ Hnd3' Ha) as Hga.
    pose proof (getitem_NoDup _ _ Hnd3' Ht) as Hgt.
    destruct (Pd.getitem d3' "annee") as [a|e] eqn:Ea; [|done].
    destruct (Pd.getitem d3' "trimestre") as [t|e] eqn:Et; [|done].
    cbn [mbind exc_bind]. rewrite concat_periode_ok. cbn [mbind exc_bind].
    assert (is_ok (Pd.add (Pd.mul a 10) (trim_num t)) = true) as Hk.
    { apply add_is_ok.
      - rewrite existsb_is_str_mul. apply Hannee; [by rewrite <- Hhas|].
        by rewrite <- Ea, Hg3', Hg3.
      - apply existsb_is_str_numeric, trim_num_numeric. }
    destruct (Pd.add _ _) as [k|e]; [|done]. cbn [mbind exc_bind].
    eexists. split; [done|]. by do 2 apply NoDup_setitem. }
  cbn [mbind exc_bind]. unfold etape_dropna, Pd.dropna.
  destruct (Pd.has d0 "valeur_reelle") eqn:Hh; [|by eexists].
  pose proof (getitem_NoDup _ _ Hnd0 Hh) as Hg.
  destruct (Pd.getitem d0 "valeur_reelle") as [s|e]; [|done].
  cbn [mbind exc_bind]. by eexists.
Qed.

(** Under the same conditions [nettoyer_donnees] returns its argument. *)
Theorem nettoyer_donnees_total r w d :
  heap w !! r = Some d ->
  NoDup (Pd.columns (etape_renommage (etape_entetes d))) ->
  (Pd.has (etape_renommage (etape_entetes d)) "trimestre" = true ->
   forall a, Pd.getitem (etape_renommage (etape_entetes d)) "annee" = Ok a ->
             existsb is_str (Pd.values a) = false) ->
  exists d', nettoyer_donnees r w = (Ok r, set_obj r d' w).
Proof.
  intros Hd Hnd Ha. destruct (nettoyer_total d Hnd Ha) as [d' Hn].
  exists d'. by apply (nettoyer_donnees_ok r w d).
Qed.

Example nettoyer_annee_texte : nettoyer table_annee_texte = Raise TypeError.
Proof. reflexivity. Qed.

(** ** What step 3 makes of a cell *)

Lemma parse_not_str t : is_str (Num.parse t) = false.
Proof.
  unfold Num.parse.
  destruct (Num.take_sign _) as [neg s1].
  destruct (Num.span_digits s1) as [ip s2].
  destruct (match s2 with
            | String "."%char s' => (true, Num.span_digits s')
            | _ => (false, ([], s2))
            end) as [point [fp s3]].
  destruct (ip ++ fp)%list; [done|].
  destruct (Num.take_exponent s3) as [[ex s4]|]; [|done].
  destruct (Num.skip_space s4); [|done].
  by destruct point, ex.
Qed.

Lemma is_nan_as_float x : is_str x = false -> is_nan x = negb (bool_decide (is_Some (Pd.as_float x))).
Proof.
  destruct x; cbn; try done; intros _; symmetry; apply negb_false_iff, bool_decide_eq_true;
    by eexists.
Qed.

Lemma values_not_str s : Pd.dtype_is_object s = false -> Forall (fun x => is_str x = false) (Pd.values s).
Proof.
  destruct s as [xs|xs|xs]; [| |done]; intros _; cbn [Pd.values];
    rewrite Forall_fmap; apply Forall_true; [done|by intros [?|]].
Qed.

Lemma coercion_cells s s' j x :
  coercion s = Ok s' -> Pd.values s !! j = Some x ->
  exists y, Pd.values s' !! j = Some y /\
            Pd.as_float y = Pd.as_float (valeur_lue s x) /\
            is_nan y = is_nan (valeur_lue s x).
Proof.
  intros Hc Hx. unfold valeur_lue.
  destruct s as [xs|xs|xs]; cbn [Pd.dtype_is_object].
  - injection Hc as <-. by exists x.
  - injection Hc as <-. by exists x.
  - rewrite coercion_object in Hc. injection Hc as <-. cbn [Pd.values] in Hx.
    assert (j < length (Pd.values (Pd.numeric_of (coerce_text <$> xs)))) as Hlt.
    { change (j < Pd.size (Pd.numeric_of (coerce_text <$> xs))).
      rewrite numeric_of_size, length_fmap. by apply lookup_lt_Some in Hx. }
    apply lookup_lt_is_Some in Hlt as [y Hy]. exists y. split; [done|].
    assert (Pd.as_float y = Pd.as_float (coerce_text x)) as E.
    { assert ((Pd.as_float <$> Pd.values (Pd.numeric_of (coerce_text <$> xs))) !! j
              = Some (Pd.as_float y)) as H by by rewrite list_lookup_fmap, Hy.
      rewrite numeric_of_values, <- list_fmap_compose, list_lookup_fmap, Hx in H.
      cbn in H. congruence. }
    split; [done|].
    rewrite (is_nan_as_float y), (is_nan_as_float (coerce_text x)), E; [done| |].
    + apply parse_not_str.
    + assert (Forall (fun x => is_str x = false)
                     (Pd.values (Pd.numeric_of (coerce_text <$> xs)))) as HF.
      { apply values_not_str. unfold Pd.numeric_of. by destruct (mapM _ _). }
      rewrite Forall_forall in HF. apply HF. by eapply list_elem_of_lookup_2.
Qed.

Lemma avant_dropna_valeur d d0 s :
  avant_dropna d = Ok d0 ->
  Pd.getitem (etape_renommage (etape_entetes d)) "valeur_reelle" = Ok s ->
  exists s', coercion s = Ok s' /\ Pd.getitem d0 "valeur_reelle" = Ok s'.
Proof.
  set (d2 := etape_renommage (etape_entetes d)). intros H0 Hs.
  unfold avant_dropna in H0. fold d2 in H0.
  destruct (etape_numerique "valeur_reelle" d2) as [d3|e] eqn:H3;
    cbn [mbind exc_bind] in H0; [|done].
  destruct (etape_numerique "valeur_objectif" d3) as [d3'|e] eqn:H3';
    cbn [mbind exc_bind] in H0; [|done].
  rewrite (etape_periode_other _ _ "valeur_reelle"
             ltac:(discriminate) ltac:(discriminate) H0),
          (etape_numerique_other "valeur_objectif" _ _ "valeur_reelle"
             ltac:(discriminate) H3').
  unfold etape_numerique in H3. rewrite (has_getitem _ _ _ Hs), Hs in H3.
  cbn [mbind exc_bind] in H3. destruct (coercion s) as [s'|e] eqn:Hc; [|done].
  cbn [mbind exc_bind] in H3. injection H3 as <-. exists s'. split; [done|].
  by apply (getitem_setitem_eq "valeur_reelle" s' d2 s).
Qed.

Lemma avant_dropna_autres d d0 col :
  avant_dropna d = Ok d0 ->
  col ∉ ["valeur_reelle"; "valeur_objectif"; "periode_label"; "sort_key"] ->
  Pd.getitem d0 col = Pd.getitem (etape_renommage (etape_entetes d)) col.
Proof.
  set (d2 := etape_renommage (etape_entetes d)). intros H0 Hcol.
  unfold avant_dropna in H0. fold d2 in H0.
  destruct (etape_numerique "valeur_reelle" d2) as [d3|e] eqn:H3;
    cbn [mbind exc_bind] in H0; [|done].
  destruct (etape_numerique "valeur_objectif" d3) as [d3'|e] eqn:H3';
    cbn [mbind exc_bind] in H0; [|done].
  rewrite (etape_periode_other _ _ col) by (done || set_solver).
  rewrite (etape_numerique_other "valeur_objectif" _ _ col) by (done || set_solver).
  rewrite (etape_numerique_other "valeur_reelle" _ _ col) by (done || set_solver).
  done.
Qed.

(** The column [col] of the table before step 5 is the coercion of the
    column the renamed table has under that label. *)
Lemma avant_dropna_coercion col d d0 s :
  col ∈ cols_numeriques ->
  avant_dropna d = Ok d0 ->
  Pd.getitem (etape_renommage (etape_entetes d)) col = Ok s ->
  exists s', coercion s = Ok s' /\ Pd.getitem d0 col = Ok s'.
Proof.
  intros Hin H0 Hs. apply elem_of_cons in Hin as [->|Hin].
  { by apply (avant_dropna_valeur d). }
  apply list_elem_of_singleton in Hin as ->.
  set (d2 := etape_renommage (etape_entetes d)) in *.
  unfold avant_dropna in H0. fold d2 in H0.
  destruct (etape_numerique "valeur_reelle" d2) as [d3|e] eqn:H3;
    cbn [mbind exc_bind] in H0; [|done].
  destruct (etape_numerique "valeur_objectif" d3) as [d3'|e] eqn:H3';
    cbn [mbind exc_bind] in H0; [|done].
  rewrite (etape_periode_other _ _ "valeur_objectif"
             ltac:(discriminate) ltac:(discriminate) H0).
  rewrite <- (etape_numerique_other "valeur_reelle" _ _ "valeur_objectif"
                ltac:(discriminate) H3) in Hs.
  unfold etape_numerique in H3'. rewrite (has_getitem _ _ _ Hs), Hs in H3'.
  cbn [mbind exc_bind] in H3'. destruct (coercion s) as [s'|e] eqn:Hc; [|done].
  cbn [mbind exc_bind] in H3'. injection H3' as <-. exists s'. split; [done|].
  by apply (getitem_setitem_eq "valeur_objectif" s' d3 s).
Qed.

(** ** C4 *)

(** C4. Whatever the cells of [valeur_reelle] and [valeur_objectif] hold,
    [nettoyer_donnees] does not fail on them: on a table whose headers are
    pairwise distinct and whose year column holds no text it returns.  In
    the table returned, a cell of either column that came from a text
    column is the number the text parses to once its commas are replaced
    by periods, and it is missing when the text does not parse; a row is
    kept exactly when its [valeur_reelle] parses.  ["98,5"] is read 98.5
    and ["abc"] is read as missing. *)
Theorem C4_coercion_best_effort r w d :
  heap w !! r = Some d ->
  NoDup (Pd.columns (etape_renommage (etape_entetes d))) ->
  (Pd.has (etape_renommage (etape_entetes d)) "trimestre" = true ->
   forall a, Pd.getitem (etape_renommage (etape_entetes d)) "annee" = Ok a ->
             existsb is_str (Pd.values a) = false) ->
  (exists d' f,
     nettoyer_donnees r w = (Ok r, set_obj r d' w) /\
     (forall i1 i2 j1 j2, i1 < i2 -> f i1 = Some j1 -> f i2 = Some j2 -> j1 < j2) /\
     (forall col s i j x,
        col ∈ cols_numeriques ->
        Pd.getitem (etape_renommage (etape_entetes d)) col = Ok s ->
        Pd.dtype_is_object s = true ->
        f i = Some j -> Pd.values s !! j = Some x ->
        exists y, cell d' col i = Some y /\
          Pd.as_float y
          = Pd.as_float (Num.parse (PyStr.replace "," "." (py_str x))) /\
          is_nan y = is_nan (Num.parse (PyStr.replace "," "." (py_str x)))) /\
     (forall s j x,
        Pd.getitem (etape_renommage (etape_entetes d)) "valeur_reelle" = Ok s ->
        Pd.dtype_is_object s = true -> Pd.values s !! j = Some x ->
        (exists i, f i = Some j) <->
        is_nan (Num.parse (PyStr.replace "," "." (py_str x))) = false)) /\
  Num.parse (PyStr.replace "," "." (py_str (SStr "98,5"))) = SFloat (197 # 2) /\
  (197 # 2 == 98.5)%Q /\
  Num.parse (PyStr.replace "," "." (py_str (SStr "abc"))) = SNaN.
Proof.
  intros Hd Hnd Ha. split; [|by repeat split].
  destruct (nettoyer_total d Hnd Ha) as [d' Hn].
  destruct (nettoyer_dropna _ _ Hn) as (d0 & H0 & Hcase).
  assert (Hcol : forall col s j x,
    col ∈ cols_numeriques ->
    Pd.getitem (etape_renommage (etape_entetes d)) col = Ok s ->
    Pd.dtype_is_object s = true -> Pd.values s !! j = Some x ->
    exists s' y, Pd.getitem d0 col = Ok s' /\ Pd.values s' !! j = Some y /\
      Pd.as_float y = Pd.as_float (Num.parse (PyStr.replace "," "." (py_str x))) /\
      is_nan y = is_nan (Num.parse (PyStr.replace "," "." (py_str x)))).
  { intros col s j x Hin Hs Ho Hx.
    destruct (avant_dropna_coercion col d d0 s Hin H0 Hs) as (s' & Hc & Hs').
    destruct (coercion_cells _ _ _ _ Hc Hx) as (y & Hy & Ef & En).
    unfold valeur_lue in Ef, En. rewrite Ho in Ef, En. by exists s', y. }
  destruct (Pd.has d0 "valeur_reelle") eqn:Hh.
  - destruct Hcase as (s0 & Hs0 & ->).
    exists (Pd.loc (Pd.notna s0) d0), (origin (Pd.notna s0)).
    split; [by apply (nettoyer_donnees_ok r w d)|].
    split; [apply origin_mono|]. split.
    + intros col s i j x Hin Hs Ho Hi Hx.
      destruct (Hcol col s j x Hin Hs Ho Hx) as (s' & y & Hs' & Hy & E).
      exists y. split; [|done]. rewrite cell_loc, Hi. cbn. unfold cell.
      by rewrite Hs'.
    + intros s j x Hs Ho Hx.
      destruct (Hcol "valeur_reelle" s j x ltac:(by left) Hs Ho Hx)
        as (s' & y & Hs' & Hy & _ & En).
      rewrite Hs0 in Hs'. injection Hs' as <-. rewrite <- En. split.
      * intros [i Hi]. apply origin_true in Hi. unfold Pd.notna in Hi.
        rewrite list_lookup_fmap, Hy in Hi. cbn in Hi. injection Hi as Hi.
        by apply negb_true_iff.
      * intros Hnn. apply origin_onto. unfold Pd.notna.
        by rewrite list_lookup_fmap, Hy; cbn; rewrite Hnn.
  - subst d'. exists d0, Some.
    split; [by apply (nettoyer_donnees_ok r w d)|].
    split; [by intros i1 i2 j1 j2 Hlt [= <-] [= <-]|]. split.
    + intros col s i j x Hin Hs Ho [= <-] Hx.
      destruct (Hcol col s i x Hin Hs Ho Hx) as (s' & y & Hs' & Hy & E).
      exists y. split; [|done]. unfold cell. by rewrite Hs'.
    + intros s j x Hs Ho Hx.
      destruct (Hcol "valeur_reelle" s j x ltac:(by left) Hs Ho Hx)
        as (s' & y & Hs' & _).
      by rewrite (has_getitem _ _ _ Hs') in Hh.
Qed.

Lemma C4_witness :
  (exists d' f,
     nettoyer_donnees 1%positive monde_exemple
     = (Ok 1%positive, set_obj 1%positive d' monde_exemple) /\
     (forall i1 i2 j1 j2, i1 < i2 -> f i1 = Some j1 -> f i2 = Some j2 -> j1 < j2) /\
     (forall col s i j x,
        col ∈ cols_numeriques ->
        Pd.getitem (etape_renommage (etape_entetes table_exemple)) col = Ok s ->
        Pd.dtype_is_object s = true ->
        f i = Some j -> Pd.values s !! j = Some x ->
        exists y, cell d' col i = Some y /\
          Pd.as_float y
          = Pd.as_float (Num.parse (PyStr.replace "," "." (py_str x))) /\
          is_nan y = is_nan (Num.parse (PyStr.replace "," "." (py_str x)))) /\
     (forall s j x,
        Pd.getitem (etape_renommage (etape_entetes table_exemple)) "valeur_reelle"
        = Ok s ->
        Pd.dtype_is_object s = true -> Pd.values s !! j = Some x ->
        (exists i, f i = Some j) <->
        is_nan (Num.parse (PyStr.replace "," "." (py_str x))) = false)) /\
  Num.parse (PyStr.replace "," "." (py_str (SStr "98,5"))) = SFloat (197 # 2) /\
  (197 # 2 == 98.5)%Q /\
  Num.parse (PyStr.replace "," "." (py_str (SStr "abc"))) = SNaN.
Proof.
  apply (C4_coercion_best_effort 1%positive monde_exemple table_exemple).
  - reflexivity.
  - apply (bool_decide_unpack _). reflexivity.
  - intros _ a [= <-]. reflexivity.
Defined.

(** ** C5 *)

(** C5. On a normalised table with the [ligne] and [valeur_reelle]
    columns, the ranked view has one row per distinct line that is present,
    each with the mean [valeur_reelle] of the rows of that line; it never
    has more than 15 rows, its means are non-decreasing from the first row
    on, and when there are at most 15 distinct lines every one of them is
    in the view. *)
Theorem C5_lignes_a_surveiller d k v :
  normalisee d = true ->
  Pd.getitem d "ligne" = Ok k ->
  Pd.getitem d "valeur_reelle" = Ok v ->
  exists rows vs,
    numeric_values v = Ok vs /\
    lignes_a_surveiller d = Ok rows /\
    length rows <= 15 /\
    length rows
      = Nat.min 15 (length (group_keys scalar_eqb scalar_leb is_nan (Pd.values k))) /\
    (forall i j a b, i <= j -> rows !! i = Some a -> rows !! j = Some b ->
       exists p q, snd a = Some p /\ snd b = Some q /\ (p <= q)%Q) /\
    (forall r, r ∈ rows ->
       fst r ∈ Pd.values k /\ is_nan (fst r) = false /\
       snd r = mean (group_values scalar_eqb (Pd.values k) vs (fst r))) /\
    distinct_by scalar_eqb (fst <$> rows) /\
    (length (group_keys scalar_eqb scalar_leb is_nan (Pd.values k)) <= 15 ->
     forall x, x ∈ Pd.values k -> is_nan x = false ->
       exists r, r ∈ rows /\ scalar_eqb x (fst r) = true).
Proof.
  intros Hnorm Hk Hv. apply normalisee_iff in Hnorm as [Hr Hnum].
  destruct (Hnum v Hv) as (vs & Hvs & Hall).
  unfold lignes_a_surveiller. rewrite (moyenne_par_ok _ _ _ _ _ Hk Hv Hvs).
  cbn [mbind exc_bind].
  set (G := groupby_mean scalar_eqb scalar_leb is_nan (Pd.values k) vs).
  assert (HS : tri_croissant G ≡ₚ G) by apply sort_by_Permutation.
  assert (Hlen : length (Pd.values k) = length vs).
  { rewrite (numeric_values_length _ _ Hvs).
    change (Pd.size k = Pd.size v).
    by rewrite (rectangular_getitem _ _ _ Hr Hk), (rectangular_getitem _ _ _ Hr Hv). }
  assert (HG : forall r, r ∈ take 15 (tri_croissant G) -> r ∈ G).
  { intros r Hin%elem_of_take_l. by rewrite HS in Hin. }
  assert (Hkeys : length (tri_croissant G)
                  = length (group_keys scalar_eqb scalar_leb is_nan (Pd.values k))).
  { rewrite HS. unfold G. by rewrite <- (groupby_mean_keys _ vs), length_fmap. }
  eexists _, vs. split; [done|]. split; [reflexivity|]. repeat split.
  - rewrite length_take. lia.
  - rewrite length_take. lia.
  - intros i j a b Hij Ha Hb.
    assert (is_Some (snd a)) as [p Hp].
    { eapply groupby_mean_Some; [done..|]. apply HG. by eapply list_elem_of_lookup_2. }
    assert (is_Some (snd b)) as [q Hq].
    { eapply groupby_mean_Some; [done..|]. apply HG. by eapply list_elem_of_lookup_2. }
    exists p, q. repeat split; try done.
    destruct (decide (i = j)) as [->|Hne].
    + rewrite Ha in Hb. injection Hb as <-. rewrite Hp in Hq. injection Hq as <-.
      apply Qle_refl.
    + pose proof (StronglySorted_lookup _ _ i j a b
                    (StronglySorted_take _ 15 _ (tri_croissant_sorted G))
                    ltac:(lia) Ha Hb) as H.
      unfold holds in H. rewrite Hp, Hq in H. by apply Qle_bool_iff.
  - apply HG, elem_of_groupby_mean in H as [H _].
    by apply elem_of_group_keys in H as [? _].
  - apply HG, elem_of_groupby_mean in H as [H _].
    by apply elem_of_group_keys in H as [_ ?].
  - by apply HG, elem_of_groupby_mean in H as [_ ?].
  - rewrite fmap_take. apply distinct_by_take.
    eapply (distinct_by_Permutation _ _ _ scalar_eqb_sym).
    + symmetry. apply fmap_Permutation, HS.
    + unfold G. rewrite groupby_mean_keys. apply group_keys_distinct.
  - intros Hfew x Hx Hn.
    destruct (group_keys_complete _ _ Hx Hn) as (kk & Hkk & E).
    rewrite <- (groupby_mean_keys _ vs) in Hkk.
    apply list_elem_of_fmap in Hkk as (r & -> & Hr').
    exists r. split; [|done]. rewrite take_ge by lia. by rewrite HS.
Qed.

Lemma C5_witness :
  exists rows vs,
    numeric_values (Float64 [Some (197 # 2); Some 90%Q; Some (183 # 2)]) = Ok vs /\
    lignes_a_surveiller table_nettoyee = Ok rows /\
    length rows <= 15 /\
    length rows
      = Nat.min 15 (length (group_keys scalar_eqb scalar_leb is_nan
                              [SStr "A"; SStr "A"; SNaN])) /\
    (forall i j a b, i <= j -> rows !! i = Some a -> rows !! j = Some b ->
       exists p q, snd a = Some p /\ snd b = Some q /\ (p <= q)%Q) /\
    (forall r, r ∈ rows ->
       fst r ∈ [SStr "A"; SStr "A"; SNaN] /\ is_nan (fst r) = false /\
       snd r = mean (group_values scalar_eqb [SStr "A"; SStr "A"; SNaN]
                       vs (fst r))) /\
    distinct_by scalar_eqb (fst <$> rows) /\
    (length (group_keys scalar_eqb scalar_leb is_nan [SStr "A"; SStr "A"; SNaN]) <= 15 ->
     forall x, x ∈ [SStr "A"; SStr "A"; SNaN] -> is_nan x = false ->
       exists r, r ∈ rows /\ scalar_eqb x (fst r) = true).
Proof.
  apply (C5_lignes_a_surveiller table_nettoyee
           (Object [SStr "A"; SStr "A"; SNaN])
           (Float64 [Some (197 # 2); Some 90%Q; Some (183 # 2)])); reflexivity.
Defined.

(** ** Rows without a key *)

Lemma filter_mask_filter_self {A} (p : A -> bool) (l : list A) :
  List.filter p (mask_filter (p <$> l) l) = List.filter p l.
Proof.
  induction l as [|x l IH]; [done|]. cbn [fmap list_fmap mask_filter].
  destruct (p x) eqn:E; cbn [List.filter]; rewrite ?E, IH; done.
Qed.

Lemma group_values_present {V} ks (vs : list V) k :
  is_nan k = false ->
  group_values scalar_eqb
    (mask_filter ((fun x => negb (is_nan x)) <$> ks) ks)
    (mask_filter ((fun x => negb (is_nan x)) <$> ks) vs) k
  = group_values scalar_eqb ks vs k.
Proof.
  intros Hk. unfold group_values. f_equal.
  revert vs; induction ks as [|x ks IH]; intros [|v vs]; try done.
  - cbn [fmap list_fmap mask_filter]. by rewrite !zip_with_nil_r.
  - cbn [fmap list_fmap mask_filter zip_with].
    destruct (is_nan x) eqn:Hx; cbn [negb zip_with List.filter fst].
    + rewrite IH. destruct (scalar_eqb x k) eqn:E; [|done].
      apply scalar_eqb_nan in E. congruence.
    + by rewrite IH.
Qed.

Lemma moyenne_par_dropna col d rows k :
  moyenne_par col d = Ok rows -> Pd.getitem d col = Ok k ->
  moyenne_par col (Pd.loc (Pd.notna k) d) = Ok rows.
Proof.
  unfold moyenne_par. intros H Hk. rewrite Hk in H. cbn [mbind exc_bind] in H.
  destruct (Pd.getitem d "valeur_reelle") as [v|e] eqn:Hv; [|done].
  cbn [mbind exc_bind] in H.
  destruct (numeric_values v) as [vs|e] eqn:Hvs; [|done].
  cbn [mbind exc_bind] in H. injection H as <-.
  rewrite !getitem_loc, Hk, Hv. cbn [fmap exc_fmap mbind exc_bind].
  rewrite (numeric_values_take _ _ _ Hvs). cbn [mbind exc_bind]. f_equal.
  rewrite values_take. unfold Pd.notna, groupby_mean.
  assert (Hkeys : group_keys scalar_eqb scalar_leb is_nan
                    (mask_filter ((fun x => negb (is_nan x)) <$> Pd.values k)
                                 (Pd.values k))
                  = group_keys scalar_eqb scalar_leb is_nan (Pd.values k)).
  { unfold group_keys.
    by rewrite (filter_mask_filter_self (fun x => negb (is_nan x))). }
  rewrite Hkeys. apply list_fmap_ext. intros i x Hx. f_equal. f_equal.
  apply group_values_present.
  by apply list_elem_of_lookup_2, elem_of_group_keys in Hx as [_ ?].
Qed.

Lemma moyenne_par_present col d rows r :
  moyenne_par col d = Ok rows -> r ∈ rows -> is_nan (fst r) = false.
Proof.
  unfold moyenne_par.
  destruct (Pd.getitem d col) as [k|e]; [|done]. cbn [mbind exc_bind].
  destruct (Pd.getitem d "valeur_reelle") as [v|e]; [|done]. cbn [mbind exc_bind].
  destruct (numeric_values v) as [vs|e]; [|done]. cbn [mbind exc_bind].
  intros [= <-] Hr. apply elem_of_groupby_mean in Hr as [Hr _].
  by apply elem_of_group_keys in Hr as [_ ?].
Qed.

Lemma moyenne_par_mean col d rows r :
  moyenne_par col d = Ok rows -> r ∈ rows ->
  exists k v vs,
    Pd.getitem d col = Ok k /\ Pd.getitem d "valeur_reelle" = Ok v /\
    numeric_values v = Ok vs /\
    snd r = mean (group_values scalar_eqb (Pd.values k) vs (fst r)).
Proof.
  unfold moyenne_par.
  destruct (Pd.getitem d col) as [k|e]; [|done]. cbn [mbind exc_bind].
  destruct (Pd.getitem d "valeur_reelle") as [v|e]; [|done]. cbn [mbind exc_bind].
  destruct (numeric_values v) as [vs|e] eqn:Hvs; [|done]. cbn [mbind exc_bind].
  intros [= <-] Hr. apply elem_of_groupby_mean in Hr as [_ Hr].
  exists k, v, vs. done.
Qed.

(** ** C10 *)

(** C10. In the ranked view (key [ligne]) and in the category view (key
    [thematique]) no row of the view has a missing key, the mean of a row
    of the view is taken over the table rows whose key equals its key, and
    the view is the same on the table from which the rows with a missing
    key have been removed: those rows form no group and count in no
    mean. *)
Theorem C10_cle_manquante col vue d rows :
  (col, vue) ∈ [("ligne", lignes_a_surveiller); ("thematique", par_thematique)] ->
  vue d = Ok rows ->
  (forall r, r ∈ rows -> is_nan (fst r) = false) /\
  (forall r, r ∈ rows ->
     exists k v vs,
       Pd.getitem d col = Ok k /\ Pd.getitem d "valeur_reelle" = Ok v /\
       numeric_values v = Ok vs /\
       snd r = mean (group_values scalar_eqb (Pd.values k) vs (fst r)) /\
       (forall x, is_nan x = true -> scalar_eqb x (fst r) = false)) /\
  (forall k, Pd.getitem d col = Ok k -> vue (Pd.loc (Pd.notna k) d) = Ok rows).
Proof.
  intros Hin Hv.
  assert (exists sel : list (scalar * option Q) -> list (scalar * option Q),
            (forall d, vue d = moyenne_par col d ≫= fun g => Ok (sel g)) /\
            (forall g r, r ∈ sel g -> r ∈ g)) as (sel & Hvue & Hsel).
  { apply elem_of_cons in Hin as [[= -> ->]|Hin].
    - exists (fun g => take 15 (tri_croissant g)). split; [done|].
      intros g r Hr%elem_of_take_l. by apply elem_of_sort_by in Hr.
    - apply list_elem_of_singleton in Hin as [= -> ->].
      exists tri_croissant. split; [done|].
      intros g r Hr. by apply elem_of_sort_by in Hr. }
  rewrite Hvue in Hv. destruct (moyenne_par col d) as [g|e] eqn:Hg; [|done].
  cbn [mbind exc_bind] in Hv. injection Hv as <-.
  assert (Hpres : forall r, r ∈ sel g -> is_nan (fst r) = false).
  { intros r Hr. eapply moyenne_par_present; [done|by apply Hsel]. }
  repeat split.
  - done.
  - intros r Hr.
    destruct (moyenne_par_mean _ _ _ r Hg (Hsel _ _ Hr)) as (k & v & vs & ? & ? & ? & ?).
    exists k, v, vs. repeat split; try done.
    intros x Hx. destruct (scalar_eqb x (fst r)) eqn:E; [|done].
    apply scalar_eqb_nan in E. rewrite (Hpres r Hr) in E. congruence.
  - intros k Hk. rewrite Hvue, (moyenne_par_dropna _ _ _ _ Hg Hk). done.
Qed.

Lemma C10_witness :
  (forall r, r ∈ [(SStr "A", Some (377 # 4))] -> is_nan (fst r) = false) /\
  (forall r, r ∈ [(SStr "A", Some (377 # 4))] ->
     exists k v vs,
       Pd.getitem table_nettoyee "ligne" = Ok k /\
       Pd.getitem table_nettoyee "valeur_reelle" = Ok v /\
       numeric_values v = Ok vs /\
       snd r = mean (group_values scalar_eqb (Pd.values k) vs (fst r)) /\
       (forall x, is_nan x = true -> scalar_eqb x (fst r) = false)) /\
  (forall k, Pd.getitem table_nettoyee "ligne" = Ok k ->
     lignes_a_surveiller (Pd.loc (Pd.notna k) table_nettoyee)
     = Ok [(SStr "A", Some (377 # 4))]).
Proof.
  apply (C10_cle_manquante "ligne" lignes_a_surveiller table_nettoyee).
  - set_solver.
  - reflexivity.
Defined.

(** ** The views of [main] when a column is absent *)

Lemma graphique_temps_absent d w :
  Pd.has d "periode_label" && Pd.has d "sort_key" = false ->
  graphique_temps d w
  = (Ok tt, mkWorld (heap w)
              (page w ++ [StSubheader "📅 Évolution dans le temps";
                          StInfo "Données temporelles insuffisantes."])
              (disk w)).
Proof.
  intros H. unfold graphique_temps, mbind, M_bind, show. rewrite H.
  cbn. by rewrite <- app_assoc.
Qed.

Lemma graphique_lignes_absent d w :
  Pd.has d "ligne" && Pd.has d "valeur_reelle" = false ->
  graphique_lignes d w
  = (Ok tt, mkWorld (heap w)
              (page w ++ [StSubheader "⚠️ Lignes à surveiller (Top 15 Flop)";
                          StInfo "Information sur les lignes manquante."])
              (disk w)).
Proof.
  intros H. unfold graphique_lignes, mbind, M_bind, show. rewrite H.
  cbn. by rewrite <- app_assoc.
Qed.

(** The category view has no [else] branch: without its column it leaves
    the page as it is. *)
Lemma graphique_thematique_absent d w :
  Pd.has d "thematique" && Pd.has d "valeur_reelle" = false ->
  graphique_thematique d w = (Ok tt, w).
Proof. intros H. unfold graphique_thematique. by rewrite H. Qed.

Lemma getitem_absent d col :
  Pd.has d col = false -> Pd.getitem d col = Raise (KeyError col).
Proof. intros H. unfold Pd.getitem. by rewrite (has_false_filter _ _ H). Qed.

(** The temporal view reads [valeur_reelle] without testing for it. *)
Lemma graphique_temps_sans_valeur d w key label :
  Pd.has d "periode_label" && Pd.has d "sort_key" = true ->
  Pd.getitem d "sort_key" = Ok key -> Pd.getitem d "periode_label" = Ok label ->
  Pd.has d "valeur_reelle" = false ->
  fst (graphique_temps d w) = Raise (KeyError "valeur_reelle").
Proof.
  intros H Hk Hl Hv. unfold graphique_temps, mbind, M_bind, show, lift.
  rewrite H. cbn [fst snd]. unfold evolution. rewrite Hk, Hl.
  cbn [mbind exc_bind mapM]. by rewrite (getitem_absent _ _ Hv).
Qed.

Example main_sans_ligne :
  fst (main utilisateur_defaut monde_sans_ligne) = Ok tt /\
  List.filter is_info (page (snd (main utilisateur_defaut monde_sans_ligne)))
  = [StInfo "Information sur les lignes manquante."].
Proof. split; vm_compute; reflexivity. Qed.

Example main_sans_valeur :
  fst (main utilisateur_defaut monde_sans_valeur) = Raise (KeyError "valeur_reelle").
Proof. vm_compute. reflexivity. Qed.

(** ** C6 *)

(** C6. On a source without the [thematique] column the run ends normally
    and the other two views are drawn, but the page carries no notice at
    all: the category view is left out silently, where the specification
    has it announced, as the temporal and ranked views are. *)
Theorem C6_thematique_sans_avis :
  fst (main utilisateur_defaut monde_sans_thematique) = Ok tt /\
  List.filter is_info (page (snd (main utilisateur_defaut monde_sans_thematique))) = [] /\
  page (snd (main utilisateur_defaut monde_sans_thematique)) =
    [ StSubheader "📈 Performance Globale";
      StMetric "Taux de Réussite Moyen" (Some (185 # 2));
      StSubheader "📅 Évolution dans le temps";
      StLineChart "Évolution Moyenne"
        [ mkTime (SStr "2023 - T1") (SInt 20231) "Réel" (Some 95%Q);
          mkTime (SStr "2023 - T2") (SInt 20232) "Réel" (Some 90%Q) ];
      StSubheader "⚠️ Lignes à surveiller (Top 15 Flop)";
      StBarChart "Lignes avec les scores les plus bas" [ (SStr "A", Some (185 # 2)) ];
      StDataframe
        (mkFrame
           [ ("annee", Int64 [2023; 2023]%Z);
             ("trimestre", Object [SStr "T1"; SStr "T2"]);
             ("valeur_reelle", Float64 [Some 95%Q; Some 90%Q]);
             ("ligne", Object [SStr "A"; SStr "A"]);
             ("periode_label", Object [SStr "2023 - T1"; SStr "2023 - T2"]);
             ("sort_key", Int64 [20231; 20232]%Z) ]) ].
Proof. repeat split; vm_compute; reflexivity. Qed.

(* ===================================================================== *)
(** * Further properties of the program                                  *)
(* ===================================================================== *)

(** ** Reading the file *)

Lemma fresh_unbound (w : world) : heap w !! fresh (dom (heap w)) = None.
Proof. apply not_elem_of_dom, is_fresh. Qed.

Lemma charger_donnees_lecture w latin1 utf8 d :
  disk w = Present latin1 utf8 ->
  latin1 = Some d \/ (latin1 = None /\ utf8 = Some d) ->
  exists r, heap w !! r = None /\
            charger_donnees w = (Ok (Some r), set_obj r d w).
Proof.
  intros Hd Hr. exists (fresh (dom (heap w))). split; [apply fresh_unbound|].
  unfold charger_donnees, mbind, M_bind. rewrite Hd.
  destruct Hr as [->|[-> ->]]; reflexivity.
Qed.

(** X1. When the file is absent, or when both readings of it fail,
    [charger_donnees] puts one error message on the page and returns
    [None]; [main] then stops ([st.stop()]): nothing else is put on the
    page and no table is created. *)
Theorem main_sans_fichier u w :
  disk w = Introuvable \/ disk w = Present None None ->
  exists msg,
    charger_donnees w = (Ok None, mkWorld (heap w) (page w ++ [StError msg]) (disk w)) /\
    main u w = (Raise StopExecution,
                mkWorld (heap w) (page w ++ [StError msg]) (disk w)).
Proof.
  destruct w as [h p dk]; cbn [disk heap page].
  intros [-> | ->]; eexists; split; reflexivity.
Qed.

Lemma main_sans_fichier_witness :
  exists msg,
    charger_donnees monde_exemple
    = (Ok None, mkWorld (heap monde_exemple) (page monde_exemple ++ [StError msg])
                  (disk monde_exemple)) /\
    main utilisateur_defaut monde_exemple
    = (Raise StopExecution,
       mkWorld (heap monde_exemple) (page monde_exemple ++ [StError msg])
         (disk monde_exemple)).
Proof. apply (main_sans_fichier utilisateur_defaut monde_exemple). by left. Defined.

Lemma bind_run {A B} (m : M A) (k : A -> M B) w a w' :
  m w = (Ok a, w') -> (m ≫= k) w = k a w'.
Proof. intros H. unfold mbind, M_bind. by rewrite H. Qed.

Lemma bind_raise {A B} (m : M A) (k : A -> M B) w e w' :
  m w = (Raise e, w') -> (m ≫= k) w = (Raise e, w').
Proof. intros H. unfold mbind, M_bind. by rewrite H. Qed.

Lemma read_set_obj r d w : read r (set_obj r d w) = (Ok d, set_obj r d w).
Proof. unfold read. by rewrite heap_set_obj. Qed.

Lemma main_charge u w latin1 utf8 d :
  disk w = Present latin1 utf8 ->
  latin1 = Some d \/ (latin1 = None /\ utf8 = Some d) ->
  exists r, heap w !! r = None /\
    match nettoyer d with
    | Ok d' => main u w = suite u d' (set_obj r d' w)
    | Raise e => fst (main u w) = Raise e
    end.
Proof.
  intros Hd Hr.
  destruct (charger_donnees_lecture w latin1 utf8 d Hd Hr) as (r & Hf & Hc).
  exists r. split; [done|]. unfold main. 
  destruct (nettoyer d) as [d'|e] eqn:Hn.
  - rewrite (bind_run _ _ _ _ _ Hc).
    rewrite (bind_run _ _ _ _ _ (nettoyer_donnees_ok r _ d d' (heap_set_obj r d w) Hn)).
    rewrite set_obj_twice.
    rewrite (bind_run _ _ _ _ _ (read_set_obj r d' w)). done.
  - rewrite (bind_run _ _ _ _ _ Hc).
    pose proof (nettoyer_donnees_runs r (set_obj r d w) d (heap_set_obj r d w)) as R.
    cbv beta in R. rewrite Hn in R. cbn [mbind exc_bind] in R.
    unfold mbind at 1, M_bind.
    destruct (nettoyer_donnees r (set_obj r d w)) as [[a|e'] w'']; cbn in R |- *; congruence.
Qed.

Lemma columns_entetes d :
  Pd.columns (etape_entetes d)
  = (fun c => PyStr.lower (PyStr.strip c)) <$> Pd.columns d.
Proof.
  unfold etape_entetes, Pd.set_columns, Pd.columns. cbn [cols].
  apply fst_zip. by rewrite !length_fmap.
Qed.

Lemma has_elem d c : c ∈ cols d -> Pd.has d (fst c) = true.
Proof.
  intros H. apply existsb_exists. exists (fst c). split.
  - apply list_elem_of_In. unfold Pd.columns. by apply list_elem_of_fmap_2.
  - apply String.eqb_refl.
Qed.

Lemma find_filter_imp {A} (p q : A -> bool) (l : list A) :
  (forall x, p x = true -> q x = true) ->
  List.find p (List.filter q l) = List.find p l.
Proof.
  intros H. induction l as [|x l IH]; [done|]. cbn [List.filter List.find].
  destruct (q x) eqn:Q; cbn [List.find].
  - by rewrite IH.
  - destruct (p x) eqn:P; [|done]. apply H in P. congruence.
Qed.

Lemma columns_renommage d :
  Pd.columns (etape_renommage d) = renommer <$> Pd.columns d.
Proof.
  unfold etape_renommage, Pd.rename, Pd.columns, renommer. cbn [cols].
  rewrite <- !list_fmap_compose. apply list_fmap_ext. intros i c Hc.
  unfold compose. rewrite find_filter_imp.
  - by destruct (List.find _ rename_map).
  - intros kv E. apply String.eqb_eq in E. rewrite E.
    by apply has_elem, list_elem_of_lookup_2 with i.
Qed.

Lemma columns_numerique col d d' :
  etape_numerique col d = Ok d' -> Pd.columns d' = Pd.columns d.
Proof.
  unfold etape_numerique. destruct (Pd.has d col) eqn:Hh; [|by intros [= <-]].
  destruct (Pd.getitem d col) as [s|e]; cbn [mbind exc_bind]; [|done].
  destruct (coercion s) as [s'|e]; cbn [mbind exc_bind]; [|done].
  intros [= <-]. by rewrite columns_setitem, Hh.
Qed.

Lemma has_columns d d' : Pd.columns d' = Pd.columns d -> forall c, Pd.has d' c = Pd.has d c.
Proof. intros H c. unfold Pd.has. by rewrite H. Qed.

Lemma columns_periode d d' :
  etape_periode d = Ok d' ->
  Pd.columns d' = (Pd.columns d ++ colonnes_derivees d)%list.
Proof.
  unfold etape_periode, colonnes_derivees.
  destruct (Pd.has d "annee" && Pd.has d "trimestre");
    [|intros [= <-]; by rewrite app_nil_r].
  destruct (Pd.getitem d "annee") as [a|e]; cbn [mbind exc_bind]; [|done].
  destruct (Pd.getitem d "trimestre") as [t|e]; cbn [mbind exc_bind]; [|done].
  destruct (concat_periode a t) as [l|e]; cbn [mbind exc_bind]; [|done].
  destruct (Pd.add _ _) as [k|e]; cbn [mbind exc_bind]; [|done].
  intros [= <-]. rewrite !columns_setitem.
  rewrite (has_setitem "periode_label" l d "sort_key") by done.
  destruct (Pd.has d "periode_label"), (Pd.has d "sort_key");
    by rewrite ?app_nil_r, <- ?app_assoc.
Qed.

Lemma columns_nettoyer d d' :
  nettoyer d = Ok d' ->
  exists d3,
    Pd.columns d3 = nom_final <$> Pd.columns d /\
    Pd.columns d' = (Pd.columns d3 ++ colonnes_derivees d3)%list.
Proof.
  intros Hn. destruct (nettoyer_dropna _ _ Hn) as (d0 & H0 & Hcase).
  assert (Pd.columns d' = Pd.columns d0) as ->.
  { destruct (Pd.has d0 "valeur_reelle"); [|by subst].
    destruct Hcase as (s0 & _ & ->). apply columns_loc. }
  unfold avant_dropna in H0.
  destruct (etape_numerique "valeur_reelle" _) as [d3|e] eqn:H3;
    cbn [mbind exc_bind] in H0; [|done].
  destruct (etape_numerique "valeur_objectif" d3) as [d3'|e] eqn:H3';
    cbn [mbind exc_bind] in H0; [|done].
  exists d3'. split.
  - rewrite (columns_numerique _ _ _ H3'), (columns_numerique _ _ _ H3).
    rewrite columns_renommage, columns_entetes, <- list_fmap_compose. done.
  - by apply columns_periode.
Qed.

(** ** Headers *)

Lemma lower_char_idem a : PyStr.lower_char (PyStr.lower_char a) = PyStr.lower_char a.
Proof. by destruct a as [[] [] [] [] [] [] [] []]. Qed.

Lemma isspace_lower_char a : PyStr.isspace (PyStr.lower_char a) = PyStr.isspace a.
Proof. by destruct a as [[] [] [] [] [] [] [] []]. Qed.

Lemma lower_idem s : PyStr.lower (PyStr.lower s) = PyStr.lower s.
Proof. induction s as [|a s IH]; [done|]. cbn. by rewrite lower_char_idem, IH. Qed.

Lemma lstrip_lower s : PyStr.lstrip (PyStr.lower s) = PyStr.lower (PyStr.lstrip s).
Proof.
  induction s as [|a s IH]; [done|]. cbn. rewrite isspace_lower_char.
  by destruct (PyStr.isspace a).
Qed.

Lemma rev_app_lower s t :
  PyStr.lower (String.rev_app s t) = String.rev_app (PyStr.lower s) (PyStr.lower t).
Proof. revert t; induction s as [|a s IH]; intros t; [done|]. cbn. by rewrite IH. Qed.

Lemma strip_lower s : PyStr.strip (PyStr.lower s) = PyStr.lower (PyStr.strip s).
Proof.
  unfold PyStr.strip, PyStr.rstrip, String.rev.
  by rewrite lstrip_lower, <- (rev_app_lower _ ""), lstrip_lower, <- (rev_app_lower _ "").
Qed.

Lemma lstrip_idem s : PyStr.lstrip (PyStr.lstrip s) = PyStr.lstrip s.
Proof.
  induction s as [|a s IH]; [done|]. cbn. destruct (PyStr.isspace a) eqn:E; [done|].
  cbn. by rewrite E.
Qed.

Lemma append_cons a s t : String a s ++ t = String a (s ++ t).
Proof. reflexivity. Qed.

Lemma append_nil_l s : "" ++ s = s.
Proof. reflexivity. Qed.

Lemma append_nil_r s : s ++ "" = s.
Proof. induction s as [|a s IH]; [done|]. by rewrite append_cons, IH. Qed.

Lemma rev_app_rev_app s t u :
  String.rev_app (String.rev_app s t) u = String.rev_app t (s ++ u).
Proof.
  revert t; induction s as [|a s IH]; intros t; [done|].
  cbn [String.rev_app]. by rewrite IH, append_cons.
Qed.

Lemma rev_involutive s : String.rev (String.rev s) = s.
Proof. unfold String.rev. rewrite rev_app_rev_app. cbn [String.rev_app]. apply append_nil_r. Qed.

Lemma rev_app_append s t u :
  String.rev_app (s ++ t) u = String.rev_app t (String.rev_app s u).
Proof.
  revert u; induction s as [|a s IH]; intros u; [done|].
  rewrite append_cons. cbn [String.rev_app]. by rewrite IH.
Qed.

Lemma rev_app_spec s t : String.rev_app s t = String.rev s ++ t.
Proof.
  unfold String.rev. revert t; induction s as [|a s IH]; intros t; [done|].
  cbn [String.rev_app]. rewrite IH, (IH (String a "")).
  generalize (String.rev_app s ""). intros r. induction r as [|b r IHr]; [done|].
  by rewrite !append_cons, IHr.
Qed.

Lemma rstrip_idem s : PyStr.rstrip (PyStr.rstrip s) = PyStr.rstrip s.
Proof. unfold PyStr.rstrip. by rewrite rev_involutive, lstrip_idem. Qed.

Lemma lstrip_length s : String.length (PyStr.lstrip s) <= String.length s.
Proof.
  induction s as [|a s IH]; [done|]. cbn. destruct (PyStr.isspace a); cbn; lia.
Qed.

Lemma lstrip_fix s :
  PyStr.lstrip s = s ->
  s = "" \/ exists a s', s = String a s' /\ PyStr.isspace a = false.
Proof.
  destruct s as [|a s]; [by left|]. cbn. destruct (PyStr.isspace a) eqn:E.
  - intros H. pose proof (lstrip_length s) as Hl. rewrite H in Hl. cbn in Hl. lia.
  - intros _. right. by exists a, s.
Qed.

Lemma lstrip_snoc s a :
  PyStr.isspace a = false ->
  PyStr.lstrip (s ++ String a "") = PyStr.lstrip s ++ String a "".
Proof.
  intros E. induction s as [|b s IH].
  { rewrite !append_nil_l. cbn [PyStr.lstrip]. by rewrite E. }
  rewrite append_cons. cbn [PyStr.lstrip]. by destruct (PyStr.isspace b).
Qed.

Lemma rev_cons a s : String.rev (String a s) = String.rev s ++ String a "".
Proof. unfold String.rev at 1. cbn [String.rev_app]. apply rev_app_spec. Qed.

Lemma rev_snoc a s : String.rev (s ++ String a "") = String a (String.rev s).
Proof. unfold String.rev. by rewrite rev_app_append. Qed.

Lemma rstrip_cons a s :
  PyStr.isspace a = false -> PyStr.rstrip (String a s) = String a (PyStr.rstrip s).
Proof.
  intros E. unfold PyStr.rstrip. by rewrite rev_cons, lstrip_snoc, rev_snoc.
Qed.

Lemma lstrip_rstrip s : PyStr.lstrip s = s -> PyStr.lstrip (PyStr.rstrip s) = PyStr.rstrip s.
Proof.
  intros [->|(a & s' & -> & E)]%lstrip_fix; [done|].
  rewrite rstrip_cons by done. cbn [PyStr.lstrip]. by rewrite E.
Qed.

Lemma strip_idem s : PyStr.strip (PyStr.strip s) = PyStr.strip s.
Proof.
  unfold PyStr.strip. rewrite (lstrip_rstrip (PyStr.lstrip s)) by apply lstrip_idem.
  apply rstrip_idem.
Qed.

Lemma entete_normale_lower_strip c : entete_normale (PyStr.lower (PyStr.strip c)).
Proof.
  split; [apply lower_idem|]. by rewrite strip_lower, strip_idem.
Qed.

Lemma entete_normale_renommer c : entete_normale c -> entete_normale (renommer c).
Proof.
  intros H. unfold renommer.
  destruct (List.find _ rename_map) as [kv|] eqn:E; [|done].
  apply find_some in E as [E _]. unfold rename_map in E. cbn in E.
  repeat (destruct E as [<-|E]; [by split|]). done.
Qed.

Lemma entete_normale_nom_final c : entete_normale (nom_final c).
Proof. apply entete_normale_renommer, entete_normale_lower_strip. Qed.

Lemma colonnes_derivees_sublist d :
  sublist (colonnes_derivees d) ["periode_label"; "sort_key"].
Proof.
  unfold colonnes_derivees.
  destruct (_ && _); [|apply sublist_nil_l].
  destruct (Pd.has d "periode_label"), (Pd.has d "sort_key"); cbn.
  - apply sublist_nil_l.
  - by apply sublist_cons, sublist_skip.
  - by apply sublist_skip, sublist_cons.
  - done.
Qed.

Lemma nettoyer_donnees_table r w d r' w' :
  heap w !! r = Some d -> nettoyer_donnees r w = (Ok r', w') ->
  exists d', nettoyer d = Ok d' /\ heap w' !! r' = Some d'.
Proof.
  intros Hd Hn. destruct (nettoyer_donnees_inv _ _ _ _ _ Hd Hn) as (d' & H & -> & ->).
  exists d'. split; [done|apply heap_set_obj].
Qed.

(** X2. [nettoyer_donnees] removes no column and keeps the columns in
    their order: the labels of the table it returns are the labels of its
    argument, each stripped, put in lower case and renamed
    ([resultat_indicateurs_en] to [valeur_reelle],
    [objectif_reference_contrat] to [valeur_objectif]), followed by at
    most [periode_label] and [sort_key]. *)
Theorem nettoyer_donnees_colonnes r w d r' w' :
  heap w !! r = Some d ->
  nettoyer_donnees r w = (Ok r', w') ->
  exists d' derivees,
    heap w' !! r' = Some d' /\
    Pd.columns d' = ((nom_final <$> Pd.columns d) ++ derivees)%list /\
    sublist derivees ["periode_label"; "sort_key"].
Proof.
  intros Hd Hn. destruct (nettoyer_donnees_table _ _ _ _ _ Hd Hn) as (d' & H & Hd').
  destruct (columns_nettoyer _ _ H) as (d3 & H3 & Hc).
  exists d', (colonnes_derivees d3). split; [done|]. split.
  - by rewrite Hc, H3.
  - apply colonnes_derivees_sublist.
Qed.

Lemma nettoyer_donnees_colonnes_witness :
  exists d' derivees,
    heap (snd (nettoyer_donnees 1%positive monde_exemple)) !! 1%positive = Some d' /\
    Pd.columns d' = ((nom_final <$> Pd.columns table_exemple) ++ derivees)%list /\
    sublist derivees ["periode_label"; "sort_key"].
Proof.
  apply (nettoyer_donnees_colonnes 1%positive monde_exemple table_exemple); reflexivity.
Defined.

(** X3. Every label of the table [nettoyer_donnees] returns is in
    normal form: it is its own lower case and has no white space at either
    end (on the ASCII range, as the string functions are modelled). *)
Theorem nettoyer_donnees_entetes r w d r' w' :
  heap w !! r = Some d ->
  nettoyer_donnees r w = (Ok r', w') ->
  exists d', heap w' !! r' = Some d' /\
    Forall (fun c => PyStr.lower c = c /\ PyStr.strip c = c) (Pd.columns d').
Proof.
  intros Hd Hn. destruct (nettoyer_donnees_table _ _ _ _ _ Hd Hn) as (d' & H & Hd').
  destruct (columns_nettoyer _ _ H) as (d3 & H3 & Hc).
  exists d'. split; [done|]. rewrite Hc, H3. apply Forall_app. split.
  - rewrite Forall_fmap. apply Forall_true. intros c. apply entete_normale_nom_final.
  - pose proof (colonnes_derivees_sublist d3) as Hs.
    apply Forall_forall. intros c Hc'.
    pose proof (elem_of_sublist _ _ _ Hc' Hs) as Hin.
    apply elem_of_cons in Hin as [->|Hin]; [done|].
    by apply list_elem_of_singleton in Hin as ->.
Qed.

Lemma nettoyer_donnees_entetes_witness :
  exists d', heap (snd (nettoyer_donnees 1%positive monde_exemple)) !! 1%positive = Some d' /\
    Forall (fun c => PyStr.lower c = c /\ PyStr.strip c = c) (Pd.columns d').
Proof.
  apply (nettoyer_donnees_entetes 1%positive monde_exemple table_exemple); reflexivity.
Defined.

Lemma has_app_derivees d3 d' c :
  Pd.columns d' = (Pd.columns d3 ++ colonnes_derivees d3)%list ->
  Pd.has d' c = Pd.has d3 c || existsb (String.eqb c) (colonnes_derivees d3).
Proof. intros H. unfold Pd.has. by rewrite H, existsb_app. Qed.

Lemma has_derivees d3 d' :
  Pd.columns d' = (Pd.columns d3 ++ colonnes_derivees d3)%list ->
  Pd.has d' "annee" = Pd.has d3 "annee" /\
  Pd.has d' "trimestre" = Pd.has d3 "trimestre" /\
  Pd.has d' "valeur_reelle" = Pd.has d3 "valeur_reelle" /\
  Pd.has d' "valeur_objectif" = Pd.has d3 "valeur_objectif" /\
  (Pd.has d3 "annee" && Pd.has d3 "trimestre" = true ->
   Pd.has d' "periode_label" = true /\ Pd.has d' "sort_key" = true).
Proof.
  intros H. rewrite !(has_app_derivees _ _ _ H).
  unfold colonnes_derivees.
  destruct (Pd.has d3 "annee" && Pd.has d3 "trimestre");
    destruct (Pd.has d3 "periode_label"), (Pd.has d3 "sort_key"); cbn;
    rewrite ?orb_false_r; repeat split; try done; by rewrite ?orb_true_r.
Qed.

(** X4. In the table [nettoyer_donnees] returns, the columns
    [periode_label] and [sort_key] are there whenever [annee] and
    [trimestre] are: the test that guards the temporal view then holds. *)
Theorem nettoyer_donnees_periode r w d r' w' :
  heap w !! r = Some d ->
  nettoyer_donnees r w = (Ok r', w') ->
  exists d', heap w' !! r' = Some d' /\
    (Pd.has d' "annee" && Pd.has d' "trimestre" = true ->
     Pd.has d' "periode_label" && Pd.has d' "sort_key" = true).
Proof.
  intros Hd Hn. destruct (nettoyer_donnees_table _ _ _ _ _ Hd Hn) as (d' & H & Hd').
  destruct (columns_nettoyer _ _ H) as (d3 & H3 & Hc).
  exists d'. split; [done|].
  destruct (has_derivees _ _ Hc) as (-> & -> & _ & _ & Hp).
  intros [-> ->]%Hp. done.
Qed.

Lemma nettoyer_donnees_periode_witness :
  exists d', heap (snd (nettoyer_donnees 1%positive monde_exemple)) !! 1%positive = Some d' /\
    (Pd.has d' "annee" && Pd.has d' "trimestre" = true ->
     Pd.has d' "periode_label" && Pd.has d' "sort_key" = true).
Proof.
  apply (nettoyer_donnees_periode 1%positive monde_exemple table_exemple); reflexivity.
Defined.

(** ** Code that only writes on the page *)

Lemma ecrit_ret {A} (a : A) : ecrit (mret a).
Proof. intros [h p k]. exists a, []. cbn. by rewrite app_nil_r. Qed.

Lemma ecrit_show e : ecrit (show e).
Proof. intros w. by exists tt, [e]. Qed.

Lemma ecrit_lift {A} (a : A) : ecrit (lift (Ok a)).
Proof. intros [h p k]. exists a, []. cbn. by rewrite app_nil_r. Qed.

Lemma ecrit_bind {A B} (m : M A) (k : A -> M B) :
  ecrit m -> (forall a, ecrit (k a)) -> ecrit (m ≫= k).
Proof.
  intros Hm Hk w. destruct (Hm w) as (a & els & E).
  destruct (Hk a (mkWorld (heap w) (page w ++ els) (disk w))) as (b & els' & E').
  exists b, (els ++ els')%list. rewrite (bind_run _ _ _ _ _ E), E'. cbn.
  by rewrite app_assoc.
Qed.

Lemma ecrit_lift_bind {A B} (a : A) (k : A -> M B) :
  ecrit (k a) -> ecrit (lift (Ok a) ≫= k).
Proof. intros H w. apply H. Qed.

Lemma ecrit_when b m : (b = true -> ecrit m) -> ecrit (when b m).
Proof. destruct b; intros H; [by apply H|apply ecrit_ret]. Qed.

Lemma ecrit_enfin_show e : ecrit_enfin e (show e).
Proof. intros w. by exists tt, []. Qed.

Lemma ecrit_enfin_bind {A B} e (m : M A) (k : A -> M B) :
  ecrit m -> (forall a, ecrit_enfin e (k a)) -> ecrit_enfin e (m ≫= k).
Proof.
  intros Hm Hk w. destruct (Hm w) as (a & els & E).
  destruct (Hk a (mkWorld (heap w) (page w ++ els) (disk w))) as (b & els' & E').
  exists b, (els ++ els')%list. rewrite (bind_run _ _ _ _ _ E), E'. cbn.
  by rewrite !app_assoc.
Qed.

Lemma ecrit_enfin_lift_bind {A B} e (a : A) (k : A -> M B) :
  ecrit_enfin e (k a) -> ecrit_enfin e (lift (Ok a) ≫= k).
Proof. intros H w. apply H. Qed.

(** ** Tables on which [main] runs to its end *)

Lemma exploitable_selection d d' :
  selection d d' -> exploitable d -> exploitable d'.
Proof.
  intros [->|[m ->]]; [done|]. intros (H1 & H2 & H3 & H4 & H5).
  split; [by rewrite columns_loc|]. rewrite !has_loc. split; [done|].
  repeat split; intros s; rewrite getitem_loc.
  - destruct (Pd.getitem d "valeur_reelle") as [s0|e]; [|done].
    cbn [fmap exc_fmap]. intros [= <-]. rewrite take_numeric. by apply H3.
  - destruct (Pd.getitem d "valeur_objectif") as [s0|e]; [|done].
    cbn [fmap exc_fmap]. intros [= <-]. rewrite take_numeric. by apply H4.
  - destruct (Pd.getitem d "annee") as [s0|e]; [|done].
    cbn [fmap exc_fmap]. intros [= <-]. rewrite values_take.
    apply not_true_is_false. intros H%existsb_mask_filter.
    by rewrite (H5 s0 eq_refl) in H.
Qed.

Lemma getitem_exploitable d col :
  exploitable d -> Pd.has d col = true -> exists s, Pd.getitem d col = Ok s.
Proof.
  intros [Hnd _] Hh. pose proof (getitem_NoDup _ _ Hnd Hh) as H.
  destruct (Pd.getitem d col) as [s|e]; [by exists s|done].
Qed.

Lemma filtre_annee_exploitable choose d :
  exploitable d -> exists d', filtre_annee choose d = Ok d' /\ selection d d'.
Proof.
  intros He. unfold filtre_annee. destruct (Pd.has d "annee") eqn:Hh.
  2:{ exists d. split; [done|by left]. }
  destruct (getitem_exploitable _ _ He Hh) as [s Hs].
  unfold annees_dispo. rewrite Hs. cbn [mbind exc_bind].
  destruct He as (_ & _ & _ & _ & H5).
  unfold py_sorted. rewrite existsb_unique
    by (intros x y E; by rewrite (scalar_eqb_is_str x y E)).
  rewrite (H5 s Hs). cbn [andb mbind exc_bind].
  destruct (choose _) as [|x sel].
  - exists d. split; [done|by left].
  - eexists. split; [done|]. right. by eexists.
Qed.

Lemma filtre_valeur_exploitable col tous choose d :
  exploitable d -> exists d', filtre_valeur col tous choose d = Ok d' /\ selection d d'.
Proof.
  intros He. unfold filtre_valeur. destruct (Pd.has d col) eqn:Hh.
  2:{ exists d. split; [done|by left]. }
  destruct (getitem_exploitable _ _ He Hh) as [s Hs].
  unfold options_dispo. rewrite Hs. cbn [mbind exc_bind].
  destruct (negb _).
  - eexists. split; [done|]. right. by eexists.
  - exists d. split; [done|by left].
Qed.

Lemma filtrer_exploitable u d :
  exploitable d -> exists d', filtrer u d = Ok d' /\ exploitable d'.
Proof.
  intros He. unfold filtrer, filtre_mode, filtre_thematique.
  destruct (filtre_annee_exploitable (multiselect u "Année(s)") d He) as (da & -> & Sa).
  cbn [mbind exc_bind]. apply (exploitable_selection _ _ Sa) in He.
  destruct (filtre_valeur_exploitable "mode" "Tous" (selectbox u "Mode de transport") da He)
    as (dm & -> & Sm).
  cbn [mbind exc_bind]. apply (exploitable_selection _ _ Sm) in He.
  destruct (filtre_valeur_exploitable "thematique" "Toutes" (selectbox u "Thématique") dm He)
    as (dt & -> & St).
  exists dt. split; [done|]. by apply (exploitable_selection _ _ St).
Qed.

Lemma numeric_values_ok s :
  Pd.dtype_is_object s = false -> exists vs, numeric_values s = Ok vs.
Proof. intros H. eexists. by apply numeric_values_numeric. Qed.

Lemma series_mean_ok s :
  Pd.dtype_is_object s = false -> exists m, series_mean s = Ok m.
Proof.
  intros H. unfold series_mean. rewrite (numeric_values_numeric _ H). by eexists.
Qed.

Lemma kpis_ecrit d : exploitable d -> ecrit (kpis d).
Proof.
  intros He. pose proof He as (_ & _ & H3 & H4 & _). unfold kpis.
  apply ecrit_bind; [|intros m1; apply ecrit_bind; [|intros m2]].
  - destruct (Pd.has d "valeur_reelle") eqn:Hh; [|apply ecrit_ret].
    destruct (getitem_exploitable _ _ He Hh) as [s Hs]. rewrite Hs.
    apply ecrit_lift_bind.
    destruct (series_mean_ok s (H3 s Hs)) as [m ->]. apply ecrit_lift_bind.
    apply ecrit_bind; [apply ecrit_show|intros _; apply ecrit_ret].
  - destruct (Pd.has d "valeur_objectif") eqn:Hh; [|apply ecrit_ret].
    destruct (getitem_exploitable _ _ He Hh) as [s Hs]. rewrite Hs.
    apply ecrit_lift_bind.
    destruct (series_mean_ok s (H4 s Hs)) as [m ->]. apply ecrit_lift_bind.
    apply ecrit_bind; [apply ecrit_show|intros _; apply ecrit_ret].
  - apply ecrit_when. intros _. apply ecrit_show.
Qed.

Lemma moyenne_par_exploitable col d :
  exploitable d -> Pd.has d col = true -> Pd.has d "valeur_reelle" = true ->
  exists rows, moyenne_par col d = Ok rows.
Proof.
  intros He Hc Hv. pose proof He as (_ & _ & H3 & _).
  destruct (getitem_exploitable _ _ He Hc) as [k Hk].
  destruct (getitem_exploitable _ _ He Hv) as [v Hv'].
  destruct (numeric_values_ok v (H3 v Hv')) as [vs Hvs].
  eexists. by apply (moyenne_par_ok col d k v vs).
Qed.

Lemma evolution_exploitable d :
  exploitable d -> Pd.has d "periode_label" && Pd.has d "sort_key" = true ->
  exists rows, evolution d = Ok rows.
Proof.
  intros He Hg. pose proof He as (_ & H2 & H3 & H4 & _).
  pose proof (H2 Hg) as Hv. apply andb_true_iff in Hg as [Hl Hk].
  destruct (getitem_exploitable _ _ He Hl) as [l Hl'].
  destruct (getitem_exploitable _ _ He Hk) as [k Hk'].
  destruct (getitem_exploitable _ _ He Hv) as [v Hv'].
  destruct (numeric_values_ok v (H3 v Hv')) as [vs Hvs].
  unfold evolution. rewrite Hk', Hl'. cbn [mbind exc_bind].
  destruct (Pd.has d "valeur_objectif") eqn:Ho.
  - destruct (getitem_exploitable _ _ He Ho) as [o Ho'].
    destruct (numeric_values_ok o (H4 o Ho')) as [os Hos].
    cbn [mapM]. rewrite Hv', Ho'. cbn [mbind exc_bind]. rewrite Hvs, Hos.
    cbn [mbind exc_bind fmap exc_fmap]. by eexists.
  - cbn [mapM]. rewrite Hv'. cbn [mbind exc_bind]. rewrite Hvs.
    cbn [mbind exc_bind fmap exc_fmap]. by eexists.
Qed.

Lemma graphique_temps_ecrit d : exploitable d -> ecrit (graphique_temps d).
Proof.
  intros He. unfold graphique_temps. apply ecrit_bind; [apply ecrit_show|intros _].
  destruct (Pd.has d "periode_label" && Pd.has d "sort_key") eqn:Hg;
    [|apply ecrit_show].
  destruct (evolution_exploitable d He Hg) as [rows ->].
  apply ecrit_lift_bind, ecrit_show.
Qed.

Lemma graphique_lignes_ecrit d : exploitable d -> ecrit (graphique_lignes d).
Proof.
  intros He. unfold graphique_lignes. apply ecrit_bind; [apply ecrit_show|intros _].
  destruct (Pd.has d "ligne" && Pd.has d "valeur_reelle") eqn:Hg;
    [|apply ecrit_show].
  apply andb_true_iff in Hg as [Hl Hv].
  destruct (moyenne_par_exploitable "ligne" d He Hl Hv) as [rows Hr].
  unfold lignes_a_surveiller. rewrite Hr. cbn [mbind exc_bind].
  apply ecrit_lift_bind, ecrit_show.
Qed.

Lemma graphique_thematique_ecrit d : exploitable d -> ecrit (graphique_thematique d).
Proof.
  intros He. unfold graphique_thematique. apply ecrit_when.
  intros [Hl Hv]%andb_true_iff.
  destruct (moyenne_par_exploitable "thematique" d He Hl Hv) as [rows Hr].
  unfold par_thematique. rewrite Hr. cbn [mbind exc_bind].
  apply ecrit_bind; [apply ecrit_show|intros _].
  apply ecrit_lift_bind, ecrit_show.
Qed.

Lemma suite_aboutit u d :
  exploitable d -> Pd.empty d = false ->
  exists d', filtrer u d = Ok d' /\ exploitable d' /\ ecrit_enfin (StDataframe d') (suite u d).
Proof.
  intros He Hne. destruct (filtrer_exploitable u d He) as (d' & Hf & He').
  exists d'. split; [done|]. split; [done|]. unfold suite. rewrite Hne, Hf.
  apply ecrit_enfin_bind; [apply ecrit_ret|intros _].
  apply ecrit_enfin_lift_bind.
  apply ecrit_enfin_bind; [apply ecrit_show|intros _].
  apply ecrit_enfin_bind; [by apply kpis_ecrit|intros _].
  apply ecrit_enfin_bind; [by apply graphique_temps_ecrit|intros _].
  apply ecrit_enfin_bind; [by apply graphique_lignes_ecrit|intros _].
  apply ecrit_enfin_bind; [by apply graphique_thematique_ecrit|intros _].
  apply ecrit_enfin_show.
Qed.

Lemma has_false_not_elem d c : Pd.has d c = false -> c ∉ Pd.columns d.
Proof.
  intros H Hin. assert (Pd.has d c = true); [|congruence].
  apply existsb_exists. exists c. split; [by apply list_elem_of_In|apply String.eqb_refl].
Qed.

Lemma NoDup_derivees d :
  NoDup (Pd.columns d) -> NoDup (Pd.columns d ++ colonnes_derivees d).
Proof.
  intros H. apply NoDup_app. split; [done|]. unfold colonnes_derivees.
  destruct (_ && _); [|split; [by intros ?? ?%elem_of_nil|constructor]].
  destruct (Pd.has d "periode_label") eqn:Hl, (Pd.has d "sort_key") eqn:Hk;
    cbn [app]; (split; [|by apply (bool_decide_unpack _)]);
    intros x Hx Hin; repeat (apply elem_of_cons in Hin as [->|Hin]);
    try (by apply elem_of_nil in Hin);
    by (eapply has_false_not_elem; [|exact Hx]).
Qed.

Lemma nettoyer_exploitable d d' :
  NoDup (Pd.columns (etape_renommage (etape_entetes d))) ->
  Pd.has (etape_renommage (etape_entetes d)) "valeur_reelle" = true ->
  (forall a, Pd.getitem (etape_renommage (etape_entetes d)) "annee" = Ok a ->
             existsb is_str (Pd.values a) = false) ->
  nettoyer d = Ok d' -> exploitable d'.
Proof.
  set (d2 := etape_renommage (etape_entetes d)). intros Hnd Hv Ha Hn.
  destruct (nettoyer_dropna _ _ Hn) as (d0 & H0 & Hcase).
  assert (Hsel : selection d0 d').
  { destruct (Pd.has d0 "valeur_reelle"); [|subst; by left].
    destruct Hcase as (s0 & _ & ->). right. by eexists. }
  apply (exploitable_selection _ _ Hsel). clear Hsel Hcase Hn.
  pose proof H0 as H0'. unfold avant_dropna in H0. fold d2 in H0.
  destruct (etape_numerique "valeur_reelle" d2) as [d3|e] eqn:H3;
    cbn [mbind exc_bind] in H0; [|done].
  destruct (etape_numerique "valeur_objectif" d3) as [d3'|e] eqn:H3';
    cbn [mbind exc_bind] in H0; [|done].
  pose proof (columns_periode _ _ H0) as Hc.
  assert (Hc3 : Pd.columns d3' = Pd.columns d2).
  { by rewrite (columns_numerique _ _ _ H3'), (columns_numerique _ _ _ H3). }
  destruct (has_derivees _ _ Hc) as (_ & _ & Hhv & _).
  repeat split.
  - rewrite Hc. apply NoDup_derivees. by rewrite Hc3.
  - intros _. rewrite Hhv. by rewrite (has_columns _ _ Hc3).
  - intros s Hs. by apply (avant_dropna_numeric _ _ _ H0' Hs).
  - intros s Hs.
    rewrite (etape_periode_other _ _ "valeur_objectif"
               ltac:(discriminate) ltac:(discriminate) H0) in Hs.
    by apply (etape_numerique_self _ _ _ _ H3' Hs).
  - intros s Hs. apply Ha.
    rewrite (etape_periode_other _ _ "annee"
               ltac:(discriminate) ltac:(discriminate) H0),
            (etape_numerique_other "valeur_objectif" _ _ "annee"
               ltac:(discriminate) H3'),
            (etape_numerique_other "valeur_reelle" _ _ "annee"
               ltac:(discriminate) H3) in Hs. done.
Qed.

(** X5. [main] runs to its end on every file whose headers, once
    normalised and renamed, are pairwise distinct and include
    [valeur_reelle], and whose year column holds no text: whatever the user
    picks in the widgets, either the cleaned table is empty and [main]
    stops on the warning, or no exception is raised and the table of the
    filtered rows is shown on the page. *)
Theorem main_aboutit u w latin1 utf8 d :
  disk w = Present latin1 utf8 ->
  latin1 = Some d \/ (latin1 = None /\ utf8 = Some d) ->
  NoDup (Pd.columns (etape_renommage (etape_entetes d))) ->
  Pd.has (etape_renommage (etape_entetes d)) "valeur_reelle" = true ->
  (forall a, Pd.getitem (etape_renommage (etape_entetes d)) "annee" = Ok a ->
             existsb is_str (Pd.values a) = false) ->
  exists r d',
    heap w !! r = None /\ nettoyer d = Ok d' /\
    if Pd.empty d' then
      main u w
      = (Raise StopExecution,
         mkWorld (<[r := d']> (heap w))
           (page w ++ [StWarning "⚠️ Le fichier a été chargé mais ne contient aucune donnée exploitable après nettoyage."])
           (disk w))
    else
      exists d'' els,
        filtrer u d' = Ok d'' /\
        main u w
        = (Ok tt, mkWorld (<[r := d']> (heap w)) (page w ++ els) (disk w)) /\
        StDataframe d'' ∈ els.
Proof.
  intros Hd Hr Hnd Hv Ha.
  destruct (main_charge u w latin1 utf8 d Hd Hr) as (r & Hf & Hm).
  destruct (nettoyer_total d Hnd) as [d' Hn]; [intros _; exact Ha|].
  rewrite Hn in Hm. exists r, d'. split; [done|]. split; [done|].
  pose proof (nettoyer_exploitable d d' Hnd Hv Ha Hn) as He.
  destruct (Pd.empty d') eqn:Hemp.
  - rewrite Hm. unfold suite. by rewrite Hemp.
  - destruct (suite_aboutit u d' He Hemp) as (d'' & Hfil & _ & Hs).
    destruct (Hs (set_obj r d' w)) as ([] & els & E).
    exists d'', (els ++ [StDataframe d''])%list. split; [done|].
    split; [by rewrite Hm, E|]. apply elem_of_app. right. left.
Qed.

Lemma main_aboutit_witness :
  exists r d',
    heap monde_sans_thematique !! r = None /\
    nettoyer table_sans_thematique = Ok d' /\
    if Pd.empty d' then
      main utilisateur_defaut monde_sans_thematique
      = (Raise StopExecution,
         mkWorld (<[r := d']> (heap monde_sans_thematique))
           (page monde_sans_thematique ++ [StWarning "⚠️ Le fichier a été chargé mais ne contient aucune donnée exploitable après nettoyage."])
           (disk monde_sans_thematique))
    else
      exists d'' els,
        filtrer utilisateur_defaut d' = Ok d'' /\
        main utilisateur_defaut monde_sans_thematique
        = (Ok tt, mkWorld (<[r := d']> (heap monde_sans_thematique))
                    (page monde_sans_thematique ++ els)
                    (disk monde_sans_thematique)) /\
        StDataframe d'' ∈ els.
Proof.
  apply (main_aboutit utilisateur_defaut monde_sans_thematique
           (Some table_sans_thematique) None table_sans_thematique).
  - reflexivity.
  - by left.
  - apply (bool_decide_unpack _). reflexivity.
  - reflexivity.
  - intros a [= <-]. reflexivity.
Defined.

(** ** A year column that holds text *)

Lemma mapM_exc_raise {A B} (f : A -> exc B) (l : list A) i x e :
  l !! i = Some x -> f x = Raise e ->
  (forall y e', f y = Raise e' -> e' = e) ->
  mapM f l = Raise e.
Proof.
  intros Hi Hx He. revert i Hi; induction l as [|y l IH]; intros i Hi; [done|].
  cbn [mapM]. destruct (f y) as [b|e'] eqn:Ey.
  - cbn [mbind exc_bind]. destruct i as [|i].
    + injection Hi as ->. congruence.
    + by rewrite (IH i Hi).
  - cbn [mbind exc_bind]. by rewrite (He y e' Ey).
Qed.

Lemma py_add_raise x y e : Pd.py_add x y = Raise e -> e = TypeError.
Proof.
  destruct x, y; cbn; try congruence;
    repeat match goal with |- context [match ?o with _ => _ end] => destruct o end;
    congruence.
Qed.

Lemma existsb_lookup {A} (p : A -> bool) l :
  existsb p l = true -> exists i x, l !! i = Some x /\ p x = true.
Proof.
  intros (x & Hin & Hp)%existsb_exists.
  apply list_elem_of_In, list_elem_of_lookup in Hin as [i Hi]. eauto.
Qed.

Lemma add_text_raise a t :
  existsb is_str (Pd.values a) = true -> Pd.size a = Pd.size t ->
  Pd.add (Pd.mul a 10) (trim_num t) = Raise TypeError.
Proof.
  intros (i & x & Hi & Hx)%existsb_lookup Hsz.
  destruct a as [xs|xs|xs]; cbn [Pd.values] in Hi.
  { apply list_lookup_fmap_Some in Hi as (? & -> & _); done. }
  { apply list_lookup_fmap_Some in Hi as ([?|] & -> & _); done. }
  destruct x as [| |u|]; try done. clear Hx.
  assert (exists y, Pd.values (trim_num t) !! i = Some y /\
                    is_nan y = false /\ is_str y = false) as (y & Hy & Hn & Hs).
  { assert (i < length (Pd.values (trim_num t))) as Hlt.
    { change (i < Pd.size (trim_num t)). rewrite trim_num_size, <- Hsz.
      by apply lookup_lt_Some in Hi. }
    apply lookup_lt_is_Some in Hlt as [y Hy]. exists y. split; [done|].
    assert (is_Some (Pd.as_float y)) as [q Hq].
    { assert ((Pd.as_float <$> Pd.values (trim_num t)) !! i = Some (Pd.as_float y))
        as H by by rewrite list_lookup_fmap, Hy.
      rewrite trim_num_values in H.
      apply list_lookup_fmap_Some in H as (? & E & _). rewrite E. by eexists. }
    by destruct y. }
  cbn [Pd.mul]. unfold Pd.add.
  assert (mapM (fun xy : scalar * scalar =>
                  if is_nan (fst xy) || is_nan (snd xy) then Ok SNaN
                  else Pd.py_add (fst xy) (snd xy))
               (zip (Pd.values (Object (Pd.py_mul 10 <$> xs)))
                    (Pd.values (trim_num t))) = Raise TypeError) as Hm.
  { apply (mapM_exc_raise _ _ i (SStr (PyStr.repeat u 10), y)).
    - cbn [Pd.values]. by rewrite lookup_zip_with, list_lookup_fmap, Hi, Hy.
    - cbn [fst snd is_nan orb]. rewrite Hn. by destruct y.
    - intros [x' y'] e'. cbn [fst snd]. destruct (_ || _); [done|].
      apply py_add_raise. }
  destruct (trim_num t); by rewrite Hm.
Qed.

Lemma nettoyer_annee_texte_raise d a :
  Pd.rectangular d = true ->
  NoDup (Pd.columns (etape_renommage (etape_entetes d))) ->
  Pd.has (etape_renommage (etape_entetes d)) "trimestre" = true ->
  Pd.getitem (etape_renommage (etape_entetes d)) "annee" = Ok a ->
  existsb is_str (Pd.values a) = true ->
  nettoyer d = Raise TypeError.
Proof.
  set (d2 := etape_renommage (etape_entetes d)). intros Hr Hnd Ht Ha Hs.
  unfold nettoyer, avant_dropna. fold d2.
  destruct (etape_numerique_ok "valeur_reelle" d2 Hnd) as (d3 & H3 & Hc3 & Hg3).
  rewrite H3. cbn [mbind exc_bind].
  assert (Hnd3 : NoDup (Pd.columns d3)) by by rewrite Hc3.
  destruct (etape_numerique_ok "valeur_objectif" d3 Hnd3) as (d3' & H3' & Hc3' & Hg3').
  rewrite H3'. cbn [mbind exc_bind].
  assert (Hnd3' : NoDup (Pd.columns d3')) by by rewrite Hc3'.
  assert (Hsz : all_size (Pd.nrows d) d3').
  { eapply all_size_numerique; [|exact H3'].
    eapply all_size_numerique; [|exact H3].
    by apply all_size_renommage, all_size_entetes, rectangular_all_size. }
  assert (Ha' : Pd.getitem d3' "annee" = Ok a).
  { by rewrite Hg3', Hg3. }
  assert (Hht : Pd.has d3' "trimestre" = true).
  { unfold Pd.has. by rewrite Hc3', Hc3. }
  pose proof (getitem_NoDup _ _ Hnd3' Hht) as Hgt.
  destruct (Pd.getitem d3' "trimestre") as [t|e] eqn:Et; [|done].
  unfold etape_periode. rewrite (has_getitem _ _ _ Ha'), Hht, Ha', Et.
  cbn [andb mbind exc_bind]. rewrite concat_periode_ok. cbn [mbind exc_bind].
  rewrite add_text_raise; [done|done|].
  by rewrite (all_size_getitem _ _ _ _ Hsz Ha'), (all_size_getitem _ _ _ _ Hsz Et).
Qed.

(** X6. On a rectangular table with distinct headers that has the
    [trimestre] column and one [annee] column, [nettoyer_donnees] raises
    [TypeError] exactly when the year column holds a text (the product
    [annee * 10] repeats the text, which cannot be added to a number);
    otherwise it returns its argument. *)
Theorem nettoyer_donnees_annee_texte r w d a :
  heap w !! r = Some d ->
  Pd.rectangular d = true ->
  NoDup (Pd.columns (etape_renommage (etape_entetes d))) ->
  Pd.has (etape_renommage (etape_entetes d)) "trimestre" = true ->
  Pd.getitem (etape_renommage (etape_entetes d)) "annee" = Ok a ->
  fst (nettoyer_donnees r w)
  = if existsb is_str (Pd.values a) then Raise TypeError else Ok r.
Proof.
  intros Hd Hr Hnd Ht Ha. destruct (existsb is_str (Pd.values a)) eqn:Hs.
  - pose proof (nettoyer_donnees_runs r w d Hd) as R. cbv beta in R.
    by rewrite (nettoyer_annee_texte_raise d a Hr Hnd Ht Ha Hs) in R.
  - destruct (nettoyer_total d Hnd) as [d' Hn].
    { intros _ a' Ha'. congruence. }
    by rewrite (nettoyer_donnees_ok r w d d' Hd Hn).
Qed.

Lemma nettoyer_donnees_annee_texte_witness :
  fst (nettoyer_donnees 1%positive
         (mkWorld {[ 1%positive := table_annee_texte ]} [] Introuvable))
  = if existsb is_str [SStr "2023"; SStr "20x3"] then Raise TypeError else Ok 1%positive.
Proof.
  apply (nettoyer_donnees_annee_texte 1%positive _ table_annee_texte
           (Object [SStr "2023"; SStr "20x3"])); try reflexivity.
  apply (bool_decide_unpack _). reflexivity.
Defined.

(** ** The rows a filter keeps *)

Lemma extrait_refl d : extrait Some d d.
Proof. split; [done|]. intros i1 i2 j1 j2 H [= <-] [= <-]. done. Qed.

Lemma extrait_loc m d : extrait (origin m) d (Pd.loc m d).
Proof. split; [intros; apply cell_loc|apply origin_mono]. Qed.

Lemma extrait_trans f g d1 d2 d3 :
  extrait f d1 d2 -> extrait g d2 d3 -> extrait (fun i => g i ≫= f) d1 d3.
Proof.
  intros [Hf Mf] [Hg Mg]. split.
  - intros c i. rewrite Hg. destruct (g i) as [j|]; [|done]. cbn. apply Hf.
  - intros i1 i2 j1 j2 Hlt H1 H2.
    destruct (g i1) as [k1|] eqn:E1; [|done]. destruct (g i2) as [k2|] eqn:E2; [|done].
    cbn in H1, H2. eapply Mf; [|done|done]. by eapply Mg.
Qed.

Lemma selection_extrait d d' : selection d d' -> exists f, extrait f d d'.
Proof.
  intros [->|[m ->]]; eexists; [apply extrait_refl|apply extrait_loc].
Qed.

Lemma columns_selection d d' : selection d d' -> Pd.columns d' = Pd.columns d.
Proof. intros [->|[m ->]]; [done|apply columns_loc]. Qed.

(** X7. Whatever the user picks, the filters only remove rows:
    the filtered table has the columns of the cleaned table, and its rows
    are rows of the cleaned table, each with all its cells, in their
    order. *)
Theorem filtrer_extrait u d d' :
  filtrer u d = Ok d' ->
  Pd.columns d' = Pd.columns d /\
  exists f,
    (forall c i, cell d' c i = f i ≫= cell d c) /\
    (forall i1 i2 j1 j2, i1 < i2 -> f i1 = Some j1 -> f i2 = Some j2 -> j1 < j2).
Proof.
  unfold filtrer, filtre_mode, filtre_thematique.
  destruct (filtre_annee _ d) as [da|e] eqn:Ha; cbn [mbind exc_bind]; [|done].
  destruct (filtre_valeur "mode" _ _ da) as [dm|e] eqn:Hm;
    cbn [mbind exc_bind]; [|done].
  intros Ht.
  apply filtre_annee_selection in Ha. apply filtre_valeur_selection_any in Hm, Ht.
  split.
  - by rewrite (columns_selection _ _ Ht), (columns_selection _ _ Hm),
               (columns_selection _ _ Ha).
  - destruct (selection_extrait _ _ Ha) as [fa Ea].
    destruct (selection_extrait _ _ Hm) as [fm Em].
    destruct (selection_extrait _ _ Ht) as [ft Et].
    eexists. exact (extrait_trans _ _ _ _ _ (extrait_trans _ _ _ _ _ Ea Em) Et).
Qed.

Lemma filtrer_extrait_witness :
  Pd.columns (Pd.loc [false; false; true] table_nettoyee) = Pd.columns table_nettoyee /\
  exists f,
    (forall c i, cell (Pd.loc [false; false; true] table_nettoyee) c i
                 = f i ≫= cell table_nettoyee c) /\
    (forall i1 i2 j1 j2, i1 < i2 -> f i1 = Some j1 -> f i2 = Some j2 -> j1 < j2).
Proof.
  apply (filtrer_extrait (criteres [SInt 2024] "Metro" "Toutes") table_nettoyee).
  reflexivity.
Defined.

(** X8. When the years selected are years of the table, NaN apart, the
    year filter keeps exactly the rows whose year is one of them, in their
    order: a row whose year is missing is dropped, and every year selected
    keeps a row.  With no year selected the filter leaves the table as it
    is (it does not empty it). *)
Theorem filtre_annee_exact sel d d' s :
  Pd.getitem d "annee" = Ok s -> annees_de sel d ->
  filtre_annee (fun _ => sel) d = Ok d' ->
  (sel = [] -> d' = d) /\
  (sel <> [] ->
   exists f,
     (forall c i, cell d' c i = f i ≫= cell d c) /\
     (forall i1 i2 j1 j2, i1 < i2 -> f i1 = Some j1 -> f i2 = Some j2 -> j1 < j2) /\
     (forall i j, f i = Some j ->
        exists x, cell d "annee" j = Some x /\ is_nan x = false /\
                  existsb (scalar_eqb x) sel = true) /\
     (forall j x, cell d "annee" j = Some x -> is_nan x = false ->
        existsb (scalar_eqb x) sel = true -> exists i, f i = Some j) /\
     (forall x, x ∈ sel -> exists i j, f i = Some j /\ cell d "annee" j = Some x)).
Proof.
  intros Hs Hsel. unfold filtre_annee. rewrite (has_getitem _ _ _ Hs).
  destruct (annees_dispo d) as [dispo|e]; cbn [mbind exc_bind]; [|done].
  rewrite Hs. cbn [mbind exc_bind].
  destruct sel as [|v sel].
  - intros [= <-]. split; [done|]. by intros [].
  - intros [= <-]. split; [done|]. intros _.
    assert (Hm : forall j, Pd.isin s (v :: sel) !! j = Some true <->
                   exists x, cell d "annee" j = Some x /\ is_nan x = false /\
                             existsb (scalar_eqb x) (v :: sel) = true).
    { intros j. unfold Pd.isin, cell. rewrite Hs, list_lookup_fmap.
      destruct (Pd.values s !! j) as [x|]; cbn [fmap option_fmap option_map].
      - split.
        + intros [= [Hn E]%andb_prop]. exists x. split; [done|].
          split; [by apply negb_true_iff|done].
        + intros (x' & [= <-] & Hn & E). by rewrite Hn, E.
      - split; [done|by intros (? & ? & _)]. }
    exists (origin (Pd.isin s (v :: sel))). split; [intros; apply cell_loc|].
    split; [apply origin_mono|]. split; [|split].
    + intros i j Hij. by apply Hm, (origin_true _ i).
    + intros j x Hx Hn E. apply origin_onto, Hm. by exists x.
    + intros x Hx. destruct (Hsel s x Hs Hx) as [Hin Hnn].
      apply list_elem_of_lookup in Hin as [j Hj].
      assert (cell d "annee" j = Some x) as Hc by (unfold cell; by rewrite Hs).
      destruct (origin_onto (Pd.isin s (v :: sel)) j) as [i Hi]; [|by exists i, j].
      apply Hm. exists x. split; [done|]. split; [done|].
      apply existsb_exists. exists x.
      split; [by apply list_elem_of_In|apply scalar_eqb_refl].
Qed.

Lemma filtre_annee_exact_witness :
  ([SFloat 2023] = [] ->
   Pd.loc [true; false] table_annee_manquante = table_annee_manquante) /\
  ([SFloat 2023] <> [] ->
   exists f,
     (forall c i, cell (Pd.loc [true; false] table_annee_manquante) c i
                  = f i ≫= cell table_annee_manquante c) /\
     (forall i1 i2 j1 j2, i1 < i2 -> f i1 = Some j1 -> f i2 = Some j2 -> j1 < j2) /\
     (forall i j, f i = Some j ->
        exists x, cell table_annee_manquante "annee" j = Some x /\ is_nan x = false /\
                  existsb (scalar_eqb x) [SFloat 2023] = true) /\
     (forall j x, cell table_annee_manquante "annee" j = Some x -> is_nan x = false ->
        existsb (scalar_eqb x) [SFloat 2023] = true -> exists i, f i = Some j) /\
     (forall x, x ∈ [SFloat 2023] ->
        exists i j, f i = Some j /\ cell table_annee_manquante "annee" j = Some x)).
Proof.
  apply (filtre_annee_exact [SFloat 2023] table_annee_manquante
           (Pd.loc [true; false] table_annee_manquante)
           (Float64 [Some 2023%Q; None])); [reflexivity| |reflexivity].
  intros s x [= <-] ->%list_elem_of_singleton. split; [left|reflexivity].
Defined.

(** ** Choices taken from the options *)

Lemma empty_false d : Pd.empty d = false <-> cols d <> [] /\ Pd.nrows d <> 0.
Proof.
  unfold Pd.empty. destruct (cols d) as [|c l] eqn:E.
  - split; [done|by intros [? _]].
  - rewrite Nat.eqb_neq. split; [by intros ?|by intros [_ ?]].
Qed.

Lemma loc_non_vide m d j :
  Pd.empty d = false -> m !! j = Some true -> j < Pd.nrows d ->
  Pd.empty (Pd.loc m d) = false.
Proof.
  rewrite !empty_false. intros [Hc Hn] Hm Hj. unfold Pd.loc, Pd.nrows in *.
  cbn [cols]. destruct (cols d) as [|c l]; [done|]. cbn [fmap list_fmap snd].
  split; [done|]. unfold Pd.size in *. rewrite values_take.
  destruct (origin_onto m j Hm) as [i Hi].
  apply lookup_lt_is_Some in Hj as [x Hx].
  assert (mask_filter m (Pd.values (snd c)) !! i = Some x) as H.
  { by rewrite lookup_mask_filter, Hi. }
  apply lookup_lt_Some in H. lia.
Qed.

Lemma py_sorted_elem l l' x : py_sorted l = Ok l' -> x ∈ l' -> x ∈ l.
Proof.
  unfold py_sorted. destruct (_ && _); [done|]. intros [= <-].
  by rewrite elem_of_sort_by.
Qed.

Lemma filtre_annee_non_vide choose d d' :
  (forall options x, x ∈ choose options -> x ∈ options) ->
  Pd.rectangular d = true -> Pd.empty d = false ->
  column_all (fun x => negb (is_nan x)) d "annee" ->
  filtre_annee choose d = Ok d' -> Pd.empty d' = false.
Proof.
  intros Hch Hr Hne Hnn. unfold filtre_annee.
  destruct (Pd.has d "annee"); [|by intros [= <-]].
  unfold annees_dispo.
  destruct (Pd.getitem d "annee") as [s|e] eqn:Hs; cbn [mbind exc_bind]; [|done].
  destruct (py_sorted _) as [dispo|e] eqn:Hd; cbn [mbind exc_bind]; [|done].
  destruct (choose dispo) as [|v sel] eqn:Hsel; [by intros [= <-]|].
  intros [= <-].
  assert (v ∈ Pd.values s) as [j Hj]%list_elem_of_lookup.
  { eapply elem_of_unique, py_sorted_elem; [done|]. apply Hch. rewrite Hsel. left. }
  apply (loc_non_vide _ _ j); [done| |].
  - specialize (Hnn s Hs). rewrite Forall_forall in Hnn.
    unfold Pd.isin. rewrite list_lookup_fmap, Hj. cbn.
    rewrite (Hnn v ltac:(by eapply list_elem_of_lookup_2)).
    by rewrite scalar_eqb_refl.
  - apply lookup_lt_Some in Hj. by rewrite <- (rectangular_getitem _ _ _ Hr Hs).
Qed.

Lemma filtre_valeur_non_vide col tous choose d d' :
  (forall options, options <> [] -> choose options ∈ options) ->
  Pd.rectangular d = true -> Pd.empty d = false ->
  column_all (fun x => is_str x || is_nan x) d col ->
  filtre_valeur col tous choose d = Ok d' -> Pd.empty d' = false.
Proof.
  intros Hch Hr Hne Hall. unfold filtre_valeur.
  destruct (Pd.has d col); [|by intros [= <-]].
  unfold options_dispo.
  destruct (Pd.getitem d col) as [s|e] eqn:Hs; cbn [mbind exc_bind]; [|done].
  match goal with |- context [choose ?o] => set (opts := o) end.
  destruct (String.eqb_spec (choose opts) tous) as [E|E]; cbn [negb];
    [by intros [= <-]|].
  intros [= <-].
  assert (choose opts ∈ opts) as Hin by by apply Hch.
  apply elem_of_cons in Hin as [Hin|Hin]; [done|].
  apply elem_of_sort_by, elem_of_unique, list_elem_of_fmap in Hin as (x & Hx & Hin).
  apply list_elem_of_In, filter_In in Hin as [Hin Hnn].
  apply list_elem_of_In, list_elem_of_lookup in Hin as [j Hj].
  specialize (Hall s Hs). rewrite Forall_forall in Hall.
  pose proof (Hall x ltac:(by eapply list_elem_of_lookup_2)) as Hstr.
  destruct x as [| |t|]; try done. cbn in Hx.
  apply (loc_non_vide _ _ j); [done| |].
  - unfold Pd.eq_str. rewrite list_lookup_fmap, Hj. cbn. rewrite Hx.
    by rewrite String.eqb_refl.
  - apply lookup_lt_Some in Hj. by rewrite <- (rectangular_getitem _ _ _ Hr Hs).
Qed.

(** X9. When the user picks among the options offered, no year is
    missing in the [annee] column and the [mode] and [thematique] columns
    hold text, the filters never empty a table that is not empty. *)
Theorem filtrer_non_vide u d d' :
  choisit_parmi u ->
  Pd.rectangular d = true -> Pd.empty d = false ->
  column_all (fun x => negb (is_nan x)) d "annee" ->
  column_all (fun x => is_str x || is_nan x) d "mode" ->
  column_all (fun x => is_str x || is_nan x) d "thematique" ->
  filtrer u d = Ok d' -> Pd.empty d' = false.
Proof.
  intros [Hm Hs] Hr Hne Ca Cm Ct. unfold filtrer, filtre_mode, filtre_thematique.
  destruct (filtre_annee _ d) as [da|e] eqn:Ha; cbn [mbind exc_bind]; [|done].
  destruct (filtre_valeur "mode" _ _ da) as [dm|e] eqn:Hmo;
    cbn [mbind exc_bind]; [|done].
  intros Ht.
  pose proof (filtre_annee_selection _ _ _ Ha) as Sa.
  pose proof (filtre_valeur_selection_any _ _ _ _ _ Hmo) as Sm.
  apply (filtre_annee_non_vide _ _ _ (Hm _) Hr Hne Ca) in Ha.
  apply (rectangular_selection _ _ Sa) in Hr.
  apply (filtre_valeur_non_vide _ _ _ _ _ (Hs _) Hr Ha
           (column_all_selection _ _ _ _ Sa Cm)) in Hmo.
  apply (rectangular_selection _ _ Sm) in Hr.
  apply (filtre_valeur_non_vide _ _ _ _ _ (Hs "Thématique") Hr Hmo
           (column_all_selection _ _ _ _ Sm (column_all_selection _ _ _ _ Sa Ct))
           Ht).
Qed.

Lemma filtrer_non_vide_witness :
  Pd.empty (Pd.loc [false; false; true] table_nettoyee) = false.
Proof.
  apply (filtrer_non_vide utilisateur_dernier table_nettoyee
           (Pd.loc [false; false; true] table_nettoyee)).
  - split.
    + intros label options x Hx. cbn in Hx.
      destruct (last options) as [y|] eqn:E; [|by apply elem_of_nil in Hx].
      apply list_elem_of_singleton in Hx as ->. by apply last_Some_elem_of.
    + intros label options Hne. cbn.
      destruct (last options) as [y|] eqn:E; [by apply last_Some_elem_of|].
      by apply last_None in E.
  - reflexivity.
  - reflexivity.
  - intros s [= <-]. by repeat constructor.
  - intros s [= <-]. by repeat constructor.
  - intros s [= <-]. by repeat constructor.
  - reflexivity.
Defined.

Lemma mask_filter_none {A} m (l : list A) :
  Forall (fun b => b = false) m -> mask_filter m l = [].
Proof.
  intros H; revert l; induction H as [|b m -> _ IH]; intros [|x l]; cbn; auto.
Qed.

(** X10. The options of a select box are texts
    ([astype(str)]) but the rows are compared with the cells themselves:
    on a column that holds no text (numeric codes for instance) every
    choice other than the sentinel leaves a table without rows. *)
Theorem filtre_valeur_sans_texte col tous choose d d' s options :
  Pd.getitem d col = Ok s ->
  existsb is_str (Pd.values s) = false ->
  options_dispo tous col d = Ok options ->
  choose options <> tous ->
  filtre_valeur col tous choose d = Ok d' ->
  Pd.columns d' = Pd.columns d /\
  Forall (fun c => Pd.size (snd c) = 0) (cols d').
Proof.
  intros Hs Hno Ho Hne. unfold filtre_valeur.
  rewrite (has_getitem _ _ _ Hs), Ho, Hs. cbn [mbind exc_bind].
  destruct (String.eqb_spec (choose options) tous) as [E|E]; [done|].
  cbn [negb]. intros [= <-]. split; [apply columns_loc|].
  unfold Pd.loc. cbn [cols]. rewrite Forall_fmap. apply Forall_true.
  intros c. unfold compose. cbn [snd]. unfold Pd.size.
  rewrite values_take, mask_filter_none; [done|].
  unfold Pd.eq_str. rewrite Forall_fmap, Forall_forall. intros x Hx.
  destruct x as [| |t|]; try done.
  assert (existsb is_str (Pd.values s) = true); [|congruence].
  apply existsb_exists. exists (SStr t). split; [by apply list_elem_of_In|done].
Qed.

Lemma filtre_valeur_sans_texte_witness :
  Pd.columns (Pd.loc [false; false; false] table_mode_code) = Pd.columns table_mode_code /\
  Forall (fun c => Pd.size (snd c) = 0) (cols (Pd.loc [false; false; false] table_mode_code)).
Proof.
  apply (filtre_valeur_sans_texte "mode" "Tous" (fun _ => "1") table_mode_code
           (Pd.loc [false; false; false] table_mode_code)
           (Int64 [1; 2; 1]%Z) ["Tous"; "1"; "2"]); try reflexivity.
  discriminate.
Defined.

(** ** Means *)

Lemma sum_Q_bounds xs lo hi :
  Forall (fun x => lo <= x /\ x <= hi)%Q xs ->
  (inject_Z (Z.of_nat (length xs)) * lo <= sum_Q xs /\
   sum_Q xs <= inject_Z (Z.of_nat (length xs)) * hi)%Q.
Proof.
  induction 1 as [|x xs [Hl Hh] _ [IHl IHh]].
  - cbn. split; rewrite Qmult_0_l; apply Qle_refl.
  - cbn [length sum_Q fold_right]. rewrite Nat2Z.inj_succ, <- Z.add_1_r, inject_Z_plus.
    change (fold_right Qplus 0%Q xs) with (sum_Q xs).
    split.
    + setoid_replace ((inject_Z (Z.of_nat (length xs)) + inject_Z 1) * lo)%Q
        with (lo + inject_Z (Z.of_nat (length xs)) * lo)%Q using relation Qeq by ring.
      by apply Qplus_le_compat.
    + setoid_replace ((inject_Z (Z.of_nat (length xs)) + inject_Z 1) * hi)%Q
        with (hi + inject_Z (Z.of_nat (length xs)) * hi)%Q using relation Qeq by ring.
      by apply Qplus_le_compat.
Qed.

Lemma mean_bounds vs m lo hi :
  mean vs = Some m ->
  (forall x, Some x ∈ vs -> lo <= x /\ x <= hi)%Q ->
  (lo <= m /\ m <= hi)%Q.
Proof.
  unfold mean. intros Hm Hb.
  destruct (omap id vs) as [|x xs] eqn:E; [done|]. injection Hm as <-.
  assert (Forall (fun x => lo <= x /\ x <= hi)%Q (x :: xs)) as Hall.
  { rewrite <- E. apply Forall_forall. intros y Hy.
    apply list_elem_of_omap in Hy as (o & Ho & Hy). cbn in Hy. subst o. by apply Hb. }
  destruct (sum_Q_bounds _ _ _ Hall) as [Hl Hh].
  set (n := inject_Z (Z.of_nat (length (x :: xs)))) in *.
  assert (0 < n)%Q as Hn.
  { unfold n. rewrite <- (Zlt_Qlt 0). cbn [length]. lia. }
  rewrite Qred_correct. split.
  - apply Qle_shift_div_l; [done|]. by rewrite Qmult_comm.
  - apply Qle_shift_div_r; [done|]. by rewrite Qmult_comm.
Qed.

Lemma numeric_values_elem s vs q :
  numeric_values s = Ok vs -> Some q ∈ vs ->
  exists x, x ∈ Pd.values s /\ Pd.as_float x = Some q.
Proof.
  intros Hvs Hq.
  assert (vs = Pd.as_float <$> Pd.values s) as ->.
  { destruct s as [xs|xs|xs]; cbn in Hvs |- *; [congruence..|].
    destruct (existsb is_str xs); congruence. }
  apply list_elem_of_fmap in Hq as (x & Hx & Hin). eauto.
Qed.

Lemma vue_moyenne_par col (vue : DataFrame -> exc (list (scalar * option Q))) :
  (col, vue) ∈ [("ligne", lignes_a_surveiller); ("thematique", par_thematique)] ->
  forall d rows r, vue d = Ok rows -> r ∈ rows ->
    exists g, moyenne_par col d = Ok g /\ r ∈ g.
Proof.
  intros Hin d rows r Hv Hr.
  apply elem_of_cons in Hin as [[= -> ->]|Hin].
  - unfold lignes_a_surveiller in Hv.
    destruct (moyenne_par "ligne" d) as [g|e]; [|done]. cbn in Hv. injection Hv as <-.
    exists g. split; [done|]. by apply elem_of_take_l, elem_of_sort_by in Hr.
  - apply list_elem_of_singleton in Hin as [= -> ->]. unfold par_thematique in Hv.
    destruct (moyenne_par "thematique" d) as [g|e]; [|done]. cbn in Hv.
    injection Hv as <-. exists g. split; [done|]. by apply elem_of_sort_by in Hr.
Qed.

(** The means shown lie between any two bounds between which the
    measured values lie, as long as no sum is rounded. *)
Lemma moyennes_entre d v lo hi :
  Pd.getitem d "valeur_reelle" = Ok v ->
  (forall x q, x ∈ Pd.values v -> Pd.as_float x = Some q -> lo <= q /\ q <= hi)%Q ->
  (forall m, series_mean v = Ok (Some m) -> lo <= m /\ m <= hi)%Q /\
  (forall rows r m, lignes_a_surveiller d = Ok rows -> r ∈ rows -> snd r = Some m ->
     lo <= m /\ m <= hi)%Q /\
  (forall rows r m, par_thematique d = Ok rows -> r ∈ rows -> snd r = Some m ->
     lo <= m /\ m <= hi)%Q.
Proof.
  intros Hv Hb.
  assert (Hvs : forall vs q, numeric_values v = Ok vs -> Some q ∈ vs ->
                  (lo <= q /\ q <= hi)%Q).
  { intros vs q Hvs Hq. destruct (numeric_values_elem _ _ _ Hvs Hq) as (x & Hx & E).
    by apply (Hb x). }
  assert (Hg : forall col vue,
    (col, vue) ∈ [("ligne", lignes_a_surveiller); ("thematique", par_thematique)] ->
    forall rows r m, vue d = Ok rows -> r ∈ rows -> snd r = Some m ->
      (lo <= m /\ m <= hi)%Q).
  { intros col vue Hin rows r m Hvue Hr Hm.
    destruct (vue_moyenne_par col vue Hin d rows r Hvue Hr) as (g & Hg & Hrg).
    destruct (moyenne_par_mean _ _ _ _ Hg Hrg) as (k & v' & vs & _ & Hv' & Hvs' & E).
    rewrite Hv in Hv'. injection Hv' as <-. rewrite Hm in E.
    apply (mean_bounds _ _ _ _ (eq_sym E)). intros x Hx.
    assert (Forall (fun o => forall q, o = Some q -> (lo <= q /\ q <= hi)%Q)
                   (group_values scalar_eqb (Pd.values k) vs (fst r))) as HF.
    { apply group_values_Forall, Forall_forall. intros o Ho q ->. by eapply Hvs. }
    rewrite Forall_forall in HF. by apply (HF _ Hx). }
  split; [|split].
  - unfold series_mean. intros m.
    destruct (numeric_values v) as [vs|e] eqn:E; [|done]. cbn. intros [= Hm].
    apply (mean_bounds _ _ _ _ Hm). intros x Hx. by eapply Hvs.
  - apply (Hg "ligne"). by left.
  - apply (Hg "thematique"). by right; left.
Qed.

(** X11. When the measured values are whole numbers between [a] and
    [b], few enough for float64 to add them exactly, every mean shown
    (the first indicator, the bars of the ranked view and of the category
    view) lies between [a] and [b]. *)
Theorem moyennes_bornees d v a b :
  Pd.getitem d "valeur_reelle" = Ok v ->
  entiers_entre a b v ->
  (forall m, series_mean v = Ok (Some m) -> inject_Z a <= m /\ m <= inject_Z b)%Q /\
  (forall rows r m, lignes_a_surveiller d = Ok rows -> r ∈ rows -> snd r = Some m ->
     inject_Z a <= m /\ m <= inject_Z b)%Q /\
  (forall rows r m, par_thematique d = Ok rows -> r ∈ rows -> snd r = Some m ->
     inject_Z a <= m /\ m <= inject_Z b)%Q.
Proof.
  intros Hv [Hb _]. apply (moyennes_entre d v); [done|].
  intros x q Hx Hq. destruct (Hb x q Hx Hq) as (z & E & Hz).
  rewrite E, <- !Zle_Qle. lia.
Qed.

Lemma moyennes_bornees_witness :
  (forall m, series_mean (Float64 [Some 95%Q; Some 90%Q; Some 85%Q]) = Ok (Some m) ->
     inject_Z 0 <= m /\ m <= inject_Z 100)%Q /\
  (forall rows r m, lignes_a_surveiller table_entiere = Ok rows -> r ∈ rows ->
     snd r = Some m -> inject_Z 0 <= m /\ m <= inject_Z 100)%Q /\
  (forall rows r m, par_thematique table_entiere = Ok rows -> r ∈ rows ->
     snd r = Some m -> inject_Z 0 <= m /\ m <= inject_Z 100)%Q.
Proof.
  apply (moyennes_bornees table_entiere
           (Float64 [Some 95%Q; Some 90%Q; Some 85%Q]) 0%Z 100%Z);
    [reflexivity|].
  split; [|by vm_compute].
  intros x q Hx Hq. cbn in Hx.
  repeat (apply elem_of_cons in Hx as [->|Hx];
          [injection Hq as <-; eexists; split; [reflexivity|lia]|]).
  by apply elem_of_nil in Hx.
Defined.

(** The mean of a column without NaN of a table that has rows. *)
Lemma series_mean_definie d v :
  normalisee d = true -> Pd.empty d = false ->
  Pd.getitem d "valeur_reelle" = Ok v ->
  exists m, series_mean v = Ok (Some m).
Proof.
  intros [Hr Hnum]%normalisee_iff [_ Hn]%empty_false Hv.
  destruct (Hnum v Hv) as (vs & Hvs & Hall). unfold series_mean. rewrite Hvs.
  cbn [fmap exc_fmap]. destruct (mean_is_Some vs) as [m ->]; [|done|by exists m].
  intros ->. apply numeric_values_length in Hvs.
  rewrite (rectangular_getitem _ _ _ Hr Hv) in Hvs. cbn in Hvs. lia.
Qed.

(** The mean of a column lies between any two bounds between which its
    values lie, as long as no sum is rounded. *)
Lemma series_mean_entre s m lo hi :
  series_mean s = Ok (Some m) ->
  (forall x q, x ∈ Pd.values s -> Pd.as_float x = Some q -> lo <= q /\ q <= hi)%Q ->
  (lo <= m /\ m <= hi)%Q.
Proof.
  unfold series_mean. destruct (numeric_values s) as [vs|e] eqn:E; [|done].
  cbn. intros [= Hm] Hb. apply (mean_bounds _ _ _ _ Hm). intros x Hx.
  destruct (numeric_values_elem _ _ _ E Hx) as (y & Hy & Ey). by apply (Hb y).
Qed.

(** X12. On a normalised table that is not empty and whose measured
    values are finite (between [-B] and [B], with [B] times the number of
    rows at most 2^53), the mean behind the first indicator is a number
    between [-B] and [B]: it is never NaN. *)
Theorem moyenne_reelle_definie d v B :
  normalisee d = true -> Pd.empty d = false ->
  Pd.getitem d "valeur_reelle" = Ok v ->
  valeurs_finies B v ->
  exists m, series_mean v = Ok (Some m) /\
            (inject_Z (- B) <= m /\ m <= inject_Z B)%Q.
Proof.
  intros Hn He Hv [Hb _]. destruct (series_mean_definie d v Hn He Hv) as [m Hm].
  exists m. split; [done|]. by apply (series_mean_entre v).
Qed.

Lemma moyenne_reelle_definie_witness :
  exists m, series_mean (Float64 [Some (197 # 2); Some 90%Q; Some (183 # 2)]) = Ok (Some m) /\
            (inject_Z (- 100) <= m /\ m <= inject_Z 100)%Q.
Proof.
  apply (moyenne_reelle_definie table_nettoyee _ 100%Z); try reflexivity.
  split; [|by vm_compute].
  intros x q Hx Hq. cbn in Hx.
  repeat (apply elem_of_cons in Hx as [->|Hx];
          [injection Hq as <-; split; discriminate|]).
  by apply elem_of_nil in Hx.
Defined.

(** ** Sorting with an order that is total on the values at hand *)

Section SortOn.
Context {A : Type} (f : A -> A -> bool) (P : A -> Prop).
Hypothesis f_total : forall x y, P x -> P y -> f x y = true \/ f y x = true.
Hypothesis f_trans :
  forall x y z, P x -> P y -> P z -> f x y = true -> f y z = true -> f x z = true.

Lemma Sorted_list_merge_on l1 l2 :
  Forall P l1 -> Forall P l2 ->
  Sorted (holds f) l1 -> Sorted (holds f) l2 ->
  Sorted (holds f) (list_merge (holds f) l1 l2).
Proof.
  intros HP1 HP2 H1. revert HP1 l2 HP2.
  induction H1 as [|x1 l1 Hs1 IH1 Hd1]; intros HP1 l2 HP2 H2.
  { by rewrite list_merge_nil_l. }
  apply Forall_cons in HP1 as [Px1 HP1].
  induction H2 as [|x2 l2 Hs2 IH2 Hd2].
  { rewrite list_merge_nil_r. by constructor. }
  apply Forall_cons in HP2 as [Px2 HP2].
  rewrite list_merge_cons. case_decide as Hx.
  - constructor.
    + apply IH1; [done|by constructor|by constructor].
    + apply HdRel_list_merge; [done|by constructor].
  - constructor.
    + by apply IH2.
    + apply HdRel_list_merge; [|done]. constructor.
      destruct (f_total x1 x2 Px1 Px2) as [H|H]; [done|exact H].
Qed.

Lemma Sorted_merge_list_to_stack_on st l :
  merge_stack_Sorted (holds f) st -> Forall P (merge_stack_flatten st) ->
  Sorted (holds f) l -> Forall P l ->
  merge_stack_Sorted (holds f) (merge_list_to_stack (holds f) st l).
Proof.
  intros Hst. revert l. induction Hst as [|st Hst IH|l' st Hl' Hst IH];
    intros l HP Hl HPl; cbn [merge_list_to_stack merge_stack_flatten] in *.
  - by repeat constructor.
  - by constructor.
  - apply Forall_app in HP as [HPl' HP]. constructor. apply IH; [done| |].
    + by apply Sorted_list_merge_on.
    + rewrite merge_Permutation. by apply Forall_app.
Qed.

Lemma Sorted_merge_stack_on st :
  merge_stack_Sorted (holds f) st -> Forall P (merge_stack_flatten st) ->
  Sorted (holds f) (merge_stack (holds f) st).
Proof.
  induction 1 as [|st Hst IH|l st Hl Hst IH]; intros HP;
    cbn [merge_stack merge_stack_flatten] in *; [constructor|by apply IH|].
  apply Forall_app in HP as [HPl HP].
  apply Sorted_list_merge_on; [done| |done|by apply IH].
  by rewrite merge_stack_Permutation.
Qed.

Lemma Sorted_merge_sort_aux_on st l :
  merge_stack_Sorted (holds f) st -> Forall P (merge_stack_flatten st) ->
  Forall P l ->
  Sorted (holds f) (merge_sort_aux (holds f) st l).
Proof.
  revert st. induction l as [|x l IH]; intros st Hst HP HPl; cbn [merge_sort_aux].
  - by apply Sorted_merge_stack_on.
  - apply Forall_cons in HPl as [Px HPl]. apply IH; [| |done].
    + apply Sorted_merge_list_to_stack_on; [done|done|by repeat constructor|].
      by constructor.
    + rewrite merge_list_to_stack_Permutation. by constructor.
Qed.

Lemma Sorted_StronglySorted_on l :
  Forall P l -> Sorted (holds f) l -> StronglySorted (holds f) l.
Proof.
  intros HP H. induction H as [|x l Hs IH Hd]; [constructor|].
  apply Forall_cons in HP as [Px HP]. specialize (IH HP).
  constructor; [done|].
  clear Hs. induction IH as [|y l Hsl IHl Hy]; [constructor|].
  apply Forall_cons in HP as [Py HP]. inversion Hd as [|?? Hxy]; subst.
  constructor; [done|].
  rewrite Forall_forall in Hy |- *. intros z Hz.
  apply (f_trans x y z); [done|done| |done|by apply Hy].
  rewrite Forall_forall in HP. by apply HP.
Qed.

Lemma sort_by_sorted_on l :
  Forall P l -> StronglySorted (holds f) (sort_by f l).
Proof.
  intros HP. apply Sorted_StronglySorted_on.
  - unfold sort_by. by rewrite merge_sort_Permutation.
  - apply Sorted_merge_sort_aux_on; [constructor|constructor|done].
Qed.
End SortOn.

Lemma string_leb_trans s t u :
  String.leb s t = true -> String.leb t u = true -> String.leb s u = true.
Proof.
  intros H1%Is_true_true H2%Is_true_true. apply Is_true_true.
  change (String.le s u). by trans t.
Qed.

Lemma scalar_leb_total x y :
  is_nan x = false -> is_nan y = false ->
  scalar_leb x y = true \/ scalar_leb y x = true.
Proof.
  destruct x as [a|p|s|], y as [b|q|t|]; cbn; try done; auto; intros _ _;
    try apply String.leb_total;
    rewrite !Qle_bool_iff;
    match goal with |- (?p <= ?q)%Q \/ _ =>
      destruct (Qlt_le_dec q p) as [H|H]; [right; by apply Qlt_le_weak|by left]
    end.
Qed.

Lemma scalar_leb_trans x y z :
  is_nan x = false -> is_nan y = false -> is_nan z = false ->
  scalar_leb x y = true -> scalar_leb y z = true -> scalar_leb x z = true.
Proof.
  destruct x as [a|p|s|], y as [b|q|t|], z as [c|r|u|]; cbn; try done;
    intros _ _ _; try apply string_leb_trans;
    rewrite !Qle_bool_iff; apply Qle_trans.
Qed.

(** ** Groups, for any kind of key *)

Section GroupsAny.
Context {K : Type} (eqb leb : K -> K -> bool) (missing : K -> bool).
Hypothesis eqb_refl : forall x, eqb x x = true.
Hypothesis eqb_sym : forall x y, eqb x y = eqb y x.

Lemma elem_of_group_keys_any ks k :
  k ∈ group_keys eqb leb missing ks -> k ∈ ks /\ missing k = false.
Proof.
  unfold group_keys. rewrite elem_of_sort_by. intros H%elem_of_unique.
  apply list_elem_of_In, filter_In in H as [H1 H2].
  split; [by apply list_elem_of_In|]. by destruct (missing k).
Qed.

Lemma group_keys_distinct_any ks : distinct_by eqb (group_keys eqb leb missing ks).
Proof.
  unfold group_keys.
  eapply (distinct_by_Permutation _ _ _ eqb_sym);
    [symmetry; apply sort_by_Permutation|].
  by apply unique_from_distinct.
Qed.

Lemma group_keys_complete_any ks x :
  x ∈ ks -> missing x = false ->
  exists k, k ∈ group_keys eqb leb missing ks /\ eqb x k = true.
Proof.
  intros Hx Hn.
  assert (Hf : x ∈ List.filter (fun k => negb (missing k)) ks).
  { apply list_elem_of_In, filter_In. split; [by apply list_elem_of_In|].
    by rewrite Hn. }
  pose proof (unique_from_complete eqb [] _ x eqb_refl Hf) as H.
  cbn [existsb orb] in H. apply existsb_exists in H as (k & Hk & E).
  exists k. split; [|done]. unfold group_keys. rewrite elem_of_sort_by.
  by apply list_elem_of_In.
Qed.

Lemma groupby_mean_keys_any ks vs :
  fst <$> groupby_mean eqb leb missing ks vs = group_keys eqb leb missing ks.
Proof.
  unfold groupby_mean. rewrite <- list_fmap_compose.
  rewrite <- (list_fmap_id (group_keys eqb leb missing ks)) at 2.
  by apply list_fmap_ext.
Qed.

Lemma elem_of_groupby_mean_any ks vs r :
  r ∈ groupby_mean eqb leb missing ks vs ->
  fst r ∈ group_keys eqb leb missing ks /\
  snd r = mean (group_values eqb ks vs (fst r)).
Proof.
  unfold groupby_mean. intros (k & -> & Hk)%list_elem_of_fmap. done.
Qed.
End GroupsAny.

Lemma distinct_by_lookup {A} (eqb : A -> A -> bool) l i j a b :
  distinct_by eqb l -> i < j -> l !! i = Some a -> l !! j = Some b ->
  eqb a b = false.
Proof.
  revert i j; induction l as [|x l IH]; intros i j Hd Hlt; [done|].
  destruct Hd as [Hx Hl].
  destruct j as [|j]; [lia|]. destruct i as [|i]; cbn.
  - intros [= <-] Hb. rewrite Forall_forall in Hx. apply Hx.
    by eapply list_elem_of_lookup_2.
  - apply IH; [done|lia].
Qed.

Lemma pair_eqb_refl x : pair_eqb x x = true.
Proof. unfold pair_eqb. by rewrite !scalar_eqb_refl. Qed.

Lemma pair_eqb_sym x y : pair_eqb x y = pair_eqb y x.
Proof. unfold pair_eqb. by rewrite (scalar_eqb_sym (fst x)), (scalar_eqb_sym (snd x)). Qed.

Lemma evolution_cases d key label rows :
  Pd.getitem d "sort_key" = Ok key -> Pd.getitem d "periode_label" = Ok label ->
  evolution d = Ok rows ->
  exists v vs,
    Pd.getitem d "valeur_reelle" = Ok v /\ numeric_values v = Ok vs /\
    let ks := zip (Pd.values key) (Pd.values label) in
    if Pd.has d "valeur_objectif" then
      exists o os,
        Pd.getitem d "valeur_objectif" = Ok o /\ numeric_values o = Ok os /\
        rows = ((ligne_temps "Réel" <$> points ks vs)
                ++ (ligne_temps "Objectif" <$> points ks os))%list
    else rows = ligne_temps "Réel" <$> points ks vs.
Proof.
  intros Hk Hl. unfold evolution. rewrite Hk, Hl. cbn [mbind exc_bind].
  destruct (Pd.has d "valeur_objectif"); cbn [mapM].
  - destruct (Pd.getitem d "valeur_reelle") as [v|e] eqn:Hv; cbn [mbind exc_bind]; [|done].
    destruct (numeric_values v) as [vs|e] eqn:Hvs; cbn [mbind exc_bind]; [|done].
    destruct (Pd.getitem d "valeur_objectif") as [o|e] eqn:Ho; cbn [mbind exc_bind]; [|done].
    destruct (numeric_values o) as [os|e] eqn:Hos; cbn [mbind exc_bind]; [|done].
    intros [= <-]. exists v, vs. split; [done|]. split; [done|].
    exists o, os. split; [done|]. split; [done|].
    cbn. by rewrite app_nil_r.
  - destruct (Pd.getitem d "valeur_reelle") as [v|e] eqn:Hv; cbn [mbind exc_bind]; [|done].
    destruct (numeric_values v) as [vs|e] eqn:Hvs; cbn [mbind exc_bind]; [|done].
    intros [= <-]. exists v, vs. split; [done|]. split; [done|].
    cbn. by rewrite app_nil_r.
Qed.

(** ** Sorting and keys *)

(** Sorting by a key commutes with taking the key. *)
Section SortKey.
Context {A B : Type} (g : A -> B) (f : B -> B -> bool).

Lemma list_merge_fmap l1 l2 :
  g <$> list_merge (holds (fun a b : A => f (g a) (g b))) l1 l2 = list_merge (holds f) (g <$> l1) (g <$> l2).
Proof.
  revert l2; induction l1 as [|x1 l1 IH1]; intros l2.
  { cbn [fmap list_fmap]. by rewrite !list_merge_nil_l. }
  induction l2 as [|x2 l2 IH2].
  { cbn [fmap list_fmap]. by rewrite !list_merge_nil_r. }
  cbn [fmap list_fmap]. rewrite !list_merge_cons.
  destruct (decide (holds (fun a b : A => f (g a) (g b)) x1 x2)) as [H|H];
    destruct (decide (holds f (g x1) (g x2))) as [H'|H']; try done.
  - cbn [fmap list_fmap]. f_equal. apply (IH1 (x2 :: l2)).
  - cbn [fmap list_fmap]. f_equal. apply IH2.
Qed.

Lemma merge_list_to_stack_fmap st l :
  fmap (M:=list) (fmap (M:=option) (fmap g)) (merge_list_to_stack (holds (fun a b : A => f (g a) (g b))) st l)
  = merge_list_to_stack (holds f) (fmap (M:=list) (fmap (M:=option) (fmap g)) st) (g <$> l).
Proof.
  revert l; induction st as [|[l'|] st IH]; intros l; cbn; try done.
  f_equal. by rewrite IH, list_merge_fmap.
Qed.

Lemma merge_stack_fmap st :
  g <$> merge_stack (holds (fun a b : A => f (g a) (g b))) st
  = merge_stack (holds f) (fmap (M:=list) (fmap (M:=option) (fmap g)) st).
Proof.
  induction st as [|[l|] st IH]; cbn; try done.
  by rewrite list_merge_fmap, IH.
Qed.

Lemma merge_sort_aux_fmap st l :
  g <$> merge_sort_aux (holds (fun a b : A => f (g a) (g b))) st l
  = merge_sort_aux (holds f) (fmap (M:=list) (fmap (M:=option) (fmap g)) st) (g <$> l).
Proof.
  revert st; induction l as [|x l IH]; intros st; cbn [merge_sort_aux fmap list_fmap].
  - apply merge_stack_fmap.
  - rewrite IH. f_equal. apply (merge_list_to_stack_fmap st [x]).
Qed.

Lemma sort_by_fmap l : g <$> sort_by (fun a b : A => f (g a) (g b)) l = sort_by f (g <$> l).
Proof. apply (merge_sort_aux_fmap []). Qed.
End SortKey.

(** ** The temporal view *)

Lemma points_keys ks vs :
  fst <$> points ks vs
  = sort_by (fun a b : scalar * scalar => scalar_leb (fst a) (fst b))
            (group_keys pair_eqb pair_leb pair_missing ks).
Proof.
  unfold points.
  rewrite (sort_by_fmap fst (fun a b : scalar * scalar => scalar_leb (fst a) (fst b))).
  by rewrite groupby_mean_keys_any.
Qed.

Lemma elem_of_points ks vs g :
  g ∈ points ks vs ->
  fst g ∈ ks /\ pair_missing (fst g) = false /\
  snd g = mean (group_values pair_eqb ks vs (fst g)).
Proof.
  unfold points. rewrite elem_of_sort_by.
  intros [Hk Hm]%elem_of_groupby_mean_any.
  apply elem_of_group_keys_any in Hk as [Hk Hn]. done.
Qed.

Lemma points_sorted ks vs :
  StronglySorted (holds (fun a b : scalar * scalar * option Q =>
                           scalar_leb (fst (fst a)) (fst (fst b))))
                 (points ks vs).
Proof.
  unfold points.
  apply (sort_by_sorted_on _ (fun g => is_nan (fst (fst g)) = false)).
  - intros x y. apply scalar_leb_total.
  - intros x y z. apply scalar_leb_trans.
  - apply Forall_forall. intros g [Hk _]%elem_of_groupby_mean_any.
    apply elem_of_group_keys_any in Hk as [_ Hn].
    unfold pair_missing in Hn. by apply orb_false_iff in Hn as [? _].
Qed.

Lemma points_distinct ks vs : distinct_by pair_eqb (fst <$> points ks vs).
Proof.
  rewrite points_keys.
  eapply (distinct_by_Permutation _ _ _ pair_eqb_sym);
    [symmetry; apply sort_by_Permutation|].
  apply group_keys_distinct_any, pair_eqb_sym.
Qed.

Lemma points_complete ks vs k :
  k ∈ ks -> pair_missing k = false ->
  exists g, g ∈ points ks vs /\ pair_eqb k (fst g) = true.
Proof.
  intros Hk Hn.
  destruct (group_keys_complete_any pair_eqb pair_leb pair_missing
              pair_eqb_refl ks k Hk Hn) as (k' & Hk' & E).
  rewrite <- (groupby_mean_keys_any pair_eqb pair_leb pair_missing ks vs) in Hk'.
  apply list_elem_of_fmap in Hk' as (g & -> & Hg).
  exists g. split; [|done]. unfold points. by rewrite elem_of_sort_by.
Qed.

(** X13. The table behind the line chart is the series "Réel"
    followed, when there is a [valeur_objectif] column, by the series
    "Objectif"; the two series have the same periods in the same order,
    and the score of a point is the mean of its column over the rows of
    its period. *)
Theorem evolution_series d key label rows :
  Pd.getitem d "sort_key" = Ok key ->
  Pd.getitem d "periode_label" = Ok label ->
  evolution d = Ok rows ->
  exists reel objectif,
    rows = (reel ++ objectif)%list /\
    Forall (fun r => Type_ r = "Réel") reel /\
    Forall (fun r => Type_ r = "Objectif") objectif /\
    (if Pd.has d "valeur_objectif"
     then (fun r => (sort_key r, periode_label r)) <$> objectif
          = (fun r => (sort_key r, periode_label r)) <$> reel
     else objectif = []) /\
    (forall r, r ∈ rows ->
       exists c vs,
         (c, Type_ r) ∈ labels_map /\
         (Pd.getitem d c ≫= numeric_values) = Ok vs /\
         Score r = mean (group_values pair_eqb
                           (zip (Pd.values key) (Pd.values label)) vs
                           (sort_key r, periode_label r))).
Proof.
  intros Hk Hl He.
  destruct (evolution_cases _ _ _ _ Hk Hl He) as (v & vs & Hv & Hvs & Hc).
  cbv zeta in Hc. set (ks := zip (Pd.values key) (Pd.values label)) in *.
  assert (Hkeys : forall t vs',
    (fun r => (sort_key r, periode_label r)) <$> (ligne_temps t <$> points ks vs')
    = fst <$> points ks vs').
  { intros t vs'. rewrite <- list_fmap_compose. apply list_fmap_ext.
    by intros i [[a b] c] _. }
  assert (Hscore : forall t c vs' r,
    (c, t) ∈ labels_map -> (Pd.getitem d c ≫= numeric_values) = Ok vs' ->
    r ∈ ligne_temps t <$> points ks vs' ->
    exists c vs,
      (c, Type_ r) ∈ labels_map /\
      (Pd.getitem d c ≫= numeric_values) = Ok vs /\
      Score r = mean (group_values pair_eqb ks vs (sort_key r, periode_label r))).
  { intros t c vs' r Hin Hn (g & -> & Hg)%list_elem_of_fmap.
    exists c, vs'. split; [done|]. split; [done|].
    apply elem_of_points in Hg as (_ & _ & Hm). by destruct g as [[a b] m]. }
  assert (Htype : forall t vs',
    Forall (fun r => Type_ r = t) (ligne_temps t <$> points ks vs')).
  { intros t vs'. rewrite Forall_fmap. by apply Forall_true. }
  assert (Hreel : (Pd.getitem d "valeur_reelle" ≫= numeric_values) = Ok vs).
  { by rewrite Hv. }
  destruct (Pd.has d "valeur_objectif").
  - destruct Hc as (o & os & Ho & Hos & ->).
    exists (ligne_temps "Réel" <$> points ks vs),
           (ligne_temps "Objectif" <$> points ks os).
    split; [done|]. split; [apply Htype|]. split; [apply Htype|]. split.
    + by rewrite !Hkeys, !points_keys.
    + intros r [Hr|Hr]%elem_of_app.
      * apply (Hscore "Réel" "valeur_reelle" vs); [by left|done|done].
      * apply (Hscore "Objectif" "valeur_objectif" os); [by right; left| |done].
        by rewrite Ho.
  - subst rows. exists (ligne_temps "Réel" <$> points ks vs), [].
    split; [by rewrite app_nil_r|]. split; [apply Htype|]. split; [constructor|].
    split; [done|]. intros r Hr.
    apply (Hscore "Réel" "valeur_reelle" vs); [by left|done|done].
Qed.

Lemma evolution_series_witness :
  exists reel objectif,
    courbe_nettoyee = (reel ++ objectif)%list /\
    Forall (fun r => Type_ r = "Réel") reel /\
    Forall (fun r => Type_ r = "Objectif") objectif /\
    (if Pd.has table_nettoyee "valeur_objectif"
     then (fun r => (sort_key r, periode_label r)) <$> objectif
          = (fun r => (sort_key r, periode_label r)) <$> reel
     else objectif = []) /\
    (forall r, r ∈ courbe_nettoyee ->
       exists c vs,
         (c, Type_ r) ∈ labels_map /\
         (Pd.getitem table_nettoyee c ≫= numeric_values) = Ok vs /\
         Score r = mean (group_values pair_eqb
                           (zip (Pd.values (Float64 [Some 20231%Q; Some 20242%Q; Some 20244%Q]))
                                (Pd.values (Object [SStr "2023 - T1"; SStr "2024 - T2";
                                                    SStr "2024 - T4"])))
                           vs (sort_key r, periode_label r))).
Proof.
  apply (evolution_series table_nettoyee
           (Float64 [Some 20231%Q; Some 20242%Q; Some 20244%Q])
           (Object [SStr "2023 - T1"; SStr "2024 - T2"; SStr "2024 - T4"])
           courbe_nettoyee); reflexivity.
Defined.

(** X14. The points of the series "Réel" are in
    non-decreasing order of [sort_key]; there is one point for each period
    (pair of [sort_key] and [periode_label]) in which both are present, and
    none for a row in which one is missing. *)
Theorem evolution_chronologique d key label rows :
  Pd.getitem d "sort_key" = Ok key ->
  Pd.getitem d "periode_label" = Ok label ->
  evolution d = Ok rows ->
  (forall r, r ∈ serie "Réel" rows ->
     is_nan (sort_key r) = false /\ is_nan (periode_label r) = false /\
     (sort_key r, periode_label r) ∈ zip (Pd.values key) (Pd.values label)) /\
  (forall i j a b, i < j ->
     serie "Réel" rows !! i = Some a -> serie "Réel" rows !! j = Some b ->
     scalar_leb (sort_key a) (sort_key b) = true /\
     (forall p q, Pd.as_float (sort_key a) = Some p ->
                  Pd.as_float (sort_key b) = Some q -> (p <= q)%Q) /\
     (scalar_eqb (sort_key a) (sort_key b)
      && scalar_eqb (periode_label a) (periode_label b) = false)) /\
  (forall x y, (x, y) ∈ zip (Pd.values key) (Pd.values label) ->
     is_nan x = false -> is_nan y = false ->
     exists r, r ∈ serie "Réel" rows /\ scalar_eqb x (sort_key r) = true /\
               scalar_eqb y (periode_label r) = true).
Proof.
  intros Hk Hl He.
  destruct (evolution_cases _ _ _ _ Hk Hl He) as (v & vs & Hv & Hvs & Hc).
  cbv zeta in Hc. set (ks := zip (Pd.values key) (Pd.values label)) in *.
  assert (Hfil : List.filter (fun r => String.eqb (Type_ r) "Réel") rows
                 = ligne_temps "Réel" <$> points ks vs).
  { assert (forall l, List.filter (fun r => String.eqb (Type_ r) "Réel")
                        (ligne_temps "Réel" <$> l) = ligne_temps "Réel" <$> l) as H1.
    { induction l as [|g l IH]; [done|]. cbn [fmap list_fmap List.filter].
      cbn [ligne_temps Type_]. by rewrite String.eqb_refl, IH. }
    assert (forall l, List.filter (fun r => String.eqb (Type_ r) "Réel")
                        (ligne_temps "Objectif" <$> l) = []) as H2.
    { induction l as [|g l IH]; [done|]. cbn [fmap list_fmap List.filter].
      cbn [ligne_temps Type_]. by rewrite IH. }
    destruct (Pd.has d "valeur_objectif").
    - destruct Hc as (o & os & _ & _ & ->).
      by rewrite List.filter_app, H1, H2, app_nil_r.
    - subst rows. apply H1. }
  unfold serie. rewrite Hfil. clear Hfil Hc He rows. split; [|split].
  - intros r (g & -> & Hg)%list_elem_of_fmap.
    apply elem_of_points in Hg as (Hin & Hm & _). destruct g as [[a b] m].
    cbn in *. unfold pair_missing in Hm. apply orb_false_iff in Hm as [? ?]. done.
  - intros i j a b Hlt Ha Hb.
    apply list_lookup_fmap_Some in Ha as (ga & -> & Ha).
    apply list_lookup_fmap_Some in Hb as (gb & -> & Hb).
    pose proof (StronglySorted_lookup _ _ i j ga gb (points_sorted ks vs) Hlt Ha Hb)
      as Hle. unfold holds in Hle.
    split; [exact Hle|]. split.
    + cbn [ligne_temps sort_key]. intros p q Hp Hq.
      destruct (fst (fst ga)), (fst (fst gb)); cbn in Hp, Hq, Hle; try done;
        injection Hp as <-; injection Hq as <-; by apply Qle_bool_iff.
    + apply (distinct_by_lookup pair_eqb (fst <$> points ks vs) i j (fst ga) (fst gb));
        [apply points_distinct|done| |]; by rewrite list_lookup_fmap, ?Ha, ?Hb.
  - intros x y Hin Hx Hy.
    destruct (points_complete ks vs (x, y) Hin) as (g & Hg & E).
    { unfold pair_missing. cbn. by rewrite Hx, Hy. }
    exists (ligne_temps "Réel" g). split; [by apply list_elem_of_fmap_2|].
    unfold pair_eqb in E. by apply andb_true_iff in E.
Qed.

Lemma evolution_chronologique_witness :
  (forall r, r ∈ serie "Réel" courbe_nettoyee ->
     is_nan (sort_key r) = false /\ is_nan (periode_label r) = false /\
     (sort_key r, periode_label r)
       ∈ zip (Pd.values (Float64 [Some 20231%Q; Some 20242%Q; Some 20244%Q]))
             (Pd.values (Object [SStr "2023 - T1"; SStr "2024 - T2"; SStr "2024 - T4"]))) /\
  (forall i j a b, i < j ->
     serie "Réel" courbe_nettoyee !! i = Some a ->
     serie "Réel" courbe_nettoyee !! j = Some b ->
     scalar_leb (sort_key a) (sort_key b) = true /\
     (forall p q, Pd.as_float (sort_key a) = Some p ->
                  Pd.as_float (sort_key b) = Some q -> (p <= q)%Q) /\
     (scalar_eqb (sort_key a) (sort_key b)
      && scalar_eqb (periode_label a) (periode_label b) = false)) /\
  (forall x y,
     (x, y) ∈ zip (Pd.values (Float64 [Some 20231%Q; Some 20242%Q; Some 20244%Q]))
                  (Pd.values (Object [SStr "2023 - T1"; SStr "2024 - T2"; SStr "2024 - T4"])) ->
     is_nan x = false -> is_nan y = false ->
     exists r, r ∈ serie "Réel" courbe_nettoyee /\ scalar_eqb x (sort_key r) = true /\
               scalar_eqb y (periode_label r) = true).
Proof.
  apply (evolution_chronologique table_nettoyee
           (Float64 [Some 20231%Q; Some 20242%Q; Some 20244%Q])
           (Object [SStr "2023 - T1"; SStr "2024 - T2"; SStr "2024 - T4"])
           courbe_nettoyee); reflexivity.
Defined.

(** ** The category view and the ranked view *)

(** X15. On a normalised table the category view has one
    bar for each thematique that is present, each once, in non-decreasing
    order of mean; unlike the ranked view it is not truncated. *)
Theorem par_thematique_complet d k v :
  normalisee d = true ->
  Pd.getitem d "thematique" = Ok k ->
  Pd.getitem d "valeur_reelle" = Ok v ->
  exists rows,
    par_thematique d = Ok rows /\
    length rows
      = length (group_keys scalar_eqb scalar_leb is_nan (Pd.values k)) /\
    (forall i j a b, i <= j -> rows !! i = Some a -> rows !! j = Some b ->
       exists p q, snd a = Some p /\ snd b = Some q /\ (p <= q)%Q) /\
    distinct_by scalar_eqb (fst <$> rows) /\
    (forall x, x ∈ Pd.values k -> is_nan x = false ->
       exists r, r ∈ rows /\ scalar_eqb x (fst r) = true).
Proof.
  intros Hnorm Hk Hv. apply normalisee_iff in Hnorm as [Hr Hnum].
  destruct (Hnum v Hv) as (vs & Hvs & Hall).
  unfold par_thematique. rewrite (moyenne_par_ok _ _ _ _ _ Hk Hv Hvs).
  cbn [mbind exc_bind].
  set (G := groupby_mean scalar_eqb scalar_leb is_nan (Pd.values k) vs).
  assert (HS : tri_croissant G ≡ₚ G) by apply sort_by_Permutation.
  assert (Hlen : length (Pd.values k) = length vs).
  { rewrite (numeric_values_length _ _ Hvs).
    change (Pd.size k = Pd.size v).
    by rewrite (rectangular_getitem _ _ _ Hr Hk), (rectangular_getitem _ _ _ Hr Hv). }
  eexists. split; [reflexivity|]. repeat split.
  - rewrite HS. unfold G. by rewrite <- (groupby_mean_keys _ vs), length_fmap.
  - intros i j a b Hij Ha Hb.
    assert (is_Some (snd a)) as [p Hp].
    { eapply groupby_mean_Some; [done..|].
      apply (elem_of_sort_by (fun a b => mean_leb (snd a) (snd b))).
      by eapply list_elem_of_lookup_2. }
    assert (is_Some (snd b)) as [q Hq].
    { eapply groupby_mean_Some; [done..|].
      apply (elem_of_sort_by (fun a b => mean_leb (snd a) (snd b))).
      by eapply list_elem_of_lookup_2. }
    exists p, q. repeat split; try done.
    destruct (decide (i = j)) as [->|Hne].
    + rewrite Ha in Hb. injection Hb as <-. rewrite Hp in Hq. injection Hq as <-.
      apply Qle_refl.
    + pose proof (StronglySorted_lookup _ _ i j a b (tri_croissant_sorted G)
                    ltac:(lia) Ha Hb) as H.
      unfold holds in H. rewrite Hp, Hq in H. by apply Qle_bool_iff.
  - eapply (distinct_by_Permutation _ _ _ scalar_eqb_sym).
    + symmetry. apply fmap_Permutation, HS.
    + unfold G. rewrite groupby_mean_keys. apply group_keys_distinct.
  - intros x Hx Hn.
    destruct (group_keys_complete _ _ Hx Hn) as (kk & Hkk & E).
    rewrite <- (groupby_mean_keys _ vs) in Hkk.
    apply list_elem_of_fmap in Hkk as (r & -> & Hr').
    exists r. split; [|done]. by rewrite HS.
Qed.

Lemma par_thematique_complet_witness :
  exists rows,
    par_thematique table_nettoyee = Ok rows /\
    length rows
      = length (group_keys scalar_eqb scalar_leb is_nan
                  [SStr "Regularite"; SStr "Regularite"; SNaN]) /\
    (forall i j a b, i <= j -> rows !! i = Some a -> rows !! j = Some b ->
       exists p q, snd a = Some p /\ snd b = Some q /\ (p <= q)%Q) /\
    distinct_by scalar_eqb (fst <$> rows) /\
    (forall x, x ∈ [SStr "Regularite"; SStr "Regularite"; SNaN] -> is_nan x = false ->
       exists r, r ∈ rows /\ scalar_eqb x (fst r) = true).
Proof.
  apply (par_thematique_complet table_nettoyee
           (Object [SStr "Regularite"; SStr "Regularite"; SNaN])
           (Float64 [Some (197 # 2); Some 90%Q; Some (183 # 2)])); reflexivity.
Defined.



(** ** The rows [nettoyer_donnees] keeps *)

(** X17. The rows [nettoyer_donnees] keeps are exactly the rows
    whose measured value is a number once read (for a text column: written
    as text, commas replaced by periods, parsed), in their order.  The
    cells of the columns other than the two numeric and the two derived
    ones are those of the source, and the measured value kept is the
    number read. *)
Theorem nettoyer_donnees_lignes r w d r' w' s :
  heap w !! r = Some d ->
  nettoyer_donnees r w = (Ok r', w') ->
  Pd.getitem (etape_renommage (etape_entetes d)) "valeur_reelle" = Ok s ->
  exists d' f,
    heap w' !! r' = Some d' /\
    (forall i1 i2 j1 j2, i1 < i2 -> f i1 = Some j1 -> f i2 = Some j2 -> j1 < j2) /\
    (forall col i,
       col ∉ ["valeur_reelle"; "valeur_objectif"; "periode_label"; "sort_key"] ->
       cell d' col i = f i ≫= cell (etape_renommage (etape_entetes d)) col) /\
    (forall j x, Pd.values s !! j = Some x ->
       (exists i, f i = Some j) <-> is_nan (valeur_lue s x) = false) /\
    (forall i j x, f i = Some j -> Pd.values s !! j = Some x ->
       exists y, cell d' "valeur_reelle" i = Some y /\
                 Pd.as_float y = Pd.as_float (valeur_lue s x)).
Proof.
  intros Hd Hn Hs. destruct (nettoyer_donnees_table _ _ _ _ _ Hd Hn) as (d' & H & Hd').
  destruct (nettoyer_dropna _ _ H) as (d0 & H0 & Hcase).
  destruct (avant_dropna_valeur _ _ _ H0 Hs) as (s' & Hc & Hs').
  rewrite (has_getitem _ _ _ Hs') in Hcase. destruct Hcase as (s0 & Hs0 & ->).
  rewrite Hs' in Hs0. injection Hs0 as <-.
  exists (Pd.loc (Pd.notna s') d0), (origin (Pd.notna s')).
  split; [done|]. split; [apply origin_mono|]. split; [|split].
  - intros col i Hcol. rewrite cell_loc. destruct (origin _ i) as [j|]; [|done].
    cbn. unfold cell. by rewrite (avant_dropna_autres _ _ _ H0 Hcol).
  - intros j x Hx. destruct (coercion_cells _ _ _ _ Hc Hx) as (y & Hy & _ & En).
    rewrite <- En. split.
    + intros [i Hi]. apply origin_true in Hi. unfold Pd.notna in Hi.
      rewrite list_lookup_fmap, Hy in Hi. cbn in Hi. injection Hi as Hi.
      by apply negb_true_iff.
    + intros Hnn. apply origin_onto. unfold Pd.notna.
      by rewrite list_lookup_fmap, Hy; cbn; rewrite Hnn.
  - intros i j x Hi Hx. destruct (coercion_cells _ _ _ _ Hc Hx) as (y & Hy & Ef & _).
    exists y. split; [|done]. rewrite cell_loc, Hi. cbn. unfold cell. by rewrite Hs'.
Qed.

Lemma nettoyer_donnees_lignes_witness :
  exists d' f,
    heap (snd (nettoyer_donnees 1%positive monde_exemple)) !! 1%positive = Some d' /\
    (forall i1 i2 j1 j2, i1 < i2 -> f i1 = Some j1 -> f i2 = Some j2 -> j1 < j2) /\
    (forall col i,
       col ∉ ["valeur_reelle"; "valeur_objectif"; "periode_label"; "sort_key"] ->
       cell d' col i = f i ≫= cell (etape_renommage (etape_entetes table_exemple)) col) /\
    (forall j x,
       [SStr "98,5"; SStr "abc"; SStr "90"; SStr "91,5"] !! j = Some x ->
       (exists i, f i = Some j)
       <-> is_nan (valeur_lue (Object [SStr "98,5"; SStr "abc"; SStr "90"; SStr "91,5"]) x)
           = false) /\
    (forall i j x, f i = Some j ->
       [SStr "98,5"; SStr "abc"; SStr "90"; SStr "91,5"] !! j = Some x ->
       exists y, cell d' "valeur_reelle" i = Some y /\
                 Pd.as_float y
                 = Pd.as_float (valeur_lue (Object [SStr "98,5"; SStr "abc"; SStr "90"; SStr "91,5"]) x)).
Proof.
  apply (nettoyer_donnees_lignes 1%positive monde_exemple table_exemple 1%positive
           (snd (nettoyer_donnees 1%positive monde_exemple))
           (Object [SStr "98,5"; SStr "abc"; SStr "90"; SStr "91,5"])); reflexivity.
Defined.

(** ** The options of a select box *)

Lemma existsb_eqb_elem (l : list string) x :
  existsb (String.eqb x) l = true <-> x ∈ l.
Proof.
  rewrite existsb_exists. split.
  - intros (y & Hy & ->%String.eqb_eq). by apply list_elem_of_In.
  - intros H. exists x. split; [by apply list_elem_of_In|apply String.eqb_refl].
Qed.

(** X18. The options of a select box are the sentinel
    followed by the texts of the cells that are present, each once, in
    strictly increasing order. *)
Theorem options_dispo_triees tous col d s :
  Pd.getitem d col = Ok s ->
  exists rest,
    options_dispo tous col d = Ok (tous :: rest) /\
    (forall i j a b, i < j -> rest !! i = Some a -> rest !! j = Some b ->
       String.leb a b = true /\ a <> b) /\
    (forall t, t ∈ rest <->
       exists x, x ∈ Pd.values s /\ is_nan x = false /\ py_str x = t).
Proof.
  intros Hs. unfold options_dispo. rewrite Hs. cbn [mbind exc_bind].
  set (l := py_str <$> List.filter (fun x => negb (is_nan x)) (Pd.values s)).
  eexists. split; [reflexivity|]. split.
  - intros i j a b Hlt Ha Hb. split.
    + assert (StronglySorted (holds String.leb) (sort_by String.leb (unique String.eqb l)))
        as HS.
      { apply (sort_by_sorted_on _ (fun _ => True)).
        - intros x y _ _. apply String.leb_total.
        - intros x y z _ _ _. apply string_leb_trans.
        - by apply Forall_true. }
      exact (StronglySorted_lookup _ _ i j a b HS Hlt Ha Hb).
    + assert (distinct_by String.eqb (sort_by String.leb (unique String.eqb l))) as HD.
      { eapply (distinct_by_Permutation _ _ _ String.eqb_sym);
          [symmetry; apply sort_by_Permutation|].
        apply unique_from_distinct, String.eqb_sym. }
      apply String.eqb_neq. exact (distinct_by_lookup _ _ i j a b HD Hlt Ha Hb).
  - intros t. rewrite elem_of_sort_by.
    assert (t ∈ l <-> exists x, x ∈ Pd.values s /\ is_nan x = false /\ py_str x = t) as <-.
    { unfold l. rewrite list_elem_of_fmap. split.
      - intros (x & -> & Hx). apply list_elem_of_In, filter_In in Hx as [Hx Hn].
        exists x. split; [by apply list_elem_of_In|]. split; [|done].
        by apply negb_true_iff.
      - intros (x & Hx & Hn & <-). exists x. split; [done|].
        apply list_elem_of_In, filter_In. split; [by apply list_elem_of_In|].
        by rewrite Hn. }
    split; [apply elem_of_unique|]. intros Ht.
    pose proof (unique_from_complete String.eqb [] l t String.eqb_refl Ht) as H.
    cbn [existsb orb] in H. by apply existsb_eqb_elem.
Qed.

Lemma options_dispo_triees_witness :
  exists rest,
    options_dispo "Tous" "mode" table_nettoyee = Ok ("Tous" :: rest) /\
    (forall i j a b, i < j -> rest !! i = Some a -> rest !! j = Some b ->
       String.leb a b = true /\ a <> b) /\
    (forall t, t ∈ rest <->
       exists x, x ∈ [SStr "Metro"; SNaN; SStr "Metro"] /\ is_nan x = false /\
                 py_str x = t).
Proof.
  apply (options_dispo_triees "Tous" "mode" table_nettoyee
           (Object [SStr "Metro"; SNaN; SStr "Metro"])). reflexivity.
Defined.

(** ** An empty table, and what the filters keep *)

(** X19. When the table read from the file is empty once cleaned
    (no row has a measured value), [main] puts the warning on the page and
    stops: no filter, indicator or chart is computed.  The cleaned table is
    a new object; the objects that existed before are untouched. *)
Theorem main_table_vide u w latin1 utf8 d d' :
  disk w = Present latin1 utf8 ->
  latin1 = Some d \/ (latin1 = None /\ utf8 = Some d) ->
  nettoyer d = Ok d' ->
  Pd.empty d' = true ->
  exists r,
    heap w !! r = None /\
    main u w
    = (Raise StopExecution,
       mkWorld (<[r := d']> (heap w))
         (page w ++ [StWarning "⚠️ Le fichier a été chargé mais ne contient aucune donnée exploitable après nettoyage."])
         (disk w)).
Proof.
  intros Hd Hr Hn He.
  destruct (main_charge u w latin1 utf8 d Hd Hr) as (r & Hf & Hm).
  rewrite Hn in Hm. exists r. split; [done|]. rewrite Hm. unfold suite.
  by rewrite He.
Qed.

Lemma main_table_vide_witness :
  exists r,
    heap monde_illisible !! r = None /\
    main utilisateur_defaut monde_illisible
    = (Raise StopExecution,
       mkWorld (<[r := mkFrame
                   [ ("annee", Int64 []);
                     ("trimestre", Object []);
                     ("valeur_reelle", Float64 []);
                     ("periode_label", Object []);
                     ("sort_key", Int64 []) ]]> (heap monde_illisible))
         (page monde_illisible ++ [StWarning "⚠️ Le fichier a été chargé mais ne contient aucune donnée exploitable après nettoyage."])
         (disk monde_illisible)).
Proof.
  apply (main_table_vide utilisateur_defaut monde_illisible None (Some table_illisible)
           table_illisible); [reflexivity|by right|reflexivity|reflexivity].
Defined.

(** X20. The filters keep what cleaning established: whatever
    the user picks, the filtered table is rectangular and its
    [valeur_reelle] column holds a number in every row. *)
Theorem filtrer_sans_manquant r w d r' w' :
  heap w !! r = Some d ->
  Pd.rectangular d = true ->
  nettoyer_donnees r w = (Ok r', w') ->
  exists d', heap w' !! r' = Some d' /\
    forall u d'', filtrer u d' = Ok d'' ->
      Pd.rectangular d'' = true /\
      forall v, Pd.getitem d'' "valeur_reelle" = Ok v ->
        existsb is_str (Pd.values v) = false /\
        Forall (fun x => is_nan x = false) (Pd.values v).
Proof.
  intros Hd Hr Hn. destruct (nettoyer_donnees_table _ _ _ _ _ Hd Hn) as (d' & H & Hd').
  exists d'. split; [done|]. intros u d'' Hf.
  pose proof (filtrer_normalisee u d' d'' (nettoyer_normalisee d d' Hr H) Hf) as Hnorm.
  apply normalisee_iff in Hnorm as [Hr'' Hnum]. split; [done|].
  intros v Hv. destruct (Hnum v Hv) as (vs & Hvs & Hall).
  assert (existsb is_str (Pd.values v) = false /\ vs = Pd.as_float <$> Pd.values v)
    as [Hno ->].
  { destruct v as [xs|xs|xs]; cbn in Hvs |- *.
    - injection Hvs as <-. split; [|done]. apply not_true_is_false.
      intros (x & Hx & Hs)%existsb_exists.
      apply list_elem_of_In, list_elem_of_fmap in Hx as (? & -> & _). done.
    - injection Hvs as <-. split; [|done]. apply not_true_is_false.
      intros (x & Hx & Hs)%existsb_exists.
      apply list_elem_of_In, list_elem_of_fmap in Hx as ([?|] & -> & _); done.
    - destruct (existsb is_str xs); [done|]. by injection Hvs as <-. }
  split; [done|]. rewrite Forall_fmap in Hall.
  eapply Forall_impl; [exact Hall|]. intros x [q Hq]. by destruct x.
Qed.

Lemma filtrer_sans_manquant_witness :
  exists d', heap (snd (nettoyer_donnees 1%positive monde_exemple)) !! 1%positive = Some d' /\
    forall u d'', filtrer u d' = Ok d'' ->
      Pd.rectangular d'' = true /\
      forall v, Pd.getitem d'' "valeur_reelle" = Ok v ->
        existsb is_str (Pd.values v) = false /\
        Forall (fun x => is_nan x = false) (Pd.values v).
Proof.
  apply (filtrer_sans_manquant 1%positive monde_exemple table_exemple); reflexivity.
Defined.

(** ** The scale of the category chart *)

Lemma fold_min_le ms m :
  (fold_left (fun p q => if Qle_bool p q then p else q) ms m <= m)%Q /\
  Forall (fun x => fold_left (fun p q => if Qle_bool p q then p else q) ms m <= x)%Q ms.
Proof.
  revert m; induction ms as [|x ms IH]; intros m; cbn [fold_left].
  { split; [apply Qle_refl|constructor]. }
  destruct (Qle_bool m x) eqn:E.
  - destruct (IH m) as [H1 H2]. split; [done|]. constructor; [|done].
    apply Qle_bool_iff in E. by eapply Qle_trans.
  - destruct (IH x) as [H1 H2]. split; [|by constructor].
    eapply Qle_trans; [exact H1|].
    destruct (Qlt_le_dec x m) as [H|H]; [by apply Qlt_le_weak|].
    apply Qle_bool_iff in H. congruence.
Qed.

Lemma min_val_le rows r m :
  r ∈ rows -> snd r = Some m -> exists lo, min_val rows = Some lo /\ (lo <= m)%Q.
Proof.
  intros Hr Hm. unfold min_val.
  assert (m ∈ omap snd rows) as Hin.
  { apply list_elem_of_omap. by exists r. }
  destruct (omap snd rows) as [|x xs]; [by apply elem_of_nil in Hin|].
  eexists. split; [done|]. destruct (fold_min_le xs x) as [H1 H2].
  apply elem_of_cons in Hin as [->|Hin]; [done|].
  rewrite Forall_forall in H2. by apply H2.
Qed.

(** X21. The scale [yaxis_range] of the category chart ends at
    105 and starts at a value that is never negative and never above a
    bar that is not negative: it starts 5 below the lowest mean, or at 0. *)
Theorem yaxis_range_bornes rows :
  (0 <= fst (yaxis_range rows))%Q /\
  snd (yaxis_range rows) = 105%Q /\
  (forall r m, r ∈ rows -> snd r = Some m ->
     (0 <= m -> fst (yaxis_range rows) <= m)%Q /\
     (5 <= m -> fst (yaxis_range rows) <= m - 5)%Q).
Proof.
  unfold yaxis_range. cbn [fst snd]. split; [|split; [done|]].
  - unfold py_max0. destruct (sub_float _ _) as [q|]; [|done].
    destruct (Qle_bool q 0) eqn:E; [done|].
    destruct (Qlt_le_dec 0 q) as [H|H]; [by apply Qlt_le_weak|].
    apply Qle_bool_iff in H. congruence.
  - intros r m Hr Hm. destruct (min_val_le rows r m Hr Hm) as (lo & -> & Hlo).
    cbn [sub_float mbind option_bind py_max0].
    destruct (Qle_bool (Qred (lo - 5)) 0) eqn:E.
    + split; [done|]. intros H. lra.
    + pose proof (Qred_correct (lo - 5)) as Hq. split; intros H; rewrite Hq; lra.
Qed.

(** ** The three criteria together *)

Lemma origin_lt m i j : origin m i = Some j -> j < length m.
Proof. intros H%origin_true. by apply lookup_lt_Some in H. Qed.

Lemma origin_is_Some {A} m (l : list A) i :
  length m = length l -> is_Some (origin m i) <-> i < length (mask_filter m l).
Proof.
  intros Hl. rewrite <- lookup_lt_is_Some, lookup_mask_filter. split.
  - intros [j Hj]. rewrite Hj. cbn. apply lookup_lt_is_Some.
    apply origin_lt in Hj. lia.
  - intros [x Hx]. destruct (origin m i); [by eexists|done].
Qed.

Lemma nrows_loc m d i :
  Pd.rectangular d = true -> length m = Pd.nrows d ->
  is_Some (origin m i) <-> i < Pd.nrows (Pd.loc m d).
Proof.
  intros Hr Hl. unfold Pd.nrows, Pd.loc in *. cbn [cols].
  destruct (cols d) as [|c l]; cbn [fmap list_fmap snd].
  - destruct m; [|done]. cbn. split; [by intros [? ?]|lia].
  - unfold Pd.size in *. rewrite values_take. by apply origin_is_Some.
Qed.

Lemma garde_loc crit m d :
  Pd.rectangular d = true -> length m = Pd.nrows d ->
  (forall j, j < Pd.nrows d -> (m !! j = Some true <-> crit d j)) ->
  garde crit (origin m) d (Pd.loc m d).
Proof.
  intros Hr Hl Hm. split; [apply extrait_loc|]. split; [apply columns_loc|].
  split; [by apply rectangular_loc|]. split; [intros i; by apply nrows_loc|].
  split.
  - intros i j Hij. apply origin_lt in Hij. lia.
  - intros j Hj. rewrite <- (Hm j Hj). split.
    + intros [i Hi]. by eapply origin_true.
    + apply origin_onto.
Qed.

Lemma lookup_replicate_true n j : j < n -> replicate n true !! j = Some true.
Proof. intros H. by apply lookup_replicate. Qed.

Lemma garde_tout crit d :
  Pd.rectangular d = true -> (forall j, crit d j) ->
  exists f, garde crit f d d.
Proof.
  intros Hr Hc. exists (origin (replicate (Pd.nrows d) true)).
  assert (garde crit (origin (replicate (Pd.nrows d) true)) d
                (Pd.loc (replicate (Pd.nrows d) true) d)) as G.
  { apply garde_loc; [done|by rewrite length_replicate|].
    intros j Hj. split; [by intros _|]. intros _. by apply lookup_replicate_true. }
  rewrite loc_all in G; [done|done| |by rewrite length_replicate].
  apply Forall_forall. intros b Hb. by apply elem_of_replicate in Hb as [-> _].
Qed.

Lemma garde_comp c1 c2 f g d d1 d2 :
  garde c1 f d d1 -> garde c2 g d1 d2 ->
  (forall i j, f i = Some j -> (c2 d1 i <-> c2 d j)) ->
  garde (fun d j => c1 d j /\ c2 d j) (fun i => g i ≫= f) d d2.
Proof.
  intros (E1 & C1 & R1 & D1 & B1 & K1) (E2 & C2 & R2 & D2 & B2 & K2) Htr.
  split; [by eapply extrait_trans|]. split; [by rewrite C2|]. split; [done|].
  split; [|split].
  - intros i. rewrite <- D2. split.
    + intros [j Hj]. destruct (g i); [by eexists|done].
    + intros [k Hk]. rewrite Hk. cbn. apply D1. by eapply B2.
  - intros i j Hij. destruct (g i) as [k|]; [|done]. cbn in Hij. by eapply B1.
  - intros j Hj. rewrite <- (K1 j Hj). split.
    + intros [i Hi]. destruct (g i) as [k|] eqn:Hk; [|done]. cbn in Hi.
      split; [by exists k|]. apply (Htr k j Hi). apply K2; [|by exists i].
      apply D1. by eexists.
    + intros [[k Hk] Hc2]. apply (Htr k j Hk) in Hc2.
      apply K2 in Hc2 as [i Hi]; [|apply D1; by eexists].
      exists i. by rewrite Hi.
Qed.

Lemma filtre_annee_garde sel d d' :
  Pd.rectangular d = true ->
  filtre_annee (fun _ => sel) d = Ok d' ->
  exists f, garde (critere_annee sel) f d d'.
Proof.
  intros Hr. unfold filtre_annee. destruct (Pd.has d "annee") eqn:Hh.
  2:{ intros [= <-]. apply garde_tout; [done|]. intros j _ ?. congruence. }
  destruct (annees_dispo d) as [dispo|e]; cbn [mbind exc_bind]; [|done].
  destruct sel as [|v sel].
  { intros [= <-]. apply garde_tout; [done|]. by intros j []. }
  destruct (Pd.getitem d "annee") as [s|e] eqn:Hs; cbn [mbind exc_bind]; [|done].
  intros [= <-]. eexists. apply garde_loc; [done| |].
  - unfold Pd.isin. rewrite length_fmap. apply (rectangular_getitem _ _ _ Hr Hs).
  - intros j Hj. unfold critere_annee, Pd.isin, cell. rewrite Hs, list_lookup_fmap.
    destruct (Pd.values s !! j) as [x|]; cbn [fmap option_fmap option_map].
    + split.
      * intros [= [Hn E]%andb_prop] _ _. exists x. split; [done|].
        split; [by apply negb_true_iff|done].
      * intros H. destruct H as (x' & [= <-] & Hn & E); [done|done|].
        by rewrite Hn, E.
    + split; [done|]. intros H. by destruct H as (? & ? & _).
Qed.

Lemma filtre_valeur_garde col tous v d d' :
  Pd.rectangular d = true ->
  filtre_valeur col tous (fun _ => v) d = Ok d' ->
  exists f, garde (critere_valeur col tous v) f d d'.
Proof.
  intros Hr Hf.
  destruct (filtre_valeur_cases _ _ _ _ _ Hf) as [_ [[-> Hc]|(s & Hs & Hne & ->)]].
  - apply garde_tout; [done|]. intros j Hv Hh. destruct Hc; congruence.
  - eexists. apply garde_loc; [done| |].
    + unfold Pd.eq_str. rewrite length_fmap. apply (rectangular_getitem _ _ _ Hr Hs).
    + intros j Hj. unfold critere_valeur, Pd.eq_str, cell.
      rewrite Hs, list_lookup_fmap.
      destruct (Pd.values s !! j) as [x|]; cbn [fmap option_fmap option_map].
      * split.
        -- intros [= E] _ _. f_equal. by apply scalar_eqb_str.
        -- intros H. specialize (H Hne (has_getitem _ _ _ Hs)).
           injection H as ->. f_equal. by apply scalar_eqb_str.
      * split; [done|]. intros H. by specialize (H Hne (has_getitem _ _ _ Hs)).
Qed.

Lemma critere_valeur_transport col tous v f d d1 i j :
  extrait f d d1 -> Pd.columns d1 = Pd.columns d -> f i = Some j ->
  critere_valeur col tous v d1 i <-> critere_valeur col tous v d j.
Proof.
  intros [Hc _] Hcol Hij. unfold critere_valeur.
  by rewrite (has_columns _ _ Hcol), Hc, Hij.
Qed.

(** X22. With the three widgets set to given criteria, the years
    selected being years of the table, NaN apart, the filtered table
    consists of exactly the rows that pass the three criteria together
    (year among the selected ones, mode equal to the one picked,
    thematique equal to the one picked; an empty selection and the
    sentinels "Tous" and "Toutes" constrain nothing), in their order. *)
Theorem filtrer_exact annees_sel mode_sel theme_sel d d' :
  Pd.rectangular d = true ->
  annees_de annees_sel d ->
  filtrer (criteres annees_sel mode_sel theme_sel) d = Ok d' ->
  exists f,
    (forall c i, cell d' c i = f i ≫= cell d c) /\
    (forall i1 i2 j1 j2, i1 < i2 -> f i1 = Some j1 -> f i2 = Some j2 -> j1 < j2) /\
    (forall j, j < Pd.nrows d ->
       (exists i, f i = Some j) <->
       critere_annee annees_sel d j /\
       critere_valeur "mode" "Tous" mode_sel d j /\
       critere_valeur "thematique" "Toutes" theme_sel d j).
Proof.
  intros Hr _. unfold filtrer, criteres, filtre_mode, filtre_thematique.
  cbn [multiselect selectbox].
  change (String.eqb "Mode de transport" "Mode de transport") with true.
  change (String.eqb "Thématique" "Mode de transport") with false.
  cbv iota.
  destruct (filtre_annee _ d) as [da|e] eqn:Ha; [|done]. cbn [mbind exc_bind].
  destruct (filtre_valeur "mode" _ _ da) as [dm|e] eqn:Hm; [|done].
  cbn [mbind exc_bind]. intros Ht.
  destruct (filtre_annee_garde _ _ _ Hr Ha) as [fa Ga].
  pose proof Ga as (Ea & Ca & Ra & _).
  destruct (filtre_valeur_garde _ _ _ _ _ Ra Hm) as [fm Gm].
  pose proof Gm as (Em & Cm & Rm & _).
  destruct (filtre_valeur_garde _ _ _ _ _ Rm Ht) as [ft Gt].
  pose proof (garde_comp _ _ _ _ _ _ _ Ga Gm
                (fun i j H => critere_valeur_transport _ _ _ _ _ _ i j Ea Ca H)) as Gam.
  pose proof Gam as (Eam & Cam & _).
  pose proof (garde_comp _ _ _ _ _ _ _ Gam Gt
                (fun i j H => critere_valeur_transport _ _ _ _ _ _ i j Eam Cam H))
    as (Efin & _ & _ & _ & _ & K).
  destruct Efin as [Hc Hmono].
  eexists. split; [exact Hc|]. split; [exact Hmono|].
  intros j Hj. rewrite (K j Hj). tauto.
Qed.

Lemma filtrer_exact_witness :
  exists f,
    (forall c i, cell (Pd.loc [false; false; true] table_nettoyee) c i
                 = f i ≫= cell table_nettoyee c) /\
    (forall i1 i2 j1 j2, i1 < i2 -> f i1 = Some j1 -> f i2 = Some j2 -> j1 < j2) /\
    (forall j, j < Pd.nrows table_nettoyee ->
       (exists i, f i = Some j) <->
       critere_annee [SInt 2024] table_nettoyee j /\
       critere_valeur "mode" "Tous" "Metro" table_nettoyee j /\
       critere_valeur "thematique" "Toutes" "Toutes" table_nettoyee j).
Proof.
  apply (filtrer_exact [SInt 2024] "Metro" "Toutes" table_nettoyee);
    [reflexivity| |reflexivity].
  intros s x [= <-] ->%list_elem_of_singleton.
  split; [right; left|reflexivity].
Defined.

(** ** Decimal commas *)













(** ** The text of the period label *)

Lemma repr_float_entier z :
  (0 <= z)%Z -> Num.repr_float (inject_Z z) = pretty z ++ ".0".
Proof.
  intros Hz. unfold Num.repr_float, inject_Z. cbn [Qnum Qden].
  rewrite Z.abs_eq, Z.div_1_r, Z.mod_1_r by done.
  assert ((z <? 0)%Z = false) as -> by lia. done.
Qed.

Lemma append_assoc (s t u : string) : (s ++ t) ++ u = s ++ (t ++ u).
Proof.
  induction s as [|a s IH]; [done|]. by rewrite !append_cons, IH.
Qed.

(** X24. The label of a period is written from the
    year as Python prints it: "2023 - T1" when the year is an int, but
    "2023.0 - T1" when the year column is a float column (as it is when a
    year is missing somewhere in the file), for the years below 2^53,
    which float64 holds exactly and Python prints without an exponent. *)
Theorem periode_label_annee_flottante r w d r' w' :
  heap w !! r = Some d ->
  nettoyer_donnees r w = (Ok r', w') ->
  exists d', heap w' !! r' = Some d' /\
    forall i x t l,
      cell d' "annee" i = Some x ->
      cell d' "trimestre" i = Some (SStr t) ->
      cell d' "periode_label" i = Some l ->
      (forall z, x = SInt z -> l = SStr (pretty z ++ " - " ++ t)) /\
      (forall z, (0 <= z < 2 ^ 53)%Z -> x = SFloat (inject_Z z) ->
                 l = SStr (pretty z ++ ".0 - " ++ t)).
Proof.
  intros Hd Hn. destruct (nettoyer_donnees_table _ _ _ _ _ Hd Hn) as (d' & H & Hd').
  exists d'. split; [done|]. intros i x t l Hx Ht Hl.
  destruct (nettoyer_cells d d' i x (SStr t) H Hx Ht) as [Hlab _].
  assert (is_ok (Pd.getitem d' "periode_label") = true) as Hok.
  { unfold cell in Hl. by destruct (Pd.getitem d' "periode_label"). }
  rewrite (Hlab Hok) in Hl. injection Hl as <-. split.
  - intros z ->. cbn [py_str]. by rewrite append_assoc.
  - intros z [Hz _] ->. cbn [py_str]. rewrite (repr_float_entier z Hz).
    by rewrite !append_assoc.
Qed.

Lemma periode_label_annee_flottante_witness :
  exists d', heap (snd (nettoyer_donnees 1%positive monde_annee_manquante)) !! 1%positive
             = Some d' /\
    forall i x t l,
      cell d' "annee" i = Some x ->
      cell d' "trimestre" i = Some (SStr t) ->
      cell d' "periode_label" i = Some l ->
      (forall z, x = SInt z -> l = SStr (pretty z ++ " - " ++ t)) /\
      (forall z, (0 <= z < 2 ^ 53)%Z -> x = SFloat (inject_Z z) ->
                 l = SStr (pretty z ++ ".0 - " ++ t)).
Proof.
  apply (periode_label_annee_flottante 1%positive monde_annee_manquante table_annee_manquante);
    reflexivity.
Defined.

(** ** The indicators *)

Lemma mean_None vs : mean vs = None <-> Forall (fun o => o = None) vs.
Proof.
  unfold mean. split.
  - destruct (omap id vs) as [|x xs] eqn:E; [|done]. intros _.
    apply Forall_forall. intros [q|] Ho; [|done].
    assert (q ∈ omap id vs) as H by (apply list_elem_of_omap; by exists (Some q)).
    rewrite E in H. by apply elem_of_nil in H.
  - intros H. destruct (omap id vs) as [|x xs] eqn:E; [done|].
    assert (x ∈ omap id vs) as Hx by (rewrite E; left).
    apply list_elem_of_omap in Hx as (o & Ho & Hx). rewrite Forall_forall in H.
    rewrite (H o Ho) in Hx. done.
Qed.

(** X25. On a normalised table that is not empty and has a numeric
    [valeur_objectif] column, the values of both columns being finite
    (between [-B] and [B], with [B] times the number of rows at most
    2^53), [kpis] puts exactly three indicators on the page, in order: the
    mean measured value, the mean objective and their difference.  The
    first is a number between [-B] and [B]; the other two are NaN exactly
    when no row has an objective, and the mean objective, when it is a
    number, lies between [-B] and [B] too. *)
Theorem kpis_ecart d w v o B :
  normalisee d = true -> Pd.empty d = false ->
  Pd.getitem d "valeur_reelle" = Ok v ->
  Pd.getitem d "valeur_objectif" = Ok o ->
  existsb is_str (Pd.values o) = false ->
  valeurs_finies B v -> valeurs_finies B o ->
  exists m1 m2,
    series_mean v = Ok (Some m1) /\ series_mean o = Ok m2 /\
    kpis d w
    = (Ok tt,
       mkWorld (heap w)
         (page w ++ [ StMetric "Taux de Réussite Moyen" (Some m1);
                      StMetric "Objectif Contractuel Moyen" m2;
                      StMetric "Écart à l'Objectif" (sub_float (Some m1) m2) ])
         (disk w)) /\
    (m2 = None <-> Forall (fun x => Pd.as_float x = None) (Pd.values o)) /\
    (inject_Z (- B) <= m1 /\ m1 <= inject_Z B)%Q /\
    (forall m, m2 = Some m -> inject_Z (- B) <= m /\ m <= inject_Z B)%Q.
Proof.
  intros Hn He Hv Ho Hs [Hbv _] [Hbo _].
  destruct (series_mean_definie d v Hn He Hv) as [m1 Hm1].
  assert (numeric_values o = Ok (Pd.as_float <$> Pd.values o)) as Hos.
  { destruct o as [xs|xs|xs]; cbn in Hs |- *; [done|done|]. by rewrite Hs. }
  exists m1, (mean (Pd.as_float <$> Pd.values o)).
  split; [done|]. split; [unfold series_mean; by rewrite Hos|]. split.
  - assert (series_mean o = Ok (mean (Pd.as_float <$> Pd.values o))) as Hm2.
    { unfold series_mean. by rewrite Hos. }
    unfold kpis. rewrite (has_getitem _ _ _ Hv), (has_getitem _ _ _ Ho), Hv, Ho.
    unfold mbind, M_bind, lift, show, mret, M_ret, when. cbn [andb].
    cbv beta. rewrite Hm1. cbv beta iota. rewrite Hm2. cbv beta iota.
    cbn [heap page disk]. by rewrite <- !app_assoc.
  - split; [rewrite mean_None, Forall_fmap; done|].
    split; [by apply (series_mean_entre v)|].
    intros m Hm. apply (series_mean_entre o); [|done].
    unfold series_mean. by rewrite Hos, <- Hm.
Qed.

Lemma kpis_ecart_witness :
  exists m1 m2,
    series_mean (Float64 [Some (197 # 2); Some 90%Q; Some (183 # 2)]) = Ok (Some m1) /\
    series_mean (Float64 [Some 98%Q; None; Some 98%Q]) = Ok m2 /\
    kpis table_nettoyee monde_exemple
    = (Ok tt,
       mkWorld (heap monde_exemple)
         (page monde_exemple ++ [ StMetric "Taux de Réussite Moyen" (Some m1);
                                  StMetric "Objectif Contractuel Moyen" m2;
                                  StMetric "Écart à l'Objectif"
                                    (sub_float (Some m1) m2) ])
         (disk monde_exemple)) /\
    (m2 = None <->
     Forall (fun x => Pd.as_float x = None)
            (Pd.values (Float64 [Some 98%Q; None; Some 98%Q]))) /\
    (inject_Z (- 100) <= m1 /\ m1 <= inject_Z 100)%Q /\
    (forall m, m2 = Some m -> inject_Z (- 100) <= m /\ m <= inject_Z 100)%Q.
Proof.
  apply (kpis_ecart table_nettoyee monde_exemple
           (Float64 [Some (197 # 2); Some 90%Q; Some (183 # 2)])
           (Float64 [Some 98%Q; None; Some 98%Q]) 100%Z); try reflexivity.
  - split; [|by vm_compute].
    intros x q Hx Hq. cbn in Hx.
    repeat (apply elem_of_cons in Hx as [->|Hx];
            [injection Hq as <-; split; discriminate|]).
    by apply elem_of_nil in Hx.
  - split; [|by vm_compute].
    intros x q Hx Hq. cbn in Hx.
    repeat (apply elem_of_cons in Hx as [->|Hx];
            [first [discriminate Hq | injection Hq as <-; split; discriminate]|]).
    by apply elem_of_nil in Hx.
Defined.
